(** * cloudtest: the packet provider adapter, the shell manager's printers
      and the engine's cluster state machine

    A shallow embedding of the Go sources:
    - [pkg/shell] ([shellInterface.PrintEnv], [shellInterface.PrintArgs],
      [NewManager], [runCmd], [RunCmd], [RunRead]),
    - [pkg/providers/packet] ([packetProvider], [packetInstance]),
    - [pkg/tests/test_validator.go] ([TestValidationFactory]),
    - the test of the cluster states of [pkg/commands]
      ([TestClusterInstanceStates]).

    Go strings are byte strings: [string] here, whose characters are the
    bytes.  The operating system's environment, the shell, the file system
    and the Packet REST service are outside the program: every call into
    them takes its result from an explicit record of answers. *)

From Stdlib Require Import ZArith Lia Ascii.
From stdpp Require Import base strings gmap list pretty.

Local Open Scope Z_scope.

(** ** Go's [strings] package (the functions the sources call) *)
Module GoStrings.

Definition bytes (s : string) : list ascii := String.list_ascii_of_string s.
Definition str (l : list ascii) : string := String.string_of_list_ascii l.

(** [strings.HasPrefix] on bytes. *)
Fixpoint hasPrefixB (s p : list ascii) : bool :=
  match p, s with
  | [], _ => true
  | _ :: _, [] => false
  | c :: p', d :: s' => bool_decide (c = d) && hasPrefixB s' p'
  end.

(** [strings.Index]: offset of the leftmost instance, [None] for -1. *)
Fixpoint indexB (s sub : list ascii) : option nat :=
  if hasPrefixB s sub then Some 0%nat
  else match s with
       | [] => None
       | _ :: t => S <$> indexB t sub
       end.

(** [utf8.DecodeRuneInString], its width only.  [first] gives, for a
    leading byte, the sequence's size and the range accepted for the
    second byte; [None] stands for ASCII and for invalid leading bytes. *)
Definition first (b0 : N) : option (nat * N * N) :=
  (if b0 <? 0xC2 then None
   else if b0 <? 0xE0 then Some (2%nat, 0x80, 0xBF)
   else if b0 =? 0xE0 then Some (3%nat, 0xA0, 0xBF)
   else if b0 <? 0xED then Some (3%nat, 0x80, 0xBF)
   else if b0 =? 0xED then Some (3%nat, 0x80, 0x9F)
   else if b0 <? 0xF0 then Some (3%nat, 0x80, 0xBF)
   else if b0 =? 0xF0 then Some (4%nat, 0x90, 0xBF)
   else if b0 <? 0xF4 then Some (4%nat, 0x80, 0xBF)
   else if b0 =? 0xF4 then Some (4%nat, 0x80, 0x8F)
   else None)%N.

Definition outside (lo hi : N) (c : ascii) : bool :=
  ((N_of_ascii c <? lo) || (hi <? N_of_ascii c))%N.

Definition runeWidth (s : list ascii) : nat :=
  match s with
  | [] => 0%nat
  | s0 :: t =>
    match first (N_of_ascii s0) with
    | None => 1%nat
    | Some (sz, lo, hi) =>
      if (length s <? sz)%nat then 1%nat
      else match t with
           | [] => 1%nat
           | s1 :: t1 =>
             if outside lo hi s1 then 1%nat
             else if (sz <=? 2)%nat then 2%nat
             else match t1 with
                  | [] => 1%nat
                  | s2 :: t2 =>
                    if outside 0x80 0xBF s2 then 1%nat
                    else if (sz <=? 3)%nat then 3%nat
                    else match t2 with
                         | [] => 1%nat
                         | s3 :: _ =>
                           if outside 0x80 0xBF s3 then 1%nat else 4%nat
                         end
                  end
           end
    end
  end.

(** [utf8.RuneCountInString]: one rune per decoding step.  Every step
    consumes a byte, so [length s] steps are enough. *)
Fixpoint runeCountLoop (fuel : nat) (s : list ascii) : nat :=
  match fuel, s with
  | S f, _ :: _ => S (runeCountLoop f (drop (runeWidth s) s))
  | _, _ => 0%nat
  end.
Definition runeCount (s : list ascii) : nat := runeCountLoop (length s) s.

(** [strings.Count]'s loop for a non-empty [sub]: each round finds the
    leftmost instance and resumes after it. *)
Fixpoint countLoop (fuel : nat) (s sub : list ascii) : nat :=
  match fuel with
  | O => 0%nat
  | S f =>
    match indexB s sub with
    | None => 0%nat
    | Some i => S (countLoop f (drop (i + length sub) s) sub)
    end
  end.

Definition countB (s sub : list ascii) : nat :=
  match sub with
  | [] => (runeCount s + 1)%nat
  | _ :: _ => countLoop (S (length s)) s sub
  end.

(** The replacement loop of [strings.Replace]: [n] rounds over the rest
    of the string, [s[start:]]; [i0] says that this is round [i = 0]. *)
Fixpoint replaceLoop (n : nat) (i0 : bool) (rest old new : list ascii)
  : list ascii :=
  match n with
  | O => rest
  | S k =>
    let j := match old with
             | [] => if i0 then 0%nat else runeWidth rest
             | _ :: _ => default 0%nat (indexB rest old)
             end in
    take j rest ++ new ++ replaceLoop k false (drop (j + length old) rest) old new
  end.

Definition replaceB (s old new : list ascii) (n : Z) : list ascii :=
  if bool_decide (old = new) || bool_decide (n = 0) then s
  else
    let m := countB s old in
    if bool_decide (m = 0%nat) then s
    else
      let n' := if bool_decide (n < 0) || bool_decide (Z.of_nat m < n)
                then m else Z.to_nat n in
      replaceLoop n' true s old new.

(** [strings.Split]: the pieces between the instances of [sep]; for an
    empty [sep], the UTF-8 sequences of [s]. *)
Fixpoint explodeLoop (fuel : nat) (s : list ascii) : list (list ascii) :=
  match fuel, s with
  | S f, _ :: _ => take (runeWidth s) s :: explodeLoop f (drop (runeWidth s) s)
  | _, _ => []
  end.
Fixpoint splitLoop (fuel : nat) (s sep : list ascii) : list (list ascii) :=
  match fuel with
  | O => [s]
  | S f =>
    match indexB s sep with
    | None => [s]
    | Some i => take i s :: splitLoop f (drop (i + length sep) s) sep
    end
  end.
Definition splitB (s sep : list ascii) : list (list ascii) :=
  match sep with
  | [] => explodeLoop (length s) s
  | _ :: _ => splitLoop (S (length s)) s sep
  end.

(** The functions as the sources call them, on Go strings. *)
Definition HasPrefix (s prefix : string) : bool :=
  hasPrefixB (bytes s) (bytes prefix).
Definition Index (s substr : string) : Z :=
  match indexB (bytes s) (bytes substr) with
  | Some i => Z.of_nat i
  | None => -1
  end.
Definition Contains (s substr : string) : bool :=
  bool_decide (0 <= Index s substr).
Definition Replace (s old new : string) (n : Z) : string :=
  str (replaceB (bytes s) (bytes old) (bytes new) n).
Definition Split (s sep : string) : list string :=
  str <$> splitB (bytes s) (bytes sep).

(** [s] has an instance of [sub]. *)
Definition infix (sub s : list ascii) : Prop :=
  exists a b, s = a ++ sub ++ b.
Definition occurs (sub s : string) : Prop :=
  exists a b, s = a +:+ sub +:+ b.

End GoStrings.

(** ** Shared data: errors, the environment, the configuration *)

(** A Go [error] value: its message; [None] is [nil]. *)
Definition error := string.

(** The line feed of the format strings. *)
Definition nl : string := String (ascii_of_nat 10) "".

(** [os.Getenv]: the value of the variable, empty when it is not set. *)
Definition Getenv (environ : gmap string string) (key : string) : string :=
  default "" (environ !! key).

(** [fmt.Sprintf("%v", l)] of a [[]string]. *)
Definition formatList (l : list string) : string :=
  "[" +:+ String.concat " " l +:+ "]".

(** Go's [int] on the 64-bit targets: [v] brought back into range. *)
Definition wrap64 (v : Z) : Z := (v + 2^63) mod 2^64 - 2^63.

Module config.

(** [config.HardwareDeviceConfig] and [config.FacilityDeviceConfig]. *)
Record HardwareDeviceConfig := {
  Name : string;
  HostName : string;
  OperatingSystem : string;
  BillingCycle : string;
  PortVLANs : option (list (string * Z));
}.
Record FacilityDeviceConfig := {
  HardwareDevice : HardwareDeviceConfig;
  Plan : string;
}.

(** [config.PacketConfig]. *)
Record PacketConfig := {
  SSHKey : string;
  HardwareDevices : list HardwareDeviceConfig;
  Devices : list FacilityDeviceConfig;
  HardwareReservations : list string;
  Facilities : list string;
  PreferredFacility : string;
}.

(** [config.ClusterProviderConfig]; [Packet] is a pointer, [None] is nil. *)
Record ClusterProviderConfig := {
  ProviderName : string;
  Kind : string;
  Timeout : Z;
  Instances : Z;
  NodeCount : Z;
  RetryCount : Z;
  Scripts : gmap string string;
  Env : list string;
  EnvCheck : list string;
  Enabled : bool;
  Packet : option PacketConfig;
}.

End config.

Module providers.
(** [providers.InstanceOptions], the options the sources read. *)
Record InstanceOptions := {
  NoInstall : bool;
  NoMaskParameters : bool;
}.
End providers.

(** ** pkg/shell: the printers of [shellInterface] *)
Module shell.
Import config providers.

Section Printers.
(** [utils.ParseVariable] is not among the sources: the printers take it
    as given.  It yields the name, the value and an error. *)
Variable ParseVariable : string -> string * string * option error.

(** What the printers read of a [shellInterface]; [environ] is the
    process environment [os.Getenv] looks into. *)
Record shellInterface := {
  id : string;
  config : ClusterProviderConfig;
  params : InstanceOptions;
  environ : gmap string string;
}.

(** The inner loop of both printers:
    [for _, ce := range si.config.EnvCheck {
       envValue := os.Getenv(ce)
       varValue = strings.Replace(varValue, envValue, "****", -1) }]. *)
Definition maskLoop (si : shellInterface) (varValue : string) : string :=
  foldl (fun v ce => GoStrings.Replace v (Getenv (environ si) ce) "****" (-1))
        varValue (EnvCheck (config si)).

(** The value either printer writes for [varValue]. *)
Definition printedValue (si : shellInterface) (varValue : string) : string :=
  if negb (NoMaskParameters (params si)) then maskLoop si varValue
  else varValue.

(** [fmt.Sprintf("%s=%s\n", varName, varValue)]. *)
Definition printLine (varName varValue : string) : string :=
  varName +:+ "=" +:+ varValue +:+ nl.

(** [PrintEnv]: one line for each entry of [processedEnv]. *)
Fixpoint PrintEnv (si : shellInterface) (processedEnv : list string) : string :=
  match processedEnv with
  | [] => ""
  | cmdEnvValue :: rest =>
    let '(varName, varValue, _) := ParseVariable cmdEnvValue in
    printLine varName (printedValue si varValue) +:+ PrintEnv si rest
  end.

(** [PrintArgs]: the header, then one line for each entry of
    [si.finalArgs].  A Go map is ranged over in no fixed order:
    [visit] lists the entries in the order this call meets them. *)
Fixpoint printArgsLines (si : shellInterface) (visit : list (string * string))
  : string :=
  match visit with
  | [] => ""
  | (varName, varValue) :: rest =>
    printLine varName (printedValue si varValue) +:+ printArgsLines si rest
  end.
Definition PrintArgs (si : shellInterface) (visit : list (string * string))
  : string :=
  "Arguments:" +:+ nl +:+ printArgsLines si visit.

End Printers.

(** The reading of [name=value] entries used in the examples: the text
    before the first [=] and the text after it. *)
Fixpoint splitAtEquals (l : list ascii) : option (list ascii * list ascii) :=
  match l with
  | [] => None
  | c :: t =>
    if bool_decide (c = "="%char) then Some ([], t)
    else prod_map (cons c) (fun x => x) <$> splitAtEquals t
    end.
Definition parseAtEquals (variable : string) : string * string * option error :=
  match splitAtEquals (GoStrings.bytes variable) with
  | Some (n, v) => (GoStrings.str n, GoStrings.str v, None)
  | None => ("", "", Some "variable passed are invalid")
  end.

End shell.

(** ** pkg/providers/packet *)
Module packet.
Import config providers.

Definition installScript : string := "install".
Definition setupScript : string := "setup".
Definition startScript : string := "start".
Definition configScript : string := "config".
Definition prepareScript : string := "prepare".
Definition stopScript : string := "stop".
Definition cleanupScript : string := "cleanup".
Definition packetProjectID : string := "PACKET_PROJECT_ID".

(** [config.Scripts[key]]: the zero value when the key is absent. *)
Definition script (cfg : ClusterProviderConfig) (key : string) : string :=
  default "" (Scripts cfg !! key).

Module packetProvider.

(** [packetProvider]; its [clusters] slice is never read or written
    after [NewPacketClusterProvider] and its mutex guards the calls
    below, which are taken one at a time here. *)
Record t := {
  root : string;
  indexes : gmap string Z;
  installDone : gmap string bool;
}.

Definition NewPacketClusterProvider (root : string) : t :=
  {| root := root; indexes := ∅; installDone := ∅ |}.

(** [getProviderID]: the next ordinal of [provider], stored and
    printed with [%d]. *)
Definition getProviderID (p : t) (provider : string) : string * t :=
  let val := match indexes p !! provider with
             | Some val => wrap64 (val + 1)
             | None => 1
             end in
  (pretty val,
   {| root := root p;
      indexes := <[provider := val]> (indexes p);
      installDone := installDone p |}).

(** The loop over [config.Env] looking for a [KUBECONFIG=] entry. *)
Definition hasKubeConfig (env : list string) : bool :=
  existsb (fun e => GoStrings.HasPrefix e "KUBECONFIG=") env.

(** The loop over [config.EnvCheck]: the error of the first variable
    whose value is empty. *)
Fixpoint envCheckLoop (environ : gmap string string) (all vars : list string)
  : option error :=
  match vars with
  | [] => None
  | envVar :: rest =>
    let envValue := Getenv environ envVar in
    if bool_decide (envValue = "")
    then Some ("environment variable are not specified " +:+ envValue
               +:+ " Required variables: " +:+ formatList all)
    else envCheckLoop environ all rest
  end.

Definition ValidateConfig (environ : gmap string string)
           (cfg : ClusterProviderConfig) : option error :=
  match Packet cfg with
  | None => Some "packet configuration element should be specified"
  | Some pk =>
    let isHardware := bool_decide (0 < length (HardwareDevices pk))%nat in
    let isFacility := bool_decide (0 < length (Devices pk))%nat in
    if negb isHardware && negb isFacility
    then Some "packet configuration devices should be specified"
    else if isHardware && bool_decide (length (HardwareReservations pk) = 0%nat)
    then Some "packet hardware reservations should be specified"
    else if isFacility && bool_decide (length (Facilities pk) = 0%nat)
    then Some "packet configuration facilities should be specified"
    else if bool_decide (Scripts cfg !! configScript = None)
            && negb (hasKubeConfig (Env cfg))
    then Some "invalid config location"
    else if bool_decide (Scripts cfg !! startScript = None)
    then Some "invalid start script"
    else
      match envCheckLoop environ (EnvCheck cfg) (EnvCheck cfg) with
      | Some err => Some err
      | None =>
        if bool_decide (Getenv environ "PACKET_AUTH_TOKEN" = "")
        then Some "environment variable are not specified PACKET_AUTH_TOKEN"
        else if bool_decide (Getenv environ "PACKET_PROJECT_ID" = "")
        then Some "environment variable are not specified PACKET_PROJECT_ID"
        else None
      end
  end.

End packetProvider.

(** What a step of a method yields: a value to go on with, the method's
    return [(fileName, err)], or a run-time panic. *)
Inductive step (A : Type) : Type :=
| Next (a : A)
| Return (fileName : string) (err : option error)
| Panic (msg : string).
Arguments Next {A} a.
Arguments Return {A} fileName err.
Arguments Panic {A} msg.

(** What a call of a method yields. *)
Inductive outcome (A : Type) : Type :=
| Returned (a : A)
| Panicked (msg : string).
Arguments Returned {A} a.
Arguments Panicked {A} msg.

(** The values of [packngo], with the fields the adapter reads:
    [HardwareReservation] (its ID, the slug of its plan, the code of its
    facility), [Facility], [IPAddressAssignment], [Port], [Device] and
    [DeviceCreateRequest]. *)
Record HardwareReservation := {
  hrID : string;
  hrPlan : string;
  hrFacility : string;
}.
Record Facility := {
  facilityCode : string;
  facilityFeatures : list string;
}.
Record IPAddressAssignment := {
  ipPublic : bool;
  ipAddressFamily : Z;
  ipAddress : string;
  ipGateway : string;
  ipNetwork : string;
}.
Record Port := {
  portName : string;
  portID : string;
  portBonded : bool;
}.
Record Device := {
  deviceID : string;
  deviceState : string;
  deviceNetwork : list IPAddressAssignment;
  deviceNetworkPorts : list Port;
}.
Record DeviceCreateRequest := {
  reqHostname : string;
  reqOS : string;
  reqBillingCycle : string;
  reqProjectID : string;
  reqProjectSSHKeys : list string;
  reqPlan : string;
  reqFacility : list string;
  reqHardwareReservationID : string;
}.

(** [Device.GetPortByName] of [packngo]. *)
Definition GetPortByName (d : Device) (name : string) : option Port * option error :=
  match filter (fun port => portName port = name) (deviceNetworkPorts d) with
  | port :: _ => (Some port, None)
  | [] => (None, Some ("Port " +:+ name +:+ " not found in device " +:+ deviceID d))
  end.

(** [fmt.Sprintf("%v", err)]. *)
Definition errorText (err : option error) : string := default "<nil>" err.

Section World.
(** The state of everything outside the adapter: the process
    environment, the file system, the shell manager with its
    environment and arguments, the execution manager's logs, the
    Packet REST service, the clock. *)
Variable W : Type.

(** [k8s.KubernetesValidator] and [k8s.ValidationFactory]. *)
Record KubernetesValidator := {
  WaitValid : W -> option error * W;
  Validate : W -> option error * W;
}.
Record ValidationFactory := {
  CreateValidator :
    ClusterProviderConfig -> string -> W ->
    (option KubernetesValidator * option error) * W;
}.

(** The calls that leave the adapter, each with its arguments, its
    results and the world it leaves.  [Join] is Go's [path.Join];
    [ParseScript], [ParseVariable] and [SubstituteVariable] are the
    functions of [utils], taken as given.  [GetArguments] lists the shell
    manager's arguments in the order a range over them meets them.  The
    lists of the REST service come with the text the adapter logs for the
    response ([ProjectsList] also with the text logged for each project).
    [waitDevicesStartup], which polls the service every ten seconds until
    the devices are up or the context is done, and assigns no field of the
    instance, is one call here; [Start], its only caller, has obtained
    the client before. *)
Record External := {
  Join : string -> string -> string;
  ParseScript : string -> option (list string);
  ParseVariable : string -> string * string * option error;
  SubstituteVariable :
    string -> gmap string string -> list (string * string) ->
    string * option error;
  Environ : W -> gmap string string;
  ClearFolder : string -> bool -> W -> W;
  ProcessEnvironment :
    string -> string -> string -> list string -> W -> option error * W;
  GetProcessedEnv : W -> list string;
  GetConfigLocation : W -> string;
  GetArguments : W -> list (string * string);
  AddExtraArgs : string -> string -> W -> W;
  RunCmd :
    string -> option (list string) -> list string -> W ->
    (string * option error) * W;
  AddLog : string -> string -> string -> W -> W;
  OpenFile : string -> string -> W -> option error * W;
  FileExists : string -> W -> bool;
  ReadFile : string -> W -> (list string * option error) * W;
  ExecRead : list string -> W -> (list string * option error) * W;
  NewRandomKeyID : W -> string * W;
  NewClient : W -> option error * W;
  ProjectsList : W -> (list (string * string) * string * option error) * W;
  SSHKeysCreate :
    string -> string -> string -> W ->
    (option (string * string) * option error) * W;
  SSHKeysList : W -> (list (string * string) * option error) * W;
  VirtualNetworksList : string -> W -> (list (string * Z) * option error) * W;
  HardwareReservationsList :
    string -> W -> (list HardwareReservation * string * option error) * W;
  FacilitiesList : W -> (list Facility * string * option error) * W;
  DevicesCreate : DeviceCreateRequest -> W -> (string * option error) * W;
  DevicesGet : string -> W -> (Device * option error) * W;
  PortsDisbond : string -> W -> option error * W;
  PortsAssign : string -> string -> W -> option error * W;
  waitDevicesStartup : gmap string string -> W -> option error * W;
}.
End World.

Arguments WaitValid {W} _ _.
Arguments Validate {W} _ _.
Arguments CreateValidator {W} _ _ _ _.

Module packetInstance.
Section Methods.
Variable W : Type.
Variable ext : External W.

(** [packetInstance].  [manager], [shellInterface] and the REST
    [client] are handles into the world; of [client] the instance
    records whether the pointer is set, since a call through a nil
    client panics: see [request].  [provider] is the pointer to the
    provider the instance shares with its siblings: see [state]. *)
Record t := {
  installScript : option (list string);
  setupScript : option (list string);
  startScript : option (list string);
  prepareScript : option (list string);
  stopScript : option (list string);
  root : string;
  id : string;
  configScript : string;
  factory : ValidationFactory W;
  validator : option (KubernetesValidator W);
  configLocation : string;
  projectID : string;
  packetAuthKey : string;
  keyID : string;
  config : ClusterProviderConfig;
  client : bool;
  project : option string;
  devices : gmap string string;
  sshKey : option (string * string);
  params : InstanceOptions;
  started : bool;
  keyIds : list string;
  virtualNetworkList : list (string * Z);
  hardwareReservationsList : list HardwareReservation;
  facilitiesList : list string;
}.

(** Assignments to the fields the methods write. *)
Definition set_validator (v : option (KubernetesValidator W)) (pi : t) : t :=
  {| installScript := installScript pi; setupScript := setupScript pi;
     startScript := startScript pi; prepareScript := prepareScript pi;
     stopScript := stopScript pi; root := root pi; id := id pi;
     configScript := configScript pi; factory := factory pi;
     validator := v; configLocation := configLocation pi;
     projectID := projectID pi; packetAuthKey := packetAuthKey pi;
     keyID := keyID pi; config := config pi; client := client pi;
     project := project pi; devices := devices pi; sshKey := sshKey pi;
     params := params pi; started := started pi; keyIds := keyIds pi;
     virtualNetworkList := virtualNetworkList pi;
     hardwareReservationsList := hardwareReservationsList pi;
     facilitiesList := facilitiesList pi |}.
Definition set_configLocation (v : string) (pi : t) : t :=
  {| installScript := installScript pi; setupScript := setupScript pi;
     startScript := startScript pi; prepareScript := prepareScript pi;
     stopScript := stopScript pi; root := root pi; id := id pi;
     configScript := configScript pi; factory := factory pi;
     validator := validator pi; configLocation := v;
     projectID := projectID pi; packetAuthKey := packetAuthKey pi;
     keyID := keyID pi; config := config pi; client := client pi;
     project := project pi; devices := devices pi; sshKey := sshKey pi;
     params := params pi; started := started pi; keyIds := keyIds pi;
     virtualNetworkList := virtualNetworkList pi;
     hardwareReservationsList := hardwareReservationsList pi;
     facilitiesList := facilitiesList pi |}.
Definition set_keyID (v : string) (pi : t) : t :=
  {| installScript := installScript pi; setupScript := setupScript pi;
     startScript := startScript pi; prepareScript := prepareScript pi;
     stopScript := stopScript pi; root := root pi; id := id pi;
     configScript := configScript pi; factory := factory pi;
     validator := validator pi; configLocation := configLocation pi;
     projectID := projectID pi; packetAuthKey := packetAuthKey pi;
     keyID := v; config := config pi; client := client pi;
     project := project pi; devices := devices pi; sshKey := sshKey pi;
     params := params pi; started := started pi; keyIds := keyIds pi;
     virtualNetworkList := virtualNetworkList pi;
     hardwareReservationsList := hardwareReservationsList pi;
     facilitiesList := facilitiesList pi |}.
Definition set_client (v : bool) (pi : t) : t :=
  {| installScript := installScript pi; setupScript := setupScript pi;
     startScript := startScript pi; prepareScript := prepareScript pi;
     stopScript := stopScript pi; root := root pi; id := id pi;
     configScript := configScript pi; factory := factory pi;
     validator := validator pi; configLocation := configLocation pi;
     projectID := projectID pi; packetAuthKey := packetAuthKey pi;
     keyID := keyID pi; config := config pi; client := v;
     project := project pi; devices := devices pi; sshKey := sshKey pi;
     params := params pi; started := started pi; keyIds := keyIds pi;
     virtualNetworkList := virtualNetworkList pi;
     hardwareReservationsList := hardwareReservationsList pi;
     facilitiesList := facilitiesList pi |}.
Definition set_project (v : option string) (pi : t) : t :=
  {| installScript := installScript pi; setupScript := setupScript pi;
     startScript := startScript pi; prepareScript := prepareScript pi;
     stopScript := stopScript pi; root := root pi; id := id pi;
     configScript := configScript pi; factory := factory pi;
     validator := validator pi; configLocation := configLocation pi;
     projectID := projectID pi; packetAuthKey := packetAuthKey pi;
     keyID := keyID pi; config := config pi; client := client pi;
     project := v; devices := devices pi; sshKey := sshKey pi;
     params := params pi; started := started pi; keyIds := keyIds pi;
     virtualNetworkList := virtualNetworkList pi;
     hardwareReservationsList := hardwareReservationsList pi;
     facilitiesList := facilitiesList pi |}.
Definition set_devices (v : gmap string string) (pi : t) : t :=
  {| installScript := installScript pi; setupScript := setupScript pi;
     startScript := startScript pi; prepareScript := prepareScript pi;
     stopScript := stopScript pi; root := root pi; id := id pi;
     configScript := configScript pi; factory := factory pi;
     validator := validator pi; configLocation := configLocation pi;
     projectID := projectID pi; packetAuthKey := packetAuthKey pi;
     keyID := keyID pi; config := config pi; client := client pi;
     project := project pi; devices := v; sshKey := sshKey pi;
     params := params pi; started := started pi; keyIds := keyIds pi;
     virtualNetworkList := virtualNetworkList pi;
     hardwareReservationsList := hardwareReservationsList pi;
     facilitiesList := facilitiesList pi |}.
Definition set_sshKey (v : option (string * string)) (pi : t) : t :=
  {| installScript := installScript pi; setupScript := setupScript pi;
     startScript := startScript pi; prepareScript := prepareScript pi;
     stopScript := stopScript pi; root := root pi; id := id pi;
     configScript := configScript pi; factory := factory pi;
     validator := validator pi; configLocation := configLocation pi;
     projectID := projectID pi; packetAuthKey := packetAuthKey pi;
     keyID := keyID pi; config := config pi; client := client pi;
     project := project pi; devices := devices pi; sshKey := v;
     params := params pi; started := started pi; keyIds := keyIds pi;
     virtualNetworkList := virtualNetworkList pi;
     hardwareReservationsList := hardwareReservationsList pi;
     facilitiesList := facilitiesList pi |}.
Definition set_started (v : bool) (pi : t) : t :=
  {| installScript := installScript pi; setupScript := setupScript pi;
     startScript := startScript pi; prepareScript := prepareScript pi;
     stopScript := stopScript pi; root := root pi; id := id pi;
     configScript := configScript pi; factory := factory pi;
     validator := validator pi; configLocation := configLocation pi;
     projectID := projectID pi; packetAuthKey := packetAuthKey pi;
     keyID := keyID pi; config := config pi; client := client pi;
     project := project pi; devices := devices pi; sshKey := sshKey pi;
     params := params pi; started := v; keyIds := keyIds pi;
     virtualNetworkList := virtualNetworkList pi;
     hardwareReservationsList := hardwareReservationsList pi;
     facilitiesList := facilitiesList pi |}.
Definition set_keyIds (v : list string) (pi : t) : t :=
  {| installScript := installScript pi; setupScript := setupScript pi;
     startScript := startScript pi; prepareScript := prepareScript pi;
     stopScript := stopScript pi; root := root pi; id := id pi;
     configScript := configScript pi; factory := factory pi;
     validator := validator pi; configLocation := configLocation pi;
     projectID := projectID pi; packetAuthKey := packetAuthKey pi;
     keyID := keyID pi; config := config pi; client := client pi;
     project := project pi; devices := devices pi; sshKey := sshKey pi;
     params := params pi; started := started pi; keyIds := v;
     virtualNetworkList := virtualNetworkList pi;
     hardwareReservationsList := hardwareReservationsList pi;
     facilitiesList := facilitiesList pi |}.
Definition set_virtualNetworkList (v : list (string * Z)) (pi : t) : t :=
  {| installScript := installScript pi; setupScript := setupScript pi;
     startScript := startScript pi; prepareScript := prepareScript pi;
     stopScript := stopScript pi; root := root pi; id := id pi;
     configScript := configScript pi; factory := factory pi;
     validator := validator pi; configLocation := configLocation pi;
     projectID := projectID pi; packetAuthKey := packetAuthKey pi;
     keyID := keyID pi; config := config pi; client := client pi;
     project := project pi; devices := devices pi; sshKey := sshKey pi;
     params := params pi; started := started pi; keyIds := keyIds pi;
     virtualNetworkList := v;
     hardwareReservationsList := hardwareReservationsList pi;
     facilitiesList := facilitiesList pi |}.
Definition set_hardwareReservationsList (v : list HardwareReservation) (pi : t) : t :=
  {| installScript := installScript pi; setupScript := setupScript pi;
     startScript := startScript pi; prepareScript := prepareScript pi;
     stopScript := stopScript pi; root := root pi; id := id pi;
     configScript := configScript pi; factory := factory pi;
     validator := validator pi; configLocation := configLocation pi;
     projectID := projectID pi; packetAuthKey := packetAuthKey pi;
     keyID := keyID pi; config := config pi; client := client pi;
     project := project pi; devices := devices pi; sshKey := sshKey pi;
     params := params pi; started := started pi; keyIds := keyIds pi;
     virtualNetworkList := virtualNetworkList pi;
     hardwareReservationsList := v; facilitiesList := facilitiesList pi |}.
Definition set_facilitiesList (v : list string) (pi : t) : t :=
  {| installScript := installScript pi; setupScript := setupScript pi;
     startScript := startScript pi; prepareScript := prepareScript pi;
     stopScript := stopScript pi; root := root pi; id := id pi;
     configScript := configScript pi; factory := factory pi;
     validator := validator pi; configLocation := configLocation pi;
     projectID := projectID pi; packetAuthKey := packetAuthKey pi;
     keyID := keyID pi; config := config pi; client := client pi;
     project := project pi; devices := devices pi; sshKey := sshKey pi;
     params := params pi; started := started pi; keyIds := keyIds pi;
     virtualNetworkList := virtualNetworkList pi;
     hardwareReservationsList := hardwareReservationsList pi;
     facilitiesList := v |}.

(** What a method runs on: the world, the provider [pi.provider]
    points to, and the instance itself. *)
Record state := {
  world : W;
  provider : packetProvider.t;
  self : t;
}.

Definition M (A : Type) : Type := state -> step A * state.

Definition ret {A} (a : A) : M A := fun s => (Next a, s).
Definition bind {A B} (m : M A) (k : A -> M B) : M B :=
  fun s =>
    match m s with
    | (Next a, s') => k a s'
    | (Return fileName err, s') => (Return fileName err, s')
    | (Panic msg, s') => (Panic msg, s')
    end.
Definition returns {A} (fileName : string) (err : option error) : M A :=
  fun s => (Return fileName err, s).
Definition panic {A} (msg : string) : M A := fun s => (Panic msg, s).

Definition this : M t := fun s => (Next (self s), s).
Definition assign (f : t -> t) : M unit :=
  fun s => (Next tt,
            {| world := world s; provider := provider s; self := f (self s) |}).
Definition call {A} (op : W -> A * W) : M A :=
  fun s => let '(a, w) := op (world s) in
           (Next a, {| world := w; provider := provider s; self := self s |}).
Definition effect (op : W -> W) : M unit :=
  fun s => (Next tt,
            {| world := op (world s); provider := provider s; self := self s |}).
Definition look {A} (op : W -> A) : M A := fun s => (Next (op (world s)), s).
(** A call through [pi.client]: the field is a pointer, nil until
    [Start] has obtained a client from [packngo.NewClient] and nil again
    when a later [NewClient] fails; the call dereferences it. *)
Definition request {A} (op : W -> A * W) : M A :=
  fun s =>
    if client (self s) then call op s
    else (Panic "invalid memory address or nil pointer dereference", s).

Notation "x <- c ;; k" := (bind c (fun x => k))
  (at level 100, c at next level, right associativity).
Notation "'let*' pat := c 'in' k" := (bind c (fun x => let pat := x in k))
  (at level 10, pat pattern, c at level 100, k at level 200).
Notation "c ;; k" := (bind c (fun _ => k))
  (at level 100, right associativity).

(** [if err = c; err != nil { return "", err }]. *)
Definition orFail (c : M (option error)) : M unit :=
  err <- c ;;
  match err with
  | Some e => returns "" (Some e)
  | None => ret tt
  end.
(** [if fileName, err = c; err != nil { return fileName, err }]. *)
Definition orFailWith (c : M (string * option error)) : M string :=
  let* (fileName, err) := c in
  match err with
  | Some e => returns fileName (Some e)
  | None => ret fileName
  end.

Definition GetID (pi : t) : string := id pi.
Definition IsRunning (pi : t) : bool := started pi.
Definition GetRoot (pi : t) : string := root pi.

Definition GetClusterConfig (pi : t) : string * option error :=
  if started pi then (configLocation pi, None)
  else ("", Some "cluster is not started yet").

Definition CheckIsAlive (s : state) : outcome (option error) * state :=
  if started (self s) then
    match validator (self s) with
    | Some v =>
      let '(err, w) := Validate v (world s) in
      (Returned err, {| world := w; provider := provider s; self := self s |})
    | None => (Panicked "invalid memory address or nil pointer dereference", s)
    end
  else (Returned (Some "cluster is not running"), s).

(** [Destroy] only logs. *)
Definition Destroy (timeout : Z) (s : state) : outcome (option error) * state :=
  (Returned None, s).

Definition doInstall : M (string * option error) :=
  fun s =>
    let pi := self s in
    let name := ProviderName (config pi) in
    if bool_decide (installScript pi <> None)
       && negb (default false (packetProvider.installDone (provider s) !! name))
    then
      call (RunCmd W ext "install" (installScript pi) [])
           {| world := world s;
              provider :=
                {| packetProvider.root := packetProvider.root (provider s);
                   packetProvider.indexes := packetProvider.indexes (provider s);
                   packetProvider.installDone :=
                     <[name := true]> (packetProvider.installDone (provider s)) |};
              self := pi |}
    else (Next ("", None), s).

Definition updateProject : M (option error) :=
  let* (ps, response, err) := request (ProjectsList W ext) in
  assign (fun pi =>
            set_project
              (foldl (fun found p =>
                        if bool_decide (fst p = projectID pi) then Some (fst p)
                        else found)
                     (project pi) ps) pi) ;;
  pi <- this ;;
  effect (AddLog W ext (id pi) "list-projects"
                 (response +:+ String.concat "" (snd <$> ps))) ;;
  match project pi with
  | None =>
    ret (Some (id pi +:+ " - specified project are not found on Packet "
               +:+ projectID pi))
  | Some _ => ret None
  end.

Definition findKeys : M (option (string * string) * list string) :=
  let* (sshKeys, _) := request (SSHKeysList W ext) in
  pi <- this ;;
  ret (foldl (fun found kk =>
                if bool_decide (snd kk = keyID pi) then Some kk else found)
             None sshKeys,
       fst <$> sshKeys).

(** An SSH key is its ID and its label. *)
Definition createKey (keyFile : string) : M (list string * option error) :=
  pi <- this ;;
  oerr <- call (OpenFile W ext (id pi) "create-key") ;;
  match oerr with
  | Some e => ret ([], Some e)
  | None =>
    genID <- call (NewRandomKeyID W ext) ;;
    assign (set_keyID ("dev-ci-cloud-" +:+ genID)) ;;
    let* (keyFileContent, rerr) := call (ReadFile W ext keyFile) in
    match rerr with
    | Some e => ret ([], Some e)
    | None =>
      pi <- this ;;
      match project pi with
      | None => panic "invalid memory address or nil pointer dereference"
      | Some projID =>
        let* (created, err) :=
           request (SSHKeysCreate W ext projID (keyID pi)
                               (String.concat nl keyFileContent)) in
        let* (sshKey, keyIds) :=
           match created with
           | None => findKeys
           | Some k => ret (Some k, [fst k])
           end in
        assign (set_sshKey sshKey) ;;
        match sshKey with
        | None => ret ([], err)
        | Some _ => ret (keyIds, None)
        end
      end
    end
  end.

Definition updateKUBEConfig : M (option error) :=
  pi <- this ;;
  (if bool_decide (configLocation pi = "")
   then loc <- look (GetConfigLocation W ext) ;; assign (set_configLocation loc)
   else ret tt) ;;
  pi <- this ;;
  if bool_decide (configLocation pi = "")
  then
    let* (output, _) := call (ExecRead W ext (GoStrings.Split (configScript pi) " ")) in
    match output with
    | [] => panic "index out of range [0] with length 0"
    | location :: _ => assign (set_configLocation location) ;; ret None
    end
  else ret None.

(** The loop of [createRequest] over the processed environment. *)
Fixpoint environmentLoop (finalEnv : list string) (environment : gmap string string)
  : gmap string string + error :=
  match finalEnv with
  | [] => inl environment
  | k :: rest =>
    let '(key, value, err) := ParseVariable W ext k in
    match err with
    | Some e => inr e
    | None => environmentLoop rest (<[key := value]> environment)
    end
  end.

Definition createRequest (devCfg : HardwareDeviceConfig)
  : M (option DeviceCreateRequest * option error) :=
  finalEnv <- look (GetProcessedEnv W ext) ;;
  match environmentLoop finalEnv ∅ with
  | inr e => ret (None, Some e)
  | inl environment =>
    arguments <- look (GetArguments W ext) ;;
    let '(hostName, err) :=
        SubstituteVariable W ext (HostName devCfg) environment arguments in
    match err with
    | Some e => ret (None, Some e)
    | None =>
      pi <- this ;;
      ret (Some {| reqHostname := hostName;
                   reqOS := OperatingSystem devCfg;
                   reqBillingCycle := BillingCycle devCfg;
                   reqProjectID := projectID pi;
                   reqProjectSSHKeys := keyIds pi;
                   reqPlan := ""; reqFacility := [];
                   reqHardwareReservationID := "" |}, None)
    end
  end.

(** The loop of [createHardwareDevice] over the hardware reservations. *)
Fixpoint reservationsLoop (name : string) (devReq : DeviceCreateRequest)
         (reservations : list HardwareReservation) : M (string * option error) :=
  match reservations with
  | [] => ret ("", Some "empty hardware reservations list")
  | hr :: rest =>
    let devReq :=
        {| reqHostname := reqHostname devReq; reqOS := reqOS devReq;
           reqBillingCycle := reqBillingCycle devReq;
           reqProjectID := reqProjectID devReq;
           reqProjectSSHKeys := reqProjectSSHKeys devReq;
           reqPlan := hrPlan hr; reqFacility := [hrFacility hr];
           reqHardwareReservationID := hrID hr |} in
    let* (device, err) := request (DevicesCreate W ext devReq) in
    pi <- this ;;
    effect (AddLog W ext (id pi) ("create-device-" +:+ name)
                   ("HostName=" +:+ reqHostname devReq +:+ nl +:+ errorText err)) ;;
    match err with
    | None => ret (device, None)
    | Some e =>
      if GoStrings.Contains e "is not provisionable" then
        reservationsLoop name devReq rest
      else if GoStrings.Contains e "Oh snap, something went wrong" then
        reservationsLoop name devReq rest
      else ret ("", Some e)
    end
  end.

Definition createHardwareDevice (devCfg : HardwareDeviceConfig)
  : M (string * option error) :=
  let* (devReq, err) := createRequest devCfg in
  match devReq, err with
  | Some devReq, None =>
    pi <- this ;;
    reservationsLoop (Name devCfg) devReq (hardwareReservationsList pi)
  | _, Some e => ret ("", Some e)
  | None, None => panic "invalid memory address or nil pointer dereference"
  end.

(** The loop of [createFacilityDevice] over the facilities. *)
Fixpoint facilitiesLoop (name : string) (devReq : DeviceCreateRequest)
         (facilities : list string) : M (string * option error) :=
  match facilities with
  | [] => ret ("", Some "empty facilities list")
  | facility :: rest =>
    let devReq :=
        {| reqHostname := reqHostname devReq; reqOS := reqOS devReq;
           reqBillingCycle := reqBillingCycle devReq;
           reqProjectID := reqProjectID devReq;
           reqProjectSSHKeys := reqProjectSSHKeys devReq;
           reqPlan := reqPlan devReq; reqFacility := [facility];
           reqHardwareReservationID := reqHardwareReservationID devReq |} in
    let* (device, err) := request (DevicesCreate W ext devReq) in
    pi <- this ;;
    effect (AddLog W ext (id pi) ("create-device-" +:+ name)
                   ("HostName=" +:+ reqHostname devReq +:+ nl +:+ errorText err)) ;;
    match err with
    | None => ret (device, None)
    | Some e =>
      if GoStrings.Contains e "has no provisionable" then
        facilitiesLoop name devReq rest
      else if GoStrings.Contains e "Oh snap, something went wrong" then
        facilitiesLoop name devReq rest
      else ret ("", Some e)
    end
  end.

Definition createFacilityDevice (devCfg : FacilityDeviceConfig)
  : M (string * option error) :=
  let* (devReq, err) := createRequest (HardwareDevice devCfg) in
  match devReq, err with
  | Some devReq, None =>
    let devReq :=
        {| reqHostname := reqHostname devReq; reqOS := reqOS devReq;
           reqBillingCycle := reqBillingCycle devReq;
           reqProjectID := reqProjectID devReq;
           reqProjectSSHKeys := reqProjectSSHKeys devReq;
           reqPlan := Plan devCfg; reqFacility := reqFacility devReq;
           reqHardwareReservationID := reqHardwareReservationID devReq |} in
    pi <- this ;;
    facilitiesLoop (Name (HardwareDevice devCfg)) devReq (facilitiesList pi)
  | _, Some e => ret ("", Some e)
  | None, None => panic "invalid memory address or nil pointer dereference"
  end.

Definition findVlan (pi : t) (vlanTag : Z) : option (string * Z) * option error :=
  match filter (fun vlan => snd vlan = vlanTag) (virtualNetworkList pi) with
  | vlan :: _ => (Some vlan, None)
  | [] => (None, Some ("vlan not found: " +:+ pretty vlanTag))
  end.

Definition findHardwareReservations
  : M (list HardwareReservation * option error) :=
  pi <- this ;;
  let* (hardwareReservations, response, err) :=
     request (HardwareReservationsList W ext (projectID pi)) in
  match err with
  | Some e =>
    effect (AddLog W ext (id pi) "list-hardware-reservations"
                   (response +:+ nl +:+ e +:+ nl)) ;;
    ret ([], Some e)
  | None =>
    match hardwareReservations, Packet (config pi) with
    | [], _ => ret ([], None)
    | _ :: _, None => panic "invalid memory address or nil pointer dereference"
    | _ :: _, Some pk =>
      ret (hr ← hardwareReservations;
           (fun _ => hr) <$> filter (fun hrr => hrr = hrID hr) (HardwareReservations pk),
           None)
    end
  end.

(** The facilities that have every feature the configuration asks for,
    the preferred one moved to the front. *)
Definition findFacilities : M (list string * option error) :=
  pi <- this ;;
  oerr <- call (OpenFile W ext (id pi) "list-facilities") ;;
  match oerr with
  | Some e => ret ([], Some e)
  | None =>
    let* (facilities, response, err) := request (FacilitiesList W ext) in
    match err, Packet (config pi) with
    | Some e, _ => ret ([], Some e)
    | None, None => panic "invalid memory address or nil pointer dereference"
    | None, Some pk =>
      let facilitiesList :=
          facilityCode <$>
            filter (fun f => Forall (fun ff => ff ∈ facilityFeatures f) (Facilities pk))
                   facilities in
      let ind :=
          if bool_decide (PreferredFacility pk <> "")
          then fst <$> list_find (fun f => f = PreferredFacility pk) facilitiesList
          else None in
      match ind with
      | Some ind =>
        match facilitiesList !! ind, facilitiesList !! 0%nat with
        | Some preferred, Some head =>
          ret (<[0%nat := preferred]> (<[ind := head]> facilitiesList), None)
        | _, _ => ret (facilitiesList, None)
        end
      | None => ret (facilitiesList, None)
      end
    end
  end.

(** The loop of [setupDevicePorts] over [portVLANs], a map, ranged over
    here in the order of the list. *)
Fixpoint portsLoop (key : string) (portVLANs : list (string * Z)) : M (option error) :=
  match portVLANs with
  | [] => ret None
  | (portName, vlanTag) :: rest =>
    pi <- this ;;
    let* (device, err) :=
       request (DevicesGet W ext (default "" (devices pi !! key))) in
    match err with
    | Some e => ret (Some e)
    | None =>
      match GetPortByName device portName with
      | (Some port, None) =>
        derr <- (if portBonded port then request (PortsDisbond W ext (portID port))
                 else ret None) ;;
        match derr with
        | Some e => ret (Some e)
        | None =>
          match findVlan pi vlanTag with
          | (Some vlan, None) =>
            aerr <- request (PortsAssign W ext (portID port) (fst vlan)) ;;
            match aerr with
            | Some e => ret (Some e)
            | None => portsLoop key rest
            end
          | (_, err) => ret err
          end
        end
      | (_, err) => ret err
      end
    end
  end.

Definition setupDevicePorts (key : string) (portVLANs : list (string * Z))
  : M (option error) :=
  pi <- this ;;
  oerr <- call (OpenFile W ext (id pi) "setup-device-network") ;;
  match oerr with
  | Some e => ret (Some e)
  | None => portsLoop key portVLANs
  end.

(** The inner loop of [addDeviceContextArguments] over [dev.Network]. *)
Fixpoint networkLoop (key : string) (network : list IPAddressAssignment) : M unit :=
  match network with
  | [] => ret tt
  | n :: rest =>
    let pub := if negb (ipPublic n) then "private" else "pub" in
    let name kind :=
        "device." +:+ key +:+ "." +:+ pub +:+ "." +:+ kind +:+ "."
        +:+ pretty (ipAddressFamily n) in
    effect (AddExtraArgs W ext (name "ip") (ipAddress n)) ;;
    effect (AddExtraArgs W ext (name "gw") (ipGateway n)) ;;
    effect (AddExtraArgs W ext (name "net") (ipNetwork n)) ;;
    networkLoop key rest
  end.

(** The loop of [addDeviceContextArguments] over [pi.devices], a map,
    ranged over here in the order of the list. *)
Fixpoint devicesLoop (entries : list (string * string)) : M (option error) :=
  match entries with
  | [] => ret None
  | (key, devID) :: rest =>
    let* (dev, err) := request (DevicesGet W ext devID) in
    match err with
    | Some e =>
      ret (Some ("failed to fetch device networks info: " +:+ key +:+ ": " +:+ e))
    | None => networkLoop key (deviceNetwork dev) ;; devicesLoop rest
    end
  end.

Definition addDeviceContextArguments : M (option error) :=
  pi <- this ;;
  devicesLoop (map_to_list (devices pi)).

(** The loop of [Start] over [config.Packet.HardwareDevices]. *)
Fixpoint hardwareDevicesLoop (devs : list HardwareDeviceConfig)
         (portsVLANs : gmap string (list (string * Z)))
  : M (gmap string (list (string * Z))) :=
  match devs with
  | [] => ret portsVLANs
  | devCfg :: rest =>
    let* (devID, err) := createHardwareDevice devCfg in
    match err with
    | Some e => returns "" (Some e)
    | None =>
      assign (fun pi => set_devices (<[Name devCfg := devID]> (devices pi)) pi) ;;
      hardwareDevicesLoop rest
        match PortVLANs devCfg with
        | Some vlans => <[Name devCfg := vlans]> portsVLANs
        | None => portsVLANs
        end
    end
  end.

(** The loop of [Start] over [config.Packet.Devices]. *)
Fixpoint facilityDevicesLoop (devs : list FacilityDeviceConfig)
         (portsVLANs : gmap string (list (string * Z)))
  : M (gmap string (list (string * Z))) :=
  match devs with
  | [] => ret portsVLANs
  | devCfg :: rest =>
    let* (devID, err) := createFacilityDevice devCfg in
    match err with
    | Some e => returns "" (Some e)
    | None =>
      let name := Name (HardwareDevice devCfg) in
      assign (fun pi => set_devices (<[name := devID]> (devices pi)) pi) ;;
      facilityDevicesLoop rest
        match PortVLANs (HardwareDevice devCfg) with
        | Some vlans =>
          if bool_decide (length vlans <> 0%nat)
          then <[name := vlans]> portsVLANs else portsVLANs
        | None => portsVLANs
        end
    end
  end.

(** The loop of [Start] over [portsVLANs]; Go ranges over a map in no
    fixed order, here in the order of [map_to_list]. *)
Fixpoint setupPortsLoop (entries : list (string * list (string * Z))) : M unit :=
  match entries with
  | [] => ret tt
  | (key, portVLANs) :: rest =>
    orFail (setupDevicePorts key portVLANs) ;;
    setupPortsLoop rest
  end.

(** [pi.shellInterface], made by [shell.NewManager] from the instance's
    id, configuration and options, as the printers read it in [w]. *)
Definition shellInterface (pi : t) (w : W) : shell.shellInterface :=
  {| shell.id := id pi; shell.config := config pi;
     shell.params := params pi; shell.environ := Environ W ext w |}.

(** [Start]: every path ends in a [return]. *)
Definition Start (timeout : Z) : M Empty_set :=
  pi <- this ;;
  effect (ClearFolder W ext (root pi) true) ;;
  orFail (call (ProcessEnvironment W ext (id pi) (ProviderName (config pi))
                                   (root pi) (Env (config pi)))) ;;
  (if negb (NoInstall (params pi))
   then orFailWith doInstall ;; ret tt
   else ret tt) ;;
  orFailWith (call (RunCmd W ext "setup" (setupScript pi) [])) ;;
  match Packet (config pi) with
  | None => panic "invalid memory address or nil pointer dereference"
  | Some pk =>
    found1 <- look (FileExists W ext (SSHKey pk)) ;;
    keyFile <-
      (if found1 : bool then ret (SSHKey pk)
       else
         let keyFile := Join W ext (root pi) (SSHKey pk) in
         found2 <- look (FileExists W ext keyFile) ;;
         if found2 : bool then ret keyFile
         else returns "" (Some "failed to locate generated key file, please specify init script to generate it")) ;;
    cerr <- call (NewClient W ext) ;;
    assign (set_client (bool_decide (cerr = None))) ;;
    orFail (ret cerr) ;;
    orFail updateProject ;;
    let* (ids, kerr) := createKey keyFile in
    assign (set_keyIds ids) ;;
    orFail (ret kerr) ;;
    let* (virtualNetworks, verr) := request (VirtualNetworksList W ext (projectID pi)) in
    orFail (ret verr) ;;
    assign (set_virtualNetworkList virtualNetworks) ;;
    let* (reservations, herr) := findHardwareReservations in
    assign (set_hardwareReservationsList reservations) ;;
    orFail (ret herr) ;;
    portsVLANs <- hardwareDevicesLoop (HardwareDevices pk) ∅ ;;
    let* (facilities, ferr) := findFacilities in
    assign (set_facilitiesList facilities) ;;
    orFail (ret ferr) ;;
    portsVLANs <- facilityDevicesLoop (Devices pk) portsVLANs ;;
    pi <- this ;;
    orFail (call (waitDevicesStartup W ext (devices pi))) ;;
    setupPortsLoop (map_to_list portsVLANs) ;;
    orFail addDeviceContextArguments ;;
    effect (fun w => AddLog W ext (id pi) "environment"
                            (shell.PrintEnv (ParseVariable W ext)
                                            (shellInterface pi w)
                                            (GetProcessedEnv W ext w)) w) ;;
    effect (fun w => AddLog W ext (id pi) "arguments"
                            (shell.PrintArgs (shellInterface pi w)
                                             (GetArguments W ext w)) w) ;;
    orFailWith (call (RunCmd W ext "start" (startScript pi) [])) ;;
    orFail updateKUBEConfig ;;
    pi <- this ;;
    let* (created, verr) :=
       call (CreateValidator (factory pi) (config pi) (configLocation pi)) in
    assign (set_validator created) ;;
    orFail (ret verr) ;;
    fileName <-
      orFailWith (call (RunCmd W ext "prepare" (prepareScript pi)
                               ["KUBECONFIG=" +:+ configLocation pi])) ;;
    match created with
    | None => panic "invalid memory address or nil pointer dereference"
    | Some v =>
      werr <- call (WaitValid v) ;;
      match werr with
      | Some e => returns fileName (Some e)
      | None => assign (set_started true) ;; returns "" None
      end
    end
  end.

(** A call of a method from outside. *)
Definition run (m : M Empty_set) (s : state)
  : outcome (string * option error) * state :=
  match m s with
  | (Next a, _) => match a with end
  | (Return fileName err, s') => (Returned (fileName, err), s')
  | (Panic msg, s') => (Panicked msg, s')
  end.

(** The methods of [providers.ClusterInstance]. *)
Inductive method : Type :=
| mStart (timeout : Z)
| mDestroy (timeout : Z)
| mCheckIsAlive
| mGetClusterConfig
| mIsRunning
| mGetID
| mGetRoot.

(** The state a call leaves behind. *)
Definition invoke (m : method) (s : state) : state :=
  match m with
  | mStart timeout => snd (run (Start timeout) s)
  | mDestroy timeout => snd (Destroy timeout s)
  | mCheckIsAlive => snd (CheckIsAlive s)
  | mGetClusterConfig | mIsRunning | mGetID | mGetRoot => s
  end.

Definition invokeAll (ms : list method) (s : state) : state :=
  foldl (fun s m => invoke m s) s ms.

End Methods.
End packetInstance.

Arguments packetInstance.t W : clear implicits.
Arguments packetInstance.state W : clear implicits.
Arguments packetInstance.M W A : clear implicits.
Arguments packetInstance.id {W}.
Arguments packetInstance.root {W}.
Arguments packetInstance.config {W}.
Arguments packetInstance.params {W}.
Arguments packetInstance.factory {W}.
Arguments packetInstance.validator {W}.
Arguments packetInstance.configLocation {W}.
Arguments packetInstance.configScript {W}.
Arguments packetInstance.started {W}.
Arguments packetInstance.devices {W}.
Arguments packetInstance.projectID {W}.
Arguments packetInstance.packetAuthKey {W}.
Arguments packetInstance.set_client {W}.
Arguments packetInstance.set_project {W}.
Arguments packetInstance.set_keyID {W}.
Arguments packetInstance.set_sshKey {W}.
Arguments packetInstance.set_keyIds {W}.
Arguments packetInstance.set_virtualNetworkList {W}.
Arguments packetInstance.set_hardwareReservationsList {W}.
Arguments packetInstance.set_facilitiesList {W}.
Arguments packetInstance.set_devices {W}.
Arguments packetInstance.set_started {W}.
Arguments packetInstance.set_configLocation {W}.
Arguments packetInstance.set_validator {W}.
Arguments packetInstance.world {W}.
Arguments packetInstance.provider {W}.
Arguments packetInstance.self {W}.
Arguments packetInstance.Build_state {W}.
Arguments packetInstance.ret {W A}.
Arguments packetInstance.bind {W A B}.
Arguments packetInstance.returns {W A}.
Arguments packetInstance.panic {W A}.
Arguments packetInstance.this {W}.
Arguments packetInstance.assign {W}.
Arguments packetInstance.call {W A}.
Arguments packetInstance.effect {W}.
Arguments packetInstance.look {W A}.
Arguments packetInstance.request {W A}.
Arguments packetInstance.orFail {W}.
Arguments packetInstance.orFailWith {W}.
Arguments packetInstance.updateProject {W}.
Arguments packetInstance.findKeys {W}.
Arguments packetInstance.createKey {W}.
Arguments packetInstance.environmentLoop {W}.
Arguments packetInstance.createRequest {W}.
Arguments packetInstance.reservationsLoop {W}.
Arguments packetInstance.createHardwareDevice {W}.
Arguments packetInstance.facilitiesLoop {W}.
Arguments packetInstance.createFacilityDevice {W}.
Arguments packetInstance.findVlan {W}.
Arguments packetInstance.findHardwareReservations {W}.
Arguments packetInstance.findFacilities {W}.
Arguments packetInstance.portsLoop {W}.
Arguments packetInstance.setupDevicePorts {W}.
Arguments packetInstance.networkLoop {W}.
Arguments packetInstance.devicesLoop {W}.
Arguments packetInstance.addDeviceContextArguments {W}.
Arguments packetInstance.hardwareDevicesLoop {W}.
Arguments packetInstance.facilityDevicesLoop {W}.
Arguments packetInstance.setupPortsLoop {W}.
Arguments packetInstance.GetID {W}.
Arguments packetInstance.IsRunning {W}.
Arguments packetInstance.GetRoot {W}.
Arguments packetInstance.GetClusterConfig {W}.
Arguments packetInstance.CheckIsAlive {W}.
Arguments packetInstance.Destroy {W}.
Arguments packetInstance.updateKUBEConfig {W}.
Arguments packetInstance.doInstall {W}.
Arguments packetInstance.Start {W}.
Arguments packetInstance.run {W}.
Arguments packetInstance.invoke {W}.
Arguments packetInstance.invokeAll {W}.

(** [CreateCluster]: [w] is the world at the call, read by [os.Getenv]. *)
Definition CreateCluster {W : Type} (ext : External W) (w : W)
           (p : packetProvider.t) (cfg : ClusterProviderConfig)
           (factory : ValidationFactory W) (instanceOptions : InstanceOptions)
  : (option (packetInstance.t W) * option error) * packetProvider.t :=
  match packetProvider.ValidateConfig (Environ W ext w) cfg with
  | Some err => ((None, Some err), p)
  | None =>
    let '(ordinal, p') := packetProvider.getProviderID p (ProviderName cfg) in
    let id := ProviderName cfg +:+ "-" +:+ ordinal in
    let root := Join W ext (packetProvider.root p) id in
    ((Some {| packetInstance.installScript := ParseScript W ext (script cfg installScript);
              packetInstance.setupScript := ParseScript W ext (script cfg setupScript);
              packetInstance.startScript := ParseScript W ext (script cfg startScript);
              packetInstance.prepareScript := ParseScript W ext (script cfg prepareScript);
              packetInstance.stopScript := ParseScript W ext (script cfg stopScript);
              packetInstance.root := root;
              packetInstance.id := id;
              packetInstance.configScript := script cfg configScript;
              packetInstance.factory := factory;
              packetInstance.validator := None;
              packetInstance.configLocation := "";
              packetInstance.projectID := Getenv (Environ W ext w) packetProjectID;
              packetInstance.packetAuthKey := Getenv (Environ W ext w) "PACKET_AUTH_TOKEN";
              packetInstance.keyID := "";
              packetInstance.config := cfg;
              packetInstance.client := false;
              packetInstance.project := None;
              packetInstance.devices := ∅;
              packetInstance.sshKey := None;
              packetInstance.params := instanceOptions;
              packetInstance.started := false;
              packetInstance.keyIds := [];
              packetInstance.virtualNetworkList := [];
              packetInstance.hardwareReservationsList := [];
              packetInstance.facilitiesList := [] |},
      None), p')
  end.

(** A run of [CreateCluster] calls on one provider, each with the world
    it is made in: the results in the order of the calls, and the
    provider afterwards. *)
Fixpoint createClusters {W : Type} (ext : External W) (p : packetProvider.t)
         (calls : list (W * ClusterProviderConfig * ValidationFactory W
                        * InstanceOptions))
  : list (option (packetInstance.t W) * option error) * packetProvider.t :=
  match calls with
  | [] => ([], p)
  | (w, cfg, factory, options) :: rest =>
    let '(r, p') := CreateCluster ext w p cfg factory options in
    let '(rs, p'') := createClusters ext p' rest in
    (r :: rs, p'')
  end.

End packet.

(** ** pkg/tests/test_validator.go *)
Module tests.
Import packet.

(** [testValidator]: both checks pass. *)
Definition testValidator {W : Type} (location : string)
           (config : config.ClusterProviderConfig) : KubernetesValidator W :=
  {| WaitValid := fun w => (None, w);
     Validate := fun w => (None, w) |}.

Definition TestValidationFactory {W : Type} : ValidationFactory W :=
  {| CreateValidator := fun config location w =>
                          ((Some (testValidator location config), None), w) |}.

End tests.

(** ** pkg/commands: the engine

    Of this package the sources hold two tests and the health checks;
    [startCluster], [destroyCluster], [updateTestExecution] and the event
    loop are not among them.  The test of the cluster states is embedded
    as it is written, over the functions it calls; [startCluster] and
    [destroyCluster] are modelled from the specification.  The task
    bookkeeping is left out: the specification describes the update of a
    task without saying what it does to a task that is already terminal,
    and the test of it reads the completed tasks after one update only. *)
Module commands.

(** Modelled from the spec: the type of the instance's atomic state
    variable, declared outside the sources; section 3 lists the states,
    and the tests name four of them. *)
Inductive clusterState : Type :=
| clusterNotStarted
| clusterStarting
| clusterReady
| clusterBusy
| clusterStopping
| clusterCrashed
| clusterDestroyed.

Global Instance clusterState_eq_dec : EqDecision clusterState.
Proof. solve_decision. Defined.

(** Modelled from the spec: the cause carried by [ClusterCrashed]
    (section 4.1: startup; liveness), declared outside the sources. *)
Inductive crashCause : Type := startup | liveness.

(** Modelled from the spec: [model.Status], declared outside the sources;
    section 3 lists the statuses. *)
Inductive Status : Type :=
| StatusPending
| StatusInProgress
| StatusSuccess
| StatusFailed
| StatusTimeout
| StatusSkipped
| StatusRerunRequired.

Global Instance Status_eq_dec : EqDecision Status.
Proof. solve_decision. Defined.

(** Modelled from the spec: [OperationEvent] of section 3, declared
    outside the sources; instances and tasks are given by name. *)
Inductive OperationEvent : Type :=
| TaskFinished (task : string) (outcome : Status) (logFile : string)
| ClusterReady (instance : string)
| ClusterCrashed (instance : string) (cause : crashCause)
| ClusterDestroyed (instance : string).

(** Modelled from the spec: [clusterInstance], declared outside the
    sources, with the fields of section 3; [startCancelled] records that
    the context of the provisioning task was cancelled. *)
Record clusterInstance := {
  ID : string;
  state : clusterState;
  ConfigLocation : string;
  RetriesRemaining : Z;
  TaskInFlight : option string;
  startCancelled : bool;
}.

(** [inst.state.store(v)] and [inst.state.load()]. *)
Definition store (v : clusterState) (inst : clusterInstance) : clusterInstance :=
  {| ID := ID inst; state := v; ConfigLocation := ConfigLocation inst;
     RetriesRemaining := RetriesRemaining inst;
     TaskInFlight := TaskInFlight inst; startCancelled := startCancelled inst |}.
Definition load (inst : clusterInstance) : clusterState := state inst.

(** Modelled from the spec: the instance [createClusters], which is not
    among the sources, makes for a provider: named
    [<provider-name>-<ordinal>] and not started (sections 3 and 4.2). *)
Definition newInstance (provider : string) (ordinal : Z) (retries : Z)
  : clusterInstance :=
  {| ID := provider +:+ "-" +:+ pretty ordinal; state := clusterNotStarted;
     ConfigLocation := ""; RetriesRemaining := retries;
     TaskInFlight := None; startCancelled := false |}.

(** Modelled from the spec: the first provisioning row of the transition
    table of section 4.1, for [startCluster], which is not among the
    sources: [NotStarted -schedulerDemand-> Starting]. *)
Definition schedulerDemand (inst : clusterInstance) : clusterInstance :=
  match state inst with
  | clusterNotStarted => store clusterStarting inst
  | _ => inst
  end.
(** Modelled from the spec: the rows of the same table for the end of
    the provisioning.  The provider's [Start] runs the start script;
    [Starting -provisionOK-> Ready] publishes [ConfigLocation] and emits
    [ClusterReady], [Starting -provisionFail-> Crashed] emits
    [ClusterCrashed(cause=startup)].  [exit] is the exit status of the
    start script and [location] the path the provider reports. *)
Definition provisioned (exit : Z) (location : string) (inst : clusterInstance)
  : clusterInstance * list OperationEvent :=
  match state inst with
  | clusterStarting =>
    if bool_decide (exit = 0)
    then ({| ID := ID inst; state := clusterReady; ConfigLocation := location;
             RetriesRemaining := RetriesRemaining inst;
             TaskInFlight := TaskInFlight inst;
             startCancelled := startCancelled inst |},
          [ClusterReady (ID inst)])
    else (store clusterCrashed inst, [ClusterCrashed (ID inst) startup])
  | _ => (inst, [])
  end.
(** Modelled from the spec: [startCluster], which is not among the
    sources, as the two steps above. *)
Definition startCluster (exit : Z) (location : string) (inst : clusterInstance)
  : clusterInstance * list OperationEvent :=
  provisioned exit location (schedulerDemand inst).

(** Modelled from the spec: [destroyCluster], which is not among the
    sources, as section 4.1 words it: "invoking it on Stopping or
    Destroyed has no effect; invoking it from Starting causes the
    in-flight provisioner's context to be cancelled and the state set to
    Crashed"; from the other states the orderly teardown
    [Stopping -destroyOK-> Destroyed], which emits [ClusterDestroyed]
    when [sendCompletion] is set. *)
Definition destroyCluster_spec (inst : clusterInstance)
           (sendCompletion recycle : bool)
  : option error * clusterInstance * list OperationEvent :=
  match state inst with
  | clusterStopping | clusterDestroyed => (None, inst, [])
  | clusterStarting =>
    (None,
     {| ID := ID inst; state := clusterCrashed;
        ConfigLocation := ConfigLocation inst;
        RetriesRemaining := RetriesRemaining inst;
        TaskInFlight := TaskInFlight inst; startCancelled := true |},
     [])
  | _ =>
    (None, store clusterDestroyed inst,
     if sendCompletion then [ClusterDestroyed (ID inst)] else [])
  end.

(** The type of [ctx.destroyCluster(inst, sendUpdate, fork)] as the test
    uses it: the error and the instance afterwards. *)
Definition destroyer : Type :=
  clusterInstance -> bool -> bool -> option error * clusterInstance.

(** [TestClusterInstanceStates], lines 88-98: [inst] is
    [ctx.clusters[0].instances[0]] as line 86 leaves it; the result
    says whether every [require] holds. *)
Definition TestClusterInstanceStates_destroy (destroyCluster : destroyer)
           (inst : clusterInstance) : bool :=
  let inst := store clusterStarting inst in
  let '(err, inst) := destroyCluster inst false false in
  bool_decide (err = None)
  && bool_decide (load inst = clusterStarting)
  && let inst := store clusterStopping inst in
     let '(err, inst) := destroyCluster inst false false in
     bool_decide (err = None)
     && bool_decide (load inst = clusterCrashed).

(** [TestClusterInstanceStates], lines 42-86: the instances of
    [a_provider] (start script [echo starting], exit status 0) and
    [b_provider] (start script [echo starting; exit 2], exit status 2)
    are started; the result says whether the states awaited at lines
    78-86 are reached. *)
Definition TestClusterInstanceStates_start
           (startCluster : Z -> string -> clusterInstance ->
                           clusterInstance * list OperationEvent) : bool :=
  let a := fst (startCluster 0 "./.tests/config" (newInstance "a_provider" 1 1)) in
  let b := fst (startCluster 2 "./.tests/config" (newInstance "b_provider" 1 1)) in
  bool_decide (load a = clusterReady) && bool_decide (load b = clusterCrashed).

(** [destroyCluster_spec] as a [destroyer]. *)
Definition destroyCluster_spec_run : destroyer :=
  fun inst sendCompletion recycle =>
    let '(err, inst', _) := destroyCluster_spec inst sendCompletion recycle in
    (err, inst').

End commands.

(** ** The notions the statements use *)

(** The secrets the masking is sure to remove: not empty, and without the
    byte the mask is made of. *)
Definition maskable (secret : string) : Prop :=
  secret <> "" /\ "*"%char ∉ GoStrings.bytes secret.

(** The secrets that cannot straddle the [=] or the line feed of a printed
    line. *)
Definition plain (secret : string) : Prop :=
  ("="%char ∉ GoStrings.bytes secret)
  /\ (ascii_of_nat 10 ∉ GoStrings.bytes secret).

(** The configurations [ValidateConfig] accepts in the environment
    [environ]. *)
Definition accepted (environ : gmap string string)
           (cfg : config.ClusterProviderConfig) : Prop :=
  exists pk,
    config.Packet cfg = Some pk
    /\ (config.HardwareDevices pk <> [] \/ config.Devices pk <> [])
    /\ (config.HardwareDevices pk <> [] -> config.HardwareReservations pk <> [])
    /\ (config.Devices pk <> [] -> config.Facilities pk <> [])
    /\ (is_Some (config.Scripts cfg !! packet.configScript)
        \/ exists e, e ∈ config.Env cfg /\ GoStrings.HasPrefix e "KUBECONFIG=" = true)
    /\ is_Some (config.Scripts cfg !! packet.startScript)
    /\ (forall envVar, envVar ∈ config.EnvCheck cfg -> Getenv environ envVar <> "")
    /\ Getenv environ "PACKET_AUTH_TOKEN" <> ""
    /\ Getenv environ "PACKET_PROJECT_ID" <> "".

(** The IDs of the instances a run of [CreateCluster] calls made for the
    provider configurations named [P], in the order of the calls. *)
Definition createdFor {W : Type} (P : string)
           (rs : list (option (packet.packetInstance.t W) * option error))
  : list string :=
  omap (fun r => match fst r with
                 | Some pi =>
                   if bool_decide (config.ProviderName (packet.packetInstance.config pi) = P)
                   then Some (packet.packetInstance.id pi) else None
                 | None => None
                 end) rs.

(** How many calls of a run are for a configuration named [P] that
    [ValidateConfig] accepts in the environment of the call. *)
Fixpoint acceptedFor {W : Type} (ext : packet.External W) (P : string)
         (calls : list (W * config.ClusterProviderConfig
                        * packet.ValidationFactory W * providers.InstanceOptions))
  : nat :=
  match calls with
  | [] => 0%nat
  | (w, cfg, _, _) :: calls =>
    ((if bool_decide (packet.packetProvider.ValidateConfig (packet.Environ W ext w) cfg
                      = None)
         && bool_decide (config.ProviderName cfg = P)
      then 1 else 0)
     + acceptedFor ext P calls)%nat
  end.

(** What [CreateCluster] answers to the call [call]: the error of
    [ValidateConfig] and no instance, or an instance of the call's
    configuration and no error. *)
Definition answered {W : Type} (ext : packet.External W)
           (call : W * config.ClusterProviderConfig
                   * packet.ValidationFactory W * providers.InstanceOptions)
           (r : option (packet.packetInstance.t W) * option error) : Prop :=
  match packet.packetProvider.ValidateConfig (packet.Environ W ext call.1.1.1)
                                             call.1.1.2 with
  | Some err => r = (None, Some err)
  | None => exists pi, r = (Some pi, None)
                       /\ packet.packetInstance.config pi = call.1.1.2
  end.

(** The ordinal last given out for [P]. *)
Definition lastOrdinal (p : packet.packetProvider.t) (P : string) : Z :=
  default 0 (packet.packetProvider.indexes p !! P).

(** The ordinals given out so far lie between [1] and [N]. *)
Definition ordinalsWithin (p : packet.packetProvider.t) (N : Z) : Prop :=
  forall P v, packet.packetProvider.indexes p !! P = Some v -> 1 <= v <= N.

(** A method body [m] started on an instance that satisfies [P]: the
    instance satisfies [Q a] when [m] goes on with [a], [R fileName err]
    when it returns, [X] when it panics. *)
Definition hoare {W A : Type}
           (R : string -> option error -> packet.packetInstance.t W -> Prop)
           (X : packet.packetInstance.t W -> Prop)
           (P : packet.packetInstance.t W -> Prop)
           (m : packet.packetInstance.M W A)
           (Q : A -> packet.packetInstance.t W -> Prop) : Prop :=
  forall s, P (packet.packetInstance.self s) ->
    match m s with
    | (packet.Next a, s') => Q a (packet.packetInstance.self s')
    | (packet.Return fileName err, s') => R fileName err (packet.packetInstance.self s')
    | (packet.Panic _, s') => X (packet.packetInstance.self s')
    end.

(** [P] does not depend on the fields [Start] assigns outside
    [updateKUBEConfig] and before it marks the instance started. *)
Definition keeps {W : Type} (P : packet.packetInstance.t W -> Prop) : Prop :=
  (forall v pi, P pi -> P (packet.packetInstance.set_client v pi))
  /\ (forall v pi, P pi -> P (packet.packetInstance.set_project v pi))
  /\ (forall v pi, P pi -> P (packet.packetInstance.set_keyID v pi))
  /\ (forall v pi, P pi -> P (packet.packetInstance.set_sshKey v pi))
  /\ (forall v pi, P pi -> P (packet.packetInstance.set_keyIds v pi))
  /\ (forall v pi, P pi -> P (packet.packetInstance.set_virtualNetworkList v pi))
  /\ (forall v pi, P pi -> P (packet.packetInstance.set_hardwareReservationsList v pi))
  /\ (forall v pi, P pi -> P (packet.packetInstance.set_facilitiesList v pi))
  /\ (forall v pi, P pi -> P (packet.packetInstance.set_devices v pi))
  /\ (forall v pi, P pi -> P (packet.packetInstance.set_validator v pi)).

(** [Start timeout] returned a nil error from [s]. *)
Definition startsFrom {W : Type} (ext : packet.External W) (timeout : Z)
           (s : packet.packetInstance.state W) : Prop :=
  exists fileName,
    (packet.packetInstance.run (packet.packetInstance.Start ext timeout) s).1
    = packet.Returned (fileName, None).

(** ** Concrete configurations and worlds, for the examples *)
Module sample.
Import config providers packet.

Definition device : HardwareDeviceConfig :=
  {| Name := "master"; HostName := "ci-master";
     OperatingSystem := "ubuntu_18_04"; BillingCycle := "hourly";
     PortVLANs := None |}.

Definition packetConfig : PacketConfig :=
  {| SSHKey := "id_rsa.pub"; HardwareDevices := [];
     Devices := [ {| HardwareDevice := device; Plan := "t1.small.x86" |} ];
     HardwareReservations := []; Facilities := ["baremetal"];
     PreferredFacility := "" |}.

(** A packet provider configuration named [name] that checks [envCheck]. *)
Definition providerConfig (name : string) (envCheck : list string)
  : ClusterProviderConfig :=
  {| ProviderName := name; Kind := "packet"; Timeout := 1800; Instances := 2;
     NodeCount := 2; RetryCount := 1;
     Scripts := <[ "config" := "echo /tmp/kubeconfig" ]>
                  (<[ "start" := "make packet-start" ]> ∅);
     Env := []; EnvCheck := envCheck; Enabled := true;
     Packet := Some packetConfig |}.

Definition options : InstanceOptions :=
  {| NoInstall := false; NoMaskParameters := false |}.

(** An environment with both Packet variables set. *)
Definition environment : gmap string string :=
  <[ "PACKET_AUTH_TOKEN" := "t0k3n" ]> (<[ "PACKET_PROJECT_ID" := "project-1" ]> ∅).

(** A world that is its process environment: every script succeeds but
    that of the operation [broken], the Packet service knows the project
    [project-1] and grants every device, and the REST client is refused
    when [PACKET_AUTH_TOKEN] is not set. *)
Definition world (broken : string) : External (gmap string string) :=
  {| Join := fun dir file => dir +:+ "/" +:+ file;
     ParseScript := fun s => Some [s];
     ParseVariable := shell.parseAtEquals;
     SubstituteVariable := fun text _ _ => (text, None);
     Environ := fun w => w;
     ClearFolder := fun _ _ w => w;
     ProcessEnvironment := fun _ _ _ _ w => (None, w);
     GetProcessedEnv := fun _ => [];
     GetConfigLocation := fun _ => "";
     GetArguments := fun _ => [];
     AddExtraArgs := fun _ _ w => w;
     RunCmd := fun operation _ _ w =>
       ((operation +:+ ".log",
         if bool_decide (operation = broken) then Some "exit status 1" else None),
        w);
     AddLog := fun _ _ _ w => w;
     OpenFile := fun _ _ w => (None, w);
     FileExists := fun _ _ => true;
     ReadFile := fun _ w => ((["ssh-rsa AAAA"], None), w);
     ExecRead := fun _ w => ((["/tmp/kubeconfig"], None), w);
     NewRandomKeyID := fun w => ("2021-3-1-abcdefghij", w);
     NewClient := fun w =>
       (if bool_decide (Getenv w "PACKET_AUTH_TOKEN" = "")
        then Some "you must export PACKET_AUTH_TOKEN" else None, w);
     ProjectsList := fun w => (([("project-1", "Project: ci")], "", None), w);
     SSHKeysCreate := fun _ label _ w => ((Some ("key-1", label), None), w);
     SSHKeysList := fun w => (([], None), w);
     VirtualNetworksList := fun _ w => (([], None), w);
     HardwareReservationsList := fun _ w => (([], "", None), w);
     FacilitiesList := fun w =>
       (([ {| facilityCode := "ewr1"; facilityFeatures := ["baremetal"; "layer_2"] |};
           {| facilityCode := "ams1"; facilityFeatures := ["storage"] |} ],
         "", None), w);
     DevicesCreate := fun devReq w => (("dev-" +:+ reqHostname devReq, None), w);
     DevicesGet := fun devID w =>
       (({| deviceID := devID; deviceState := "active"; deviceNetwork := [];
            deviceNetworkPorts := [] |}, None), w);
     PortsDisbond := fun _ w => (None, w);
     PortsAssign := fun _ _ w => (None, w);
     waitDevicesStartup := fun _ w => (None, w) |}.

(** The world in which no script fails. *)
Definition calm : External (gmap string string) := world "".

(** A validator that sees the cluster come up and later finds it down. *)
Definition failingFactory : ValidationFactory (gmap string string) :=
  {| CreateValidator := fun _ _ w =>
       ((Some {| WaitValid := fun w => (None, w);
                 Validate := fun w => (Some "cluster nodes are not ready", w) |},
         None), w) |}.

(** The zero value of [packetInstance], with the given factory. *)
Definition zero (cfg : ClusterProviderConfig)
           (factory : ValidationFactory (gmap string string))
  : packetInstance.t (gmap string string) :=
  {| packetInstance.installScript := None; packetInstance.setupScript := None;
     packetInstance.startScript := None; packetInstance.prepareScript := None;
     packetInstance.stopScript := None; packetInstance.root := "";
     packetInstance.id := ""; packetInstance.configScript := "";
     packetInstance.factory := factory; packetInstance.validator := None;
     packetInstance.configLocation := ""; packetInstance.projectID := "";
     packetInstance.packetAuthKey := ""; packetInstance.keyID := "";
     packetInstance.config := cfg; packetInstance.client := false;
     packetInstance.project := None; packetInstance.devices := ∅;
     packetInstance.sshKey := None; packetInstance.params := options;
     packetInstance.started := false; packetInstance.keyIds := [];
     packetInstance.virtualNetworkList := [];
     packetInstance.hardwareReservationsList := [];
     packetInstance.facilitiesList := [] |}.

(** The state [CreateCluster] leaves for the first instance of the
    configuration named [packet]. *)
Definition fresh (factory : ValidationFactory (gmap string string))
  : packetInstance.state (gmap string string) :=
  let '((created, _), p) :=
      CreateCluster calm environment
                    (packetProvider.NewPacketClusterProvider "/tmp/ct")
                    (providerConfig "packet" []) factory options in
  {| packetInstance.world := environment;
     packetInstance.provider := p;
     packetInstance.self := default (zero (providerConfig "packet" []) factory) created |}.

(** [s] in an environment without the Packet variables. *)
Definition unset (s : packetInstance.state (gmap string string))
  : packetInstance.state (gmap string string) :=
  {| packetInstance.world := ∅;
     packetInstance.provider := packetInstance.provider s;
     packetInstance.self := packetInstance.self s |}.

(** A shell manager whose configuration checks [PACKET_AUTH_TOKEN], in an
    environment where that variable is [token]. *)
Definition manager (token : string) : shell.shellInterface :=
  {| shell.id := "packet-1";
     shell.config := providerConfig "packet" ["PACKET_AUTH_TOKEN"];
     shell.params := options;
     shell.environ := <[ "PACKET_AUTH_TOKEN" := token ]> ∅ |}.

End sample.

(** ** pkg/shell: running the scripts ([runCmd], [RunCmd], [RunRead]) *)
Module shellManager.
Import config providers.

(** [shellInterface] with the two fields of its [environmentManager] that
    [runCmd] reads; the execution manager is a handle into the world.
    What the functions hand to [logrus] goes to the log of the process
    and is left out, here as in the packet adapter. *)
Record t := {
  id : string;
  config : ClusterProviderConfig;
  params : InstanceOptions;
  processedEnv : list string;
  finalArgs : gmap string string;
}.

(** [NewManager]: the environment manager starts as its zero value. *)
Definition NewManager (id : string) (config : ClusterProviderConfig)
           (params : InstanceOptions) : t :=
  {| id := id; config := config; params := params;
     processedEnv := []; finalArgs := ∅ |}.

Section Run.
(** The world outside the manager, and the handle of an open log file. *)
Variables W File : Type.

(** The calls that leave the manager: [utils.ParseVariable] and
    [strings.TrimSpace] as given, the process environment,
    [manager.OpenFile] with the file's name and handle, the closing of
    the file, the [Printf] of the logger made for it, and
    [utils.RunCommand] with the command, the file it writes to, the
    environment, the arguments and [returnResult]; the context of the
    call is part of the world. *)
Record Host := {
  ParseVariable : string -> string * string * option error;
  TrimSpace : string -> string;
  Environ : W -> gmap string string;
  OpenFile : string -> string -> W -> (string * File * option error) * W;
  Close : File -> W -> W;
  Printf : File -> string -> W -> W;
  RunCommand :
    string -> File -> list string -> gmap string string -> bool -> W ->
    (string * option error) * W;
}.
Variable host : Host.

(** The manager as the printers read it in [w]. *)
Definition printer (si : t) (w : W) : shell.shellInterface :=
  {| shell.id := id si; shell.config := config si; shell.params := params si;
     shell.environ := Environ host w |}.

(** The loop of [runCmd] over [script], with the output gathered so far. *)
Fixpoint runLoop (si : t) (file : File) (operation : string)
         (script env : list string) (returnResult : bool)
         (fileName finalOut : string) (w : W)
  : (string * string * option error) * W :=
  match script with
  | [] => ((fileName, finalOut, None), w)
  | cmd :: rest =>
    if bool_decide (TrimSpace host cmd = "")
    then runLoop si file operation rest env returnResult fileName finalOut w
    else
      let cmdEnv := processedEnv si ++ env in
      let w :=
          Printf host file
                 (operation +:+ ": " +:+ cmd +:+ nl +:+ "ENV={" +:+ nl
                  +:+ shell.PrintEnv (ParseVariable host) (printer si w) env
                  +:+ nl +:+ "}" +:+ nl) w in
      let '((stdOut, err), w) :=
          RunCommand host cmd file cmdEnv (finalArgs si) returnResult w in
      match err with
      | Some e =>
        ((fileName, "", Some e),
         Printf host file ("error running command: " +:+ e +:+ nl) w)
      | None =>
        runLoop si file operation rest env returnResult fileName
                (if returnResult then finalOut +:+ stdOut else finalOut) w
      end
  end.

(** [runCmd]; the file is closed when the function returns. *)
Definition runCmd (si : t) (operation : string) (script env : list string)
           (returnResult : bool) (w : W)
  : (string * string * option error) * W :=
  let '((fileName, file, err), w) := OpenFile host (id si) operation w in
  match err with
  | Some e => ((fileName, "", Some e), w)
  | None =>
    let '(result, w) :=
        runLoop si file operation script env returnResult fileName "" w in
    (result, Close host file w)
  end.

Definition RunCmd (si : t) (operation : string) (script env : list string)
           (w : W) : (string * option error) * W :=
  let '((fileName, _, err), w) := runCmd si operation script env false w in
  ((fileName, err), w).

Definition RunRead (si : t) (operation : string) (script env : list string)
           (w : W) : (string * option error) * W :=
  let '((_, response, err), w) := runCmd si operation script env true w in
  ((response, err), w).

End Run.
End shellManager.

Arguments shellManager.runLoop {W File}.
Arguments shellManager.runCmd {W File}.
Arguments shellManager.RunCmd {W File}.
Arguments shellManager.RunRead {W File}.
Arguments shellManager.printer {W File}.

(** ** pkg/providers/packet: [CleanupClusters] *)
Module cleanup.
Import config providers packet.

(** [CleanupClusters]: the provider's mutex is held around the install
    step.  [utils.ParseScript] is that of [ext]; a nil script is a script
    without commands. *)
Definition CleanupClusters {W File : Type} (ext : External W)
           (host : shellManager.Host W File) (p : packetProvider.t)
           (cfg : ClusterProviderConfig) (instanceOptions : InstanceOptions)
           (w : W) : packetProvider.t * W :=
  match Scripts cfg !! cleanupScript with
  | None => (p, w)
  | Some _ =>
    let shellInterface :=
        shellManager.NewManager (ProviderName cfg +:+ "-cleanup") cfg instanceOptions in
    let skipInstall :=
        NoInstall instanceOptions
        || default false (packetProvider.installDone p !! ProviderName cfg) in
    let '(p, w) :=
        if negb skipInstall then
          match Scripts cfg !! installScript with
          | Some iScript =>
            let '((_, err), w) :=
                shellManager.RunCmd host shellInterface "install"
                                    (default [] (ParseScript W ext iScript)) (Env cfg) w in
            match err with
            | Some _ => (p, w)
            | None =>
              ({| packetProvider.root := packetProvider.root p;
                  packetProvider.indexes := packetProvider.indexes p;
                  packetProvider.installDone :=
                    <[ProviderName cfg := true]> (packetProvider.installDone p) |}, w)
            end
          | None => (p, w)
          end
        else (p, w) in
    let '(_, w) :=
        shellManager.RunCmd host shellInterface "cleanup"
                            (default [] (ParseScript W ext (script cfg cleanupScript)))
                            (Env cfg) w in
    (p, w)
  end.

End cleanup.

(** ** More notions for the statements *)

(** The manager [si] with [NoMaskParameters] set. *)
Definition unmasked (si : shell.shellInterface) : shell.shellInterface :=
  {| shell.id := shell.id si; shell.config := shell.config si;
     shell.params := {| providers.NoInstall := providers.NoInstall (shell.params si);
                        providers.NoMaskParameters := true |};
     shell.environ := shell.environ si |}.

(** The codes of the listed facilities that have every feature the
    configuration asks for. *)
Definition qualifying (pk : config.PacketConfig) (facilities : list packet.Facility)
  : list string :=
  packet.facilityCode <$>
    filter (fun f => Forall (fun ff => ff ∈ packet.facilityFeatures f)
                            (config.Facilities pk))
           facilities.

(** The errors after which [createHardwareDevice], and after which
    [createFacilityDevice], goes on to the next reservation or facility. *)
Definition notProvisionable (e : error) : Prop :=
  GoStrings.Contains e "is not provisionable" = true
  \/ GoStrings.Contains e "Oh snap, something went wrong" = true.
Definition noProvisionable (e : error) : Prop :=
  GoStrings.Contains e "has no provisionable" = true
  \/ GoStrings.Contains e "Oh snap, something went wrong" = true.

(** The request [createHardwareDevice] makes of [devReq] for the
    reservation [hr]: its plan, its facility and its ID. *)
Definition reserved (devReq : packet.DeviceCreateRequest)
           (hr : packet.HardwareReservation) : packet.DeviceCreateRequest :=
  {| packet.reqHostname := packet.reqHostname devReq;
     packet.reqOS := packet.reqOS devReq;
     packet.reqBillingCycle := packet.reqBillingCycle devReq;
     packet.reqProjectID := packet.reqProjectID devReq;
     packet.reqProjectSSHKeys := packet.reqProjectSSHKeys devReq;
     packet.reqPlan := packet.hrPlan hr;
     packet.reqFacility := [packet.hrFacility hr];
     packet.reqHardwareReservationID := packet.hrID hr |}.

(** The request [createFacilityDevice] makes of [devReq] for the plan
    [plan] at the facility [facility]. *)
Definition placed (plan : string) (devReq : packet.DeviceCreateRequest)
           (facility : string) : packet.DeviceCreateRequest :=
  {| packet.reqHostname := packet.reqHostname devReq;
     packet.reqOS := packet.reqOS devReq;
     packet.reqBillingCycle := packet.reqBillingCycle devReq;
     packet.reqProjectID := packet.reqProjectID devReq;
     packet.reqProjectSSHKeys := packet.reqProjectSSHKeys devReq;
     packet.reqPlan := plan;
     packet.reqFacility := [facility];
     packet.reqHardwareReservationID := packet.reqHardwareReservationID devReq |}.

(** The world after the service was asked for a device with each of
    [requests], one after the other, and each answer was put into the
    log [create-device-<name>] of the instance [id]. *)
Definition attempted {W : Type} (ext : packet.External W) (id name : string)
           (requests : list packet.DeviceCreateRequest) (w : W) : W :=
  foldl (fun w devReq =>
           packet.AddLog W ext id ("create-device-" +:+ name)
             ("HostName=" +:+ packet.reqHostname devReq +:+ nl
              +:+ packet.errorText (packet.DevicesCreate W ext devReq w).1.2)
             (packet.DevicesCreate W ext devReq w).2)
        w requests.

(** The fields of an instance that [CreateCluster] fills in for good. *)
Definition constants {W : Type} (pi : packet.packetInstance.t W) :=
  (packet.packetInstance.id pi, packet.packetInstance.root pi,
   packet.packetInstance.config pi, packet.packetInstance.params pi,
   packet.packetInstance.factory pi,
   packet.packetInstance.projectID pi, packet.packetInstance.packetAuthKey pi,
   packet.packetInstance.configScript pi,
   (packet.packetInstance.installScript W pi, packet.packetInstance.setupScript W pi,
    packet.packetInstance.startScript W pi, packet.packetInstance.prepareScript W pi,
    packet.packetInstance.stopScript W pi)).

(** The IDs of all the instances a run of [CreateCluster] calls made, in
    the order of the calls. *)
Definition created {W : Type}
           (rs : list (option (packet.packetInstance.t W) * option error))
  : list string :=
  omap (fun r => packet.packetInstance.id <$> fst r) rs.

(** The provider [p'] is [p] with more installs marked done: the root and
    the ordinals are the same, and an entry of [installDone] is what it
    was or [true]. *)
Definition marksInstalls (p p' : packet.packetProvider.t) : Prop :=
  packet.packetProvider.root p' = packet.packetProvider.root p
  /\ packet.packetProvider.indexes p' = packet.packetProvider.indexes p
  /\ forall name,
      packet.packetProvider.installDone p' !! name
      = packet.packetProvider.installDone p !! name
      \/ packet.packetProvider.installDone p' !! name = Some true.

(** A method body that does to the provider no more than that. *)
Definition installsOnly {W A : Type} (m : packet.packetInstance.M W A) : Prop :=
  forall s, marksInstalls (packet.packetInstance.provider s)
                          (packet.packetInstance.provider (m s).2).

(** ** A second set of configurations and worlds, for more examples *)
Module lab.
Import config providers packet.

(** A configuration with a hardware device and a facility device, a
    preferred facility, and scripts to install and to clean up. *)
Definition worker : HardwareDeviceConfig :=
  {| Name := "worker"; HostName := "ci-worker";
     OperatingSystem := "ubuntu_18_04"; BillingCycle := "hourly";
     PortVLANs := Some [("eth1", 1002)] |}.

Definition packetConfig : PacketConfig :=
  {| SSHKey := "id_rsa.pub"; HardwareDevices := [worker];
     Devices := [ {| HardwareDevice := sample.device; Plan := "t1.small.x86" |} ];
     HardwareReservations := ["res-3"; "res-1"];
     Facilities := ["baremetal"];
     PreferredFacility := "ams1" |}.

Definition providerConfig (name : string) : ClusterProviderConfig :=
  {| ProviderName := name; Kind := "packet"; Timeout := 1800; Instances := 1;
     NodeCount := 2; RetryCount := 0;
     Scripts := <[ "install" := "make packet-install" ]>
                  (<[ "cleanup" := "make packet-cleanup" ]>
                     (<[ "config" := "echo /tmp/kubeconfig" ]>
                        (<[ "start" := "make packet-start" ]> ∅)));
     Env := ["CLUSTER=ci"]; EnvCheck := ["PACKET_AUTH_TOKEN"]; Enabled := true;
     Packet := Some packetConfig |}.

Definition reservations : list HardwareReservation :=
  [ {| hrID := "res-1"; hrPlan := "c2.medium.x86"; hrFacility := "ewr1" |};
    {| hrID := "res-2"; hrPlan := "c2.medium.x86"; hrFacility := "ams1" |};
    {| hrID := "res-3"; hrPlan := "m2.xlarge.x86"; hrFacility := "sjc1" |} ].

Definition facilities : list Facility :=
  [ {| facilityCode := "ewr1"; facilityFeatures := ["baremetal"; "layer_2"] |};
    {| facilityCode := "sjc1"; facilityFeatures := ["storage"; "baremetal"] |};
    {| facilityCode := "dfw2"; facilityFeatures := ["storage"] |};
    {| facilityCode := "ams1"; facilityFeatures := ["baremetal"] |} ].

(** The calm world with a Packet service that lists these reservations
    and facilities and two virtual networks, whose devices have a bonded
    port [eth1] and a public address, and which answers every device
    request with [refusal] when there is one. *)
Definition world (refusal : option error) : External (gmap string string) :=
  {| Join := Join _ sample.calm;
     ParseScript := ParseScript _ sample.calm;
     ParseVariable := ParseVariable _ sample.calm;
     SubstituteVariable := SubstituteVariable _ sample.calm;
     Environ := Environ _ sample.calm;
     ClearFolder := ClearFolder _ sample.calm;
     ProcessEnvironment := ProcessEnvironment _ sample.calm;
     GetProcessedEnv := fun _ => ["CLUSTER=ci"];
     GetConfigLocation := GetConfigLocation _ sample.calm;
     GetArguments := GetArguments _ sample.calm;
     AddExtraArgs := AddExtraArgs _ sample.calm;
     RunCmd := RunCmd _ sample.calm;
     AddLog := AddLog _ sample.calm;
     OpenFile := OpenFile _ sample.calm;
     FileExists := FileExists _ sample.calm;
     ReadFile := ReadFile _ sample.calm;
     ExecRead := ExecRead _ sample.calm;
     NewRandomKeyID := NewRandomKeyID _ sample.calm;
     NewClient := NewClient _ sample.calm;
     ProjectsList := ProjectsList _ sample.calm;
     SSHKeysCreate := SSHKeysCreate _ sample.calm;
     SSHKeysList := SSHKeysList _ sample.calm;
     VirtualNetworksList := fun _ w => (([("vlan-a", 1001); ("vlan-b", 1002)], None), w);
     HardwareReservationsList := fun _ w => ((reservations, "", None), w);
     FacilitiesList := fun w => ((facilities, "", None), w);
     DevicesCreate := fun devReq w =>
       (match refusal with
        | Some e => ("", Some e)
        | None => ("dev-" +:+ reqHostname devReq, None)
        end, w);
     DevicesGet := fun devID w =>
       (({| deviceID := devID; deviceState := "active";
            deviceNetwork :=
              [ {| ipPublic := true; ipAddressFamily := 4;
                   ipAddress := "147.75.0.2"; ipGateway := "147.75.0.1";
                   ipNetwork := "147.75.0.0" |} ];
            deviceNetworkPorts :=
              [ {| portName := "eth1"; portID := "port-1"; portBonded := true |} ] |},
         None), w);
     PortsDisbond := PortsDisbond _ sample.calm;
     PortsAssign := PortsAssign _ sample.calm;
     waitDevicesStartup := waitDevicesStartup _ sample.calm |}.

(** The state [CreateCluster] leaves for the first instance of the
    configuration named [lab], with the test validation factory. *)
Definition fresh : packetInstance.state (gmap string string) :=
  let '((created, _), p) :=
      CreateCluster (world None) sample.environment
                    (packetProvider.NewPacketClusterProvider "/tmp/ct")
                    (providerConfig "lab") tests.TestValidationFactory
                    sample.options in
  {| packetInstance.world := sample.environment;
     packetInstance.provider := p;
     packetInstance.self :=
       default (sample.zero (providerConfig "lab") tests.TestValidationFactory)
               created |}.

(** The instance after its [Start] in the world that refuses nothing:
    it has its client, its project and its lists. *)
Definition started : packetInstance.state (gmap string string) :=
  packetInstance.invoke (world None) (packetInstance.mStart 1800) fresh.

(** That instance after a second [Start], made once the Packet variables
    are gone from the environment: [NewClient] has failed and the client
    is nil. *)
Definition restarted : packetInstance.state (gmap string string) :=
  packetInstance.invoke (world None) (packetInstance.mStart 1800)
                        (sample.unset started).

(** [text] added to what [w] holds under [key]. *)
Definition noted (key text : string) (w : gmap string string)
  : gmap string string :=
  <[key := default "" (w !! key) +:+ text]> w.

(** The world [world refusal] with a service and an execution manager
    that keep a journal: the reservation and the facility of every
    device request under [packet/devices], and every log under the name
    of its instance and operation. *)
Definition journal (refusal : option error) : External (gmap string string) :=
  {| Join := Join _ (world refusal);
     ParseScript := ParseScript _ (world refusal);
     ParseVariable := ParseVariable _ (world refusal);
     SubstituteVariable := SubstituteVariable _ (world refusal);
     Environ := Environ _ (world refusal);
     ClearFolder := ClearFolder _ (world refusal);
     ProcessEnvironment := ProcessEnvironment _ (world refusal);
     GetProcessedEnv := GetProcessedEnv _ (world refusal);
     GetConfigLocation := GetConfigLocation _ (world refusal);
     GetArguments := GetArguments _ (world refusal);
     AddExtraArgs := AddExtraArgs _ (world refusal);
     RunCmd := RunCmd _ (world refusal);
     AddLog := fun id name content w =>
       noted ("log/" +:+ id +:+ "/" +:+ name) content w;
     OpenFile := OpenFile _ (world refusal);
     FileExists := FileExists _ (world refusal);
     ReadFile := ReadFile _ (world refusal);
     ExecRead := ExecRead _ (world refusal);
     NewRandomKeyID := NewRandomKeyID _ (world refusal);
     NewClient := NewClient _ (world refusal);
     ProjectsList := ProjectsList _ (world refusal);
     SSHKeysCreate := SSHKeysCreate _ (world refusal);
     SSHKeysList := SSHKeysList _ (world refusal);
     VirtualNetworksList := VirtualNetworksList _ (world refusal);
     HardwareReservationsList := HardwareReservationsList _ (world refusal);
     FacilitiesList := FacilitiesList _ (world refusal);
     DevicesCreate := fun devReq w =>
       ((DevicesCreate _ (world refusal) devReq w).1,
        noted "packet/devices"
              (reqHardwareReservationID devReq +:+ "@"
               +:+ String.concat "," (reqFacility devReq) +:+ ";") w);
     DevicesGet := DevicesGet _ (world refusal);
     PortsDisbond := PortsDisbond _ (world refusal);
     PortsAssign := PortsAssign _ (world refusal);
     waitDevicesStartup := waitDevicesStartup _ (world refusal) |}.

(** [strings.TrimSpace] on ASCII text: the white space at both ends
    goes. *)
Definition asciiSpace (c : ascii) : bool :=
  bool_decide (c ∈ [ascii_of_nat 9; ascii_of_nat 10; ascii_of_nat 11;
                    ascii_of_nat 12; ascii_of_nat 13; ascii_of_nat 32]).
Fixpoint trimLeft (l : list ascii) : list ascii :=
  match l with
  | c :: rest => if asciiSpace c then trimLeft rest else l
  | [] => []
  end.
Definition trimSpace (s : string) : string :=
  GoStrings.str (reverse (trimLeft (reverse (trimLeft (GoStrings.bytes s))))).

(** A host on which every command succeeds, with its own text as output,
    but the command [broken]; log files are named after the manager and
    the operation. *)
Definition host (broken : string)
  : shellManager.Host (gmap string string) string :=
  {| shellManager.ParseVariable := shell.parseAtEquals;
     shellManager.TrimSpace := trimSpace;
     shellManager.Environ := fun w => w;
     shellManager.OpenFile := fun id operation w =>
       ((id +:+ "-" +:+ operation +:+ ".log",
         id +:+ "-" +:+ operation +:+ ".log", None), w);
     shellManager.Close := fun _ w => w;
     shellManager.Printf := fun _ _ w => w;
     shellManager.RunCommand := fun cmd _ _ _ _ w =>
       ((cmd +:+ nl,
         if bool_decide (cmd = broken) then Some "exit status 1" else None), w) |}.

End lab.

(** * Facts *)

(** ** Go strings *)
Section GoStringsFacts.
Import GoStrings.

Lemma bytes_app a b : bytes (a +:+ b) = bytes a ++ bytes b.
Proof. induction a as [|c a IH]; simpl; [done|]. unfold bytes in *. simpl. by rewrite IH. Qed.

Lemma str_app a b : str (a ++ b) = str a +:+ str b.
Proof. induction a as [|c a IH]; simpl; [done|]. unfold str in *. simpl. by rewrite IH. Qed.

Lemma str_bytes s : str (bytes s) = s.
Proof. apply String.string_of_list_ascii_of_string. Qed.

Lemma bytes_str l : bytes (str l) = l.
Proof. apply String.list_ascii_of_string_of_list_ascii. Qed.

Lemma bytes_inj a b : bytes a = bytes b -> a = b.
Proof. intros H. rewrite <- (str_bytes a), <- (str_bytes b). by rewrite H. Qed.

Lemma occurs_infix sub s : occurs sub s <-> infix (bytes sub) (bytes s).
Proof.
  split.
  - intros (a & b & ->). exists (bytes a), (bytes b). by rewrite !bytes_app.
  - intros (a & b & H). exists (str a), (str b). apply bytes_inj.
    by rewrite !bytes_app, !bytes_str.
Qed.

Lemma hasPrefixB_true s p : hasPrefixB s p = true <-> exists r, s = p ++ r.
Proof.
  revert s. induction p as [|c p IH]; intros s; simpl.
  - split; [intros _; by exists s | intros _; by destruct s].
  - destruct s as [|d s]; simpl.
    + split; [done | intros [r Hr]; done].
    + rewrite andb_true_iff, bool_decide_eq_true, IH. split.
      * intros [-> [r ->]]. by exists r.
      * intros [r Hr]. simplify_eq. eauto.
Qed.

Lemma infix_nil_l s : infix [] s.
Proof. by exists [], s. Qed.

Lemma infix_cons_r sub c s : infix sub s -> infix sub (c :: s).
Proof. intros (a & b & ->). by exists (c :: a), b. Qed.

Lemma infix_app_l sub s t : infix sub s -> infix sub (s ++ t).
Proof. intros (a & b & ->). exists a, (b ++ t). by rewrite <- !app_assoc. Qed.

Lemma infix_app_r sub s t : infix sub t -> infix sub (s ++ t).
Proof. intros (a & b & ->). exists (s ++ a), b. by rewrite <- !app_assoc. Qed.

Lemma infix_take sub s n : infix sub (take n s) -> infix sub s.
Proof. intros H. rewrite <- (take_drop n s). by apply infix_app_l. Qed.

Lemma infix_drop sub s n : infix sub (drop n s) -> infix sub s.
Proof. intros H. rewrite <- (take_drop n s). by apply infix_app_r. Qed.

Lemma indexB_nil sub : indexB [] sub = if hasPrefixB [] sub then Some 0%nat else None.
Proof. done. Qed.

Lemma indexB_cons c s sub :
  indexB (c :: s) sub = if hasPrefixB (c :: s) sub then Some 0%nat else S <$> indexB s sub.
Proof. done. Qed.

(** [indexB] finds an instance, and the leftmost one. *)
Lemma indexB_Some s sub i :
  indexB s sub = Some i ->
  s = take i s ++ sub ++ drop (i + length sub) s
  /\ forall a b, s = a ++ sub ++ b -> (i <= length a)%nat.
Proof.
  revert i. induction s as [|c s IH]; intros i.
  - rewrite indexB_nil. destruct (hasPrefixB [] sub) eqn:Hp; [|done].
    intros [= <-]. apply hasPrefixB_true in Hp as [r Hr].
    destruct sub; [|done]. split; [done | intros; lia].
  - rewrite indexB_cons. destruct (hasPrefixB (c :: s) sub) eqn:Hp.
    + intros [= <-]. apply hasPrefixB_true in Hp as [r Hr].
      split; [|intros; lia]. simpl. rewrite Hr at 1. f_equal.
      rewrite Hr. by rewrite drop_app_length.
    + destruct (indexB s sub) as [j|] eqn:Hi; [|done].
      intros [= <-]. destruct (IH j eq_refl) as [Heq Hmin]. split.
      * simpl. by rewrite <- Heq.
      * intros [|d a] b Hab.
        -- simpl in Hab. assert (hasPrefixB (c :: s) sub = true) as Ht
             by (apply hasPrefixB_true; eauto). congruence.
        -- simplify_eq/=. specialize (Hmin a b eq_refl). lia.
Qed.

Lemma indexB_None s sub : indexB s sub = None -> ~ infix sub s.
Proof.
  induction s as [|c s IH].
  - rewrite indexB_nil. destruct (hasPrefixB [] sub) eqn:Hp; [done|].
    intros _ (a & b & H). destruct a, sub; simplify_eq/=.
  - rewrite indexB_cons. destruct (hasPrefixB (c :: s) sub) eqn:Hp; [done|].
    destruct (indexB s sub) eqn:Hi; [done|]. intros _ (a & b & H).
    destruct a as [|d a].
    + assert (hasPrefixB (c :: s) sub = true) as Ht
        by (apply hasPrefixB_true; eauto). congruence.
    + simplify_eq/=. apply IH; [done|]. by exists a, b.
Qed.

Lemma indexB_Some_length s sub i :
  indexB s sub = Some i -> (i + length sub <= length s)%nat.
Proof.
  revert i. induction s as [|c s IH]; intros i.
  - rewrite indexB_nil. destruct (hasPrefixB [] sub) eqn:Hp; [|done].
    intros [= <-]. apply hasPrefixB_true in Hp as [r Hr].
    by destruct sub.
  - rewrite indexB_cons. destruct (hasPrefixB (c :: s) sub) eqn:Hp.
    + intros [= <-]. apply hasPrefixB_true in Hp as [r Hr].
      rewrite Hr, length_app. lia.
    + destruct (indexB s sub) as [j|] eqn:Hi; [|done].
      intros [= <-]. specialize (IH j eq_refl). simpl. lia.
Qed.

Lemma string_app_assoc a b c : (a +:+ b) +:+ c = a +:+ b +:+ c.
Proof.
  induction a as [|x a IH]; [reflexivity|].
  change (String x ((a +:+ b) +:+ c) = String x (a +:+ b +:+ c)). by f_equal.
Qed.

(** An instance of [x] in [a ++ m ++ b] that shares no byte with the
    non-empty [m] lies in [a] or in [b]. *)
Lemma infix_around x a m b :
  x <> [] -> m <> [] -> (forall c, c ∈ m -> c ∉ x) ->
  infix x (a ++ m ++ b) -> infix x a \/ infix x b.
Proof.
  intros Hx Hm Hdisj (u & v & Heq).
  destruct (decide (length u + length x <= length a)%nat) as [Hl|Hl].
  - left. apply (f_equal (take (length a))) in Heq.
    rewrite take_app_length in Heq.
    rewrite take_app_ge, take_app_ge in Heq by lia. by eexists u, _.
  - destruct (decide (length a + length m <= length u)%nat) as [Hr|Hr].
    + right. apply (f_equal (drop (length a + length m))) in Heq.
      rewrite app_assoc, drop_app_length' in Heq by (rewrite length_app; lia).
      rewrite drop_app_le in Heq by lia. by eexists _, v.
    + exfalso.
      assert (length x <> 0%nat) by (destruct x; simpl; [done|lia]).
      assert (length m <> 0%nat) by (destruct m; simpl; [done|lia]).
      set (k := (length u `max` length a)%nat).
      assert (exists c, m !! (k - length a)%nat = Some c) as [c Hc]
        by (apply lookup_lt_is_Some; lia).
      assert (exists d, x !! (k - length u)%nat = Some d) as [d Hd]
        by (apply lookup_lt_is_Some; lia).
      assert ((a ++ m ++ b) !! k = Some c) as H1.
      { rewrite lookup_app_r by lia. by rewrite lookup_app_l by lia. }
      assert ((u ++ x ++ v) !! k = Some d) as H2.
      { rewrite lookup_app_r by lia. by rewrite lookup_app_l by lia. }
      rewrite Heq, H2 in H1. simplify_eq.
      apply (Hdisj c); by eapply list_elem_of_lookup_2.
Qed.

Lemma infix_nil_r x : infix x [] -> x = [].
Proof. intros (a & b & H). by destruct a, x. Qed.

Section Replace.
Variables old new : list ascii.

(** A string that shares no byte with [new] is not brought in by a
    replacement. *)
Lemma replaceLoop_infix x n i0 s :
  x <> [] -> new <> [] -> (forall c, c ∈ new -> c ∉ x) ->
  infix x (replaceLoop n i0 s old new) -> infix x s.
Proof.
  intros Hx Hn Hd. revert i0 s. induction n as [|n IH]; intros i0 s; [done|].
  simpl. intros H. apply infix_around in H as [H|H]; [| |done..].
  - by eapply infix_take.
  - apply IH in H. by eapply infix_drop.
Qed.

(** Enough rounds of [strings.Count]: more fuel changes nothing. *)
Lemma countLoop_fuel f1 f2 s :
  old <> [] -> (length s < f1)%nat -> (length s < f2)%nat ->
  countLoop f1 s old = countLoop f2 s old.
Proof.
  intros Ho. revert f2 s. induction f1 as [|f1 IH]; intros f2 s H1 H2; [lia|].
  destruct f2 as [|f2]; [lia|]. simpl.
  destruct (indexB s old) as [i|] eqn:Hi; [|done]. f_equal.
  assert (length old <> 0%nat) by (destruct old; simpl; [done|lia]).
  apply indexB_Some_length in Hi.
  apply IH; rewrite length_drop; lia.
Qed.

(** After the rounds [strings.Count] allows no instance of [old] is left. *)
Lemma replaceLoop_count_clean fuel i0 s :
  old <> [] -> new <> [] -> (forall c, c ∈ new -> c ∉ old) ->
  (length s < fuel)%nat ->
  ~ infix old (replaceLoop (countLoop fuel s old) i0 s old new).
Proof.
  intros Ho Hn Hd. revert i0 s.
  induction fuel as [|fuel IH]; intros i0 s Hlen; [lia|].
  simpl. destruct (indexB s old) as [i|] eqn:Hi.
  - simpl. destruct old as [|o old'] eqn:Hold; [done|]. rewrite <- Hold in *.
    rewrite Hi. simpl.
    assert (length old <> 0%nat) by (rewrite Hold; simpl; lia).
    intros H'. apply infix_around in H' as [H'|H']; [| |done..].
    + destruct H' as (a & b & Hab).
      apply indexB_Some in Hi as [Heq Hmin].
      assert (length (take i s) = length a + length old + length b)%nat as Hl
        by (rewrite Hab, !length_app; lia).
      rewrite Heq, Hab in Hmin. rewrite <- !app_assoc in Hmin.
      specialize (Hmin a _ eq_refl).
      pose proof (length_take_le s i). rewrite length_take in Hl. lia.
    + revert H'. apply IH. apply indexB_Some_length in Hi.
      rewrite length_drop. lia.
  - simpl. by apply indexB_None.
Qed.
End Replace.

Lemma replaceB_infix x s old new n :
  x <> [] -> new <> [] -> (forall c, c ∈ new -> c ∉ x) ->
  infix x (replaceB s old new n) -> infix x s.
Proof.
  intros Hx Hn Hd. unfold replaceB.
  destruct (bool_decide (old = new) || bool_decide (n = 0)); [done|].
  destruct (bool_decide (countB s old = 0%nat)); [done|].
  by apply replaceLoop_infix.
Qed.

Lemma replaceB_clean s old new n :
  old <> [] -> new <> [] -> (forall c, c ∈ new -> c ∉ old) -> n < 0 ->
  ~ infix old (replaceB s old new n).
Proof.
  intros Ho Hn Hd Hneg. unfold replaceB.
  assert (old <> new) as Hne.
  { intros ->. destruct new as [|c new]; [done|]. apply (Hd c); left. }
  rewrite (bool_decide_eq_false_2 _ Hne).
  rewrite (bool_decide_eq_false_2 (n = 0)) by lia. simpl.
  rewrite (bool_decide_eq_true_2 (n < 0)) by done. simpl.
  unfold countB. destruct old as [|o old'] eqn:Hold; [done|]. rewrite <- Hold in *.
  pose proof (replaceLoop_count_clean old new (S (length s)) true s Ho Hn Hd) as H.
  case_bool_decide as Hc.
  - rewrite Hc in H. apply H. lia.
  - apply H. lia.
Qed.

Lemma bytes_nil s : bytes s = [] <-> s = "".
Proof. split; [|by intros ->]. by destruct s. Qed.

Lemma mask_disjoint x : "*"%char ∉ bytes x -> forall c, c ∈ bytes "****" -> c ∉ bytes x.
Proof.
  intros Hx c Hc. assert (c = "*"%char) as ->; [|done].
  unfold bytes in Hc. simpl in Hc.
  repeat (apply elem_of_cons in Hc as [->|Hc]; [done|]). by apply elem_of_nil in Hc.
Qed.

Lemma Replace_occurs x s old :
  maskable x -> occurs x (Replace s old "****" (-1)) -> occurs x s.
Proof.
  intros [Hx Hs]. rewrite !occurs_infix. unfold Replace. rewrite bytes_str.
  apply replaceB_infix; [by rewrite bytes_nil | done | by apply mask_disjoint].
Qed.

Lemma Replace_clean s old :
  maskable old -> ~ occurs old (Replace s old "****" (-1)).
Proof.
  intros [Hx Hs]. rewrite occurs_infix. unfold Replace. rewrite bytes_str.
  apply replaceB_clean; [by rewrite bytes_nil | done | by apply mask_disjoint | lia].
Qed.

Section Masking.
Import config providers shell.
Variable si : shellInterface.

Lemma maskLoop_fold_clean (vars : list string) (v x : string) :
  maskable x ->
  (~ occurs x v \/ x ∈ Getenv (environ si) <$> vars) ->
  ~ occurs x (foldl (fun v ce => Replace v (Getenv (environ si) ce) "****" (-1)) v vars).
Proof.
  intros Hx. revert v. induction vars as [|ce vars IH]; intros v Hv; simpl.
  - destruct Hv as [Hv|Hv]; [done | by apply elem_of_nil in Hv].
  - apply IH. destruct Hv as [Hv|Hv].
    + left. intros H. by apply Hv, (Replace_occurs x v (Getenv (environ si) ce)).
    + apply elem_of_cons in Hv as [->|Hv]; [|by right].
      left. by apply Replace_clean.
Qed.

Lemma maskLoop_clean (varValue ce : string) :
  ce ∈ EnvCheck (config si) -> maskable (Getenv (environ si) ce) ->
  ~ occurs (Getenv (environ si) ce) (maskLoop si varValue).
Proof.
  intros Hce Hm. apply maskLoop_fold_clean; [done|]. right.
  by apply list_elem_of_fmap_2.
Qed.
End Masking.

Lemma occurs_around x a (c : ascii) b :
  x <> "" -> c ∉ bytes x ->
  occurs x (a +:+ String c "" +:+ b) -> occurs x a \/ occurs x b.
Proof.
  intros Hx Hc. rewrite !occurs_infix, !bytes_app.
  apply infix_around; [by rewrite bytes_nil | done |].
  intros d Hd. apply list_elem_of_singleton in Hd as ->. done.
Qed.

Lemma occurs_empty x : occurs x "" -> x = "".
Proof.
  rewrite occurs_infix. intros H%infix_nil_r. by apply bytes_nil.
Qed.

Section Printers.
Import config providers shell.
Variable ParseVariable : string -> string * string * option error.
Variable si : shellInterface.
Variable secret : string.
Hypothesis Hm : maskable secret.
Hypothesis Hp : plain secret.

Lemma printLine_clean name value rest :
  ~ occurs secret name -> ~ occurs secret value -> ~ occurs secret rest ->
  ~ occurs secret (printLine name value +:+ rest).
Proof.
  intros Hn Hv Hr H. destruct Hm as [Hne _], Hp as [Heq Hnl].
  unfold printLine, nl in H.
  rewrite !string_app_assoc in H.
  apply occurs_around in H as [H|H]; [done| |done..].
  apply occurs_around in H as [H|H]; done.
Qed.

Lemma PrintEnv_clean processedEnv :
  (forall e, e ∈ processedEnv ->
             ~ occurs secret (ParseVariable e).1.1
             /\ ~ occurs secret (printedValue si (ParseVariable e).1.2)) ->
  ~ occurs secret (PrintEnv ParseVariable si processedEnv).
Proof.
  destruct Hm as [Hne _].
  induction processedEnv as [|e rest IH]; intros Hall; simpl.
  - by intros H%occurs_empty.
  - destruct (Hall e) as [Hn Hv]; [left|].
    destruct (ParseVariable e) as [[name value] err]. simpl in *.
    apply printLine_clean; [done..|]. apply IH. intros e' He'.
    apply Hall. by right.
Qed.

Lemma printArgsLines_clean visit :
  (forall e, e ∈ visit ->
             ~ occurs secret e.1 /\ ~ occurs secret (printedValue si e.2)) ->
  ~ occurs secret (printArgsLines si visit).
Proof.
  destruct Hm as [Hne _].
  induction visit as [|[name value] rest IH]; intros Hall; simpl.
  - by intros H%occurs_empty.
  - destruct (Hall (name, value)) as [Hn Hv]; [left|]. simpl in *.
    apply printLine_clean; [done..|]. apply IH. intros e' He'.
    apply Hall. by right.
Qed.

Lemma PrintArgs_clean visit :
  ~ occurs secret "Arguments:" ->
  (forall e, e ∈ visit ->
             ~ occurs secret e.1 /\ ~ occurs secret (printedValue si e.2)) ->
  ~ occurs secret (PrintArgs si visit).
Proof.
  intros Hh Hall H. destruct Hm as [Hne _], Hp as [_ Hnl].
  unfold PrintArgs, nl in H.
  apply occurs_around in H as [H|H]; [done| |done..].
  by apply printArgsLines_clean in H.
Qed.
End Printers.

End GoStringsFacts.

(** ** The printers of the shell manager *)
Section PrinterFacts.
Import config providers shell.

Lemma printedValue_clean (si : shellInterface) (ce varValue : string) :
  NoMaskParameters (params si) = false ->
  ce ∈ EnvCheck (config si) -> maskable (Getenv (environ si) ce) ->
  ~ GoStrings.occurs (Getenv (environ si) ce) (printedValue si varValue).
Proof.
  intros Hmask Hce Hm. unfold printedValue. rewrite Hmask. simpl.
  by apply maskLoop_clean.
Qed.

Lemma printedValue_unmasked (si : shellInterface) (varValue : string) :
  NoMaskParameters (params si) = true -> printedValue si varValue = varValue.
Proof. intros Hmask. unfold printedValue. by rewrite Hmask. Qed.

(** C10, as amended.  Unless [NoMaskParameters] is set, for a variable
    [ce] of [EnvCheck] whose current value is not empty and has no [*]:
    no value [PrintEnv] or [PrintArgs] prints contains that value; and when
    the value has no [=] and no line feed either and occurs in none of the
    printed names (nor in the header [Arguments:]), the returned string
    does not contain it. *)
Theorem PrintEnv_PrintArgs_mask
        (ParseVariable : string -> string * string * option error)
        (si : shellInterface) (ce : string)
        (processedEnv : list string) (visit : list (string * string)) :
  NoMaskParameters (params si) = false ->
  ce ∈ EnvCheck (config si) ->
  maskable (Getenv (environ si) ce) ->
  (forall varValue,
      ~ GoStrings.occurs (Getenv (environ si) ce) (printedValue si varValue))
  /\ (plain (Getenv (environ si) ce) ->
      (forall e, e ∈ processedEnv ->
                 ~ GoStrings.occurs (Getenv (environ si) ce) (ParseVariable e).1.1) ->
      ~ GoStrings.occurs (Getenv (environ si) ce)
                         (PrintEnv ParseVariable si processedEnv))
  /\ (plain (Getenv (environ si) ce) ->
      ~ GoStrings.occurs (Getenv (environ si) ce) "Arguments:" ->
      (forall e, e ∈ visit -> ~ GoStrings.occurs (Getenv (environ si) ce) e.1) ->
      ~ GoStrings.occurs (Getenv (environ si) ce) (PrintArgs si visit)).
Proof.
  intros Hmask Hce Hm.
  assert (forall varValue,
             ~ GoStrings.occurs (Getenv (environ si) ce) (printedValue si varValue))
    as Hvalue by (intros v; by apply printedValue_clean).
  split; [done|]. split.
  - intros Hp Hnames. apply PrintEnv_clean; [done..|].
    intros e He. split; [by apply Hnames | apply Hvalue].
  - intros Hp Hhead Hnames. apply PrintArgs_clean; [done..|].
    intros e He. split; [by apply Hnames | apply Hvalue].
Qed.

Lemma token_maskable : maskable "t0k3n".
Proof.
  split; [done|]. unfold GoStrings.bytes. simpl. intros H.
  repeat (apply elem_of_cons in H as [H|H]; [done|]). by apply elem_of_nil in H.
Defined.

Lemma token_plain : plain "t0k3n".
Proof.
  split; unfold GoStrings.bytes; simpl; intros H;
    repeat (apply elem_of_cons in H as [H|H]; [done|]); by apply elem_of_nil in H.
Defined.

Lemma token_not_in (text : string) :
  GoStrings.Contains text "t0k3n" = false -> ~ GoStrings.occurs "t0k3n" text.
Proof.
  unfold GoStrings.Contains, GoStrings.Index. intros Hc Ho.
  apply occurs_infix in Ho.
  destruct (GoStrings.indexB _ _) eqn:Hi.
  - apply bool_decide_eq_false in Hc. lia.
  - by apply indexB_None in Hi.
Defined.

(** The token [t0k3n] is masked in the value of [TOKEN] and so is not in
    what [PrintEnv] returns. *)
Lemma PrintEnv_PrintArgs_mask_witness :
  ~ GoStrings.occurs "t0k3n"
    (PrintEnv parseAtEquals (sample.manager "t0k3n") ["TOKEN=Bearer t0k3n"; "HOME=/root"]).
Proof.
  apply (PrintEnv_PrintArgs_mask parseAtEquals (sample.manager "t0k3n")
           "PACKET_AUTH_TOKEN" ["TOKEN=Bearer t0k3n"; "HOME=/root"] []).
  - reflexivity.
  - apply list_elem_of_here.
  - exact token_maskable.
  - exact token_plain.
  - intros e He. apply token_not_in.
    apply elem_of_cons in He as [->|He]; [reflexivity|].
    apply elem_of_cons in He as [->|He]; [reflexivity|].
    by apply elem_of_nil in He.
Defined.

(** C10, as stated, fails: with [PACKET_AUTH_TOKEN] in [EnvCheck] and the
    token [pa*], the value [papa*] is printed as [pa****], which contains
    the token, and so does the string [PrintEnv] returns. *)
Lemma PrintEnv_leaks_starred_token :
  NoMaskParameters (params (sample.manager "pa*")) = false
  /\ "PACKET_AUTH_TOKEN" ∈ EnvCheck (config (sample.manager "pa*"))
  /\ Getenv (environ (sample.manager "pa*")) "PACKET_AUTH_TOKEN" = "pa*"
  /\ printedValue (sample.manager "pa*") "papa*" = "pa****"
  /\ GoStrings.occurs "pa*" (printedValue (sample.manager "pa*") "papa*")
  /\ GoStrings.occurs "pa*"
       (PrintEnv parseAtEquals (sample.manager "pa*") ["TOKEN=papa*"]).
Proof.
  split; [reflexivity|]. split; [apply list_elem_of_here|].
  split; [reflexivity|]. split; [reflexivity|]. split.
  - exists "", "***". reflexivity.
  - exists "TOKEN=", ("***" +:+ nl). reflexivity.
Qed.

Example Replace_ex1 :
  GoStrings.Replace "token=abc;abcabc" "abc" "****" (-1) = "token=****;********".
Proof. reflexivity. Qed.
Example Replace_ex2 : GoStrings.Replace "ab" "" "****" (-1) = "****a****b****".
Proof. reflexivity. Qed.
Example Replace_ex3 : GoStrings.Replace "aaa" "aa" "****" (-1) = "****a".
Proof. reflexivity. Qed.
Example Replace_ex4 : GoStrings.Replace "****" "****" "****" (-1) = "****".
Proof. reflexivity. Qed.
Example PrintArgs_ex :
  PrintArgs (sample.manager "t0k3n") [("a", "xt0k3ny")]
  = "Arguments:" +:+ nl +:+ "a=x****y" +:+ nl.
Proof. reflexivity. Qed.

End PrinterFacts.

(** ** The packet provider *)
Section ProviderFacts.
Import config providers packet.

Lemma envCheckLoop_None environ all vars :
  packetProvider.envCheckLoop environ all vars = None
  <-> forall envVar, envVar ∈ vars -> Getenv environ envVar <> "".
Proof.
  induction vars as [|v vars IH]; simpl.
  - split; [|done]. intros _ envVar H. by apply elem_of_nil in H.
  - case_bool_decide as Hv.
    + split; [done|]. intros H. exfalso. apply (H v); [left | done].
    + rewrite IH. split.
      * intros H envVar [->|He]%elem_of_cons; [done | by apply H].
      * intros H envVar He. apply H. by right.
Qed.

Lemma hasKubeConfig_true env :
  packetProvider.hasKubeConfig env = true
  <-> exists e, e ∈ env /\ GoStrings.HasPrefix e "KUBECONFIG=" = true.
Proof.
  unfold packetProvider.hasKubeConfig. induction env as [|e env IH]; simpl.
  - split; [done|]. intros (e & He & _). by apply elem_of_nil in He.
  - rewrite orb_true_iff, IH. split.
    + intros [H|(e' & He' & H)]; [exists e; split; [left|done]|].
      exists e'. split; [by right | done].
    + intros (e' & [->|He']%elem_of_cons & H); [by left|]. right. eauto.
Qed.

Lemma length_pos_iff {A} (l : list A) : (0 < length l)%nat <-> l <> [].
Proof. destruct l; simpl; split; (done || lia). Qed.

#[local] Set Warnings "-clear-no-such-hyp".

Lemma ValidateConfig_accepted (environ : gmap string string)
      (cfg : ClusterProviderConfig) :
  packetProvider.ValidateConfig environ cfg = None <-> accepted environ cfg.
Proof.
  unfold packetProvider.ValidateConfig, accepted.
  destruct (Packet cfg) as [pk|]; [|split; [done | by intros (pk & ? & _)]].
  split.
  - intros H. exists pk. split; [done|].
    assert (forall A (l : list A),
               bool_decide (0 < length l)%nat = negb (bool_decide (l = [])))
      as Hlen by (by intros A [|x l]).
    assert (forall A (l : list A),
               bool_decide (length l = 0%nat) = bool_decide (l = []))
      as Hlen0 by (by intros A [|x l]).
    rewrite !Hlen, !Hlen0, !negb_involutive in H.
    destruct (bool_decide (HardwareDevices pk = [])) eqn:E1;
      destruct (bool_decide (Devices pk = [])) eqn:E2; simpl in H; try done.
    all: destruct (bool_decide (HardwareReservations pk = [])) eqn:E3;
      simpl in H; try done.
    all: destruct (bool_decide (Facilities pk = [])) eqn:E4; simpl in H; try done.
    all: destruct (bool_decide (Scripts cfg !! configScript = None)) eqn:E5,
           (packetProvider.hasKubeConfig (Env cfg)) eqn:E6; simpl in H; try done.
    all: destruct (bool_decide (Scripts cfg !! startScript = None)) eqn:E7;
      simpl in H; try done.
    all: destruct (packetProvider.envCheckLoop environ _ _) eqn:E8; try done.
    all: destruct (bool_decide (Getenv environ "PACKET_AUTH_TOKEN" = "")) eqn:E9;
      try done.
    all: destruct (bool_decide (Getenv environ "PACKET_PROJECT_ID" = "")) eqn:E10;
      try done.
    all: repeat match goal with
                | E : bool_decide _ = true |- _ => apply bool_decide_eq_true in E
                | E : bool_decide _ = false |- _ => apply bool_decide_eq_false in E
                end.
    all: pose proof (proj1 (envCheckLoop_None _ _ _) E8) as Hcheck; clear E8;
      try apply hasKubeConfig_true in E6.
    all: rewrite <- ?not_eq_None_Some in *.
    all: clear H Hlen Hlen0.
    all: naive_solver.
  - intros (pk' & [= <-] & Hdev & Hres & Hfac & Hcfg & Hstart & Hcheck & Htok & Hproj).
    rewrite (proj2 (envCheckLoop_None environ (EnvCheck cfg) _) Hcheck).
    rewrite (bool_decide_eq_false_2 (Getenv environ "PACKET_AUTH_TOKEN" = "")) by done.
    rewrite (bool_decide_eq_false_2 (Getenv environ "PACKET_PROJECT_ID" = "")) by done.
    rewrite (bool_decide_eq_false_2 (Scripts cfg !! startScript = None))
      by (by apply not_eq_None_Some).
    assert (bool_decide (Scripts cfg !! configScript = None)
            && negb (packetProvider.hasKubeConfig (Env cfg)) = false) as ->.
    { destruct Hcfg as [Hc|Hk].
      - rewrite bool_decide_eq_false_2; [done | by apply not_eq_None_Some].
      - apply hasKubeConfig_true in Hk. rewrite Hk. apply andb_false_r. }
    destruct (HardwareDevices pk) as [|hd hds] eqn:Hhd,
             (Devices pk) as [|fd fds] eqn:Hfd; simpl.
    + by destruct Hdev.
    + rewrite bool_decide_eq_false_2; [done|].
      rewrite length_zero_iff_nil. by apply Hfac.
    + rewrite bool_decide_eq_false_2; [done|].
      rewrite length_zero_iff_nil. by apply Hres.
    + rewrite !bool_decide_eq_false_2; [done|..];
        rewrite length_zero_iff_nil; [by apply Hfac | by apply Hres].
Qed.

(** C6, as amended.  [ValidateConfig] returns nil exactly for the
    configurations it accepts: a packet element with devices and, for
    them, hardware reservations or facilities, a config script or a
    [KUBECONFIG=] entry, a start script, a non-empty value for every
    variable of [EnvCheck], and non-empty [PACKET_AUTH_TOKEN] and
    [PACKET_PROJECT_ID], which it looks up itself whether [EnvCheck] lists
    them or not.  So it returns an error whenever a variable of [EnvCheck]
    is unset or empty, and whenever one of the two Packet variables is. *)
Theorem ValidateConfig_nil_iff (environ : gmap string string)
        (cfg : ClusterProviderConfig) :
  (packetProvider.ValidateConfig environ cfg = None <-> accepted environ cfg)
  /\ (forall envVar,
         envVar ∈ EnvCheck cfg -> Getenv environ envVar = "" ->
         is_Some (packetProvider.ValidateConfig environ cfg))
  /\ (Getenv environ "PACKET_AUTH_TOKEN" = ""
      \/ Getenv environ "PACKET_PROJECT_ID" = "" ->
      is_Some (packetProvider.ValidateConfig environ cfg)).
Proof.
  split; [apply ValidateConfig_accepted|]. split.
  - intros envVar He Hv. apply not_eq_None_Some. rewrite ValidateConfig_accepted.
    intros (pk & _ & _ & _ & _ & _ & _ & Hcheck & _). by apply (Hcheck envVar).
  - intros Hv. apply not_eq_None_Some. rewrite ValidateConfig_accepted.
    intros (pk & _ & _ & _ & _ & _ & _ & _ & Htok & Hproj). by destruct Hv.
Qed.

(** C6, as stated, fails: the sample configuration checks no variable
    through [EnvCheck], and [ValidateConfig] still returns an error in the
    empty environment, for [PACKET_AUTH_TOKEN]. *)
Lemma ValidateConfig_fails_without_EnvCheck :
  EnvCheck (sample.providerConfig "packet" []) = []
  /\ packetProvider.ValidateConfig ∅ (sample.providerConfig "packet" [])
     = Some "environment variable are not specified PACKET_AUTH_TOKEN".
Proof. split; reflexivity. Qed.

Example ValidateConfig_sample :
  packetProvider.ValidateConfig sample.environment
                                (sample.providerConfig "packet" ["PACKET_PROJECT_ID"])
  = None.
Proof. reflexivity. Qed.

End ProviderFacts.

(** ** The ordinals of [CreateCluster] *)
Lemma wrap64_id v : - 2^63 <= v < 2^63 -> wrap64 v = v.
Proof. intros H. unfold wrap64. rewrite Z.mod_small; lia. Qed.

Section Ordinals.
Import config providers packet.
Variables (p : packetProvider.t) (P : string) (N : Z).
Hypothesis Hin : ordinalsWithin p N.
Hypothesis HN : 0 <= N < 2^63 - 1.

Lemma getProviderID_indexes :
  packetProvider.indexes (packetProvider.getProviderID p P).2
  = <[P := lastOrdinal p P + 1]> (packetProvider.indexes p).
Proof.
  unfold packetProvider.getProviderID, lastOrdinal. simpl. f_equal.
  destruct (packetProvider.indexes p !! P) as [v|] eqn:Hv; [|done].
  simpl. specialize (Hin P v Hv). apply wrap64_id. lia.
Qed.

Lemma getProviderID_text :
  (packetProvider.getProviderID p P).1 = pretty (lastOrdinal p P + 1).
Proof.
  unfold packetProvider.getProviderID, lastOrdinal. simpl. f_equal.
  destruct (packetProvider.indexes p !! P) as [v|] eqn:Hv; [|done].
  simpl. specialize (Hin P v Hv). apply wrap64_id. lia.
Qed.

Lemma getProviderID_lastOrdinal Q :
  lastOrdinal (packetProvider.getProviderID p P).2 Q
  = if bool_decide (Q = P) then lastOrdinal p P + 1 else lastOrdinal p Q.
Proof.
  unfold lastOrdinal at 1. rewrite getProviderID_indexes.
  case_bool_decide as HQ.
  - subst Q. by rewrite lookup_insert_eq.
  - by rewrite lookup_insert_ne.
Qed.

Lemma getProviderID_within :
  ordinalsWithin (packetProvider.getProviderID p P).2 (N + 1).
Proof.
  intros Q v. rewrite getProviderID_indexes.
  destruct (decide (P = Q)) as [<-|Hne].
  - rewrite lookup_insert_eq. intros [= <-]. unfold lastOrdinal.
    destruct (packetProvider.indexes p !! P) as [v|] eqn:Hv; simpl; [|lia].
    specialize (Hin P v Hv). lia.
  - rewrite lookup_insert_ne by done. intros Hv. specialize (Hin Q v Hv). lia.
Qed.
End Ordinals.

Section CreateClusters.
Import config providers packet.
Context {W : Type} (ext : External W).

(** A call either fails validation and leaves the provider as it was, or
    makes the instance with the next ordinal of its name. *)
Lemma CreateCluster_cases w p cfg factory options N :
  ordinalsWithin p N -> 0 <= N < 2^63 - 1 ->
  let r := CreateCluster ext w p cfg factory options in
  (r.1.1 = None /\ r.2 = p)
  \/ (exists pi, r.1.1 = Some pi
        /\ packetInstance.config pi = cfg
        /\ packetInstance.id pi
           = ProviderName cfg +:+ "-"
             +:+ pretty (lastOrdinal p (ProviderName cfg) + 1)
        /\ r.2 = (packetProvider.getProviderID p (ProviderName cfg)).2).
Proof.
  intros Hin HN. unfold CreateCluster.
  destruct (packetProvider.ValidateConfig _ cfg); [by left|].
  pose proof (getProviderID_text p (ProviderName cfg) N Hin HN) as Ht.
  destruct (packetProvider.getProviderID p (ProviderName cfg)) as [ordinal p'].
  simpl in *. right. eexists. split; [done|]. simpl. by rewrite Ht.
Qed.

Lemma createClusters_ids P calls : forall p N,
  ordinalsWithin p N -> 0 <= N -> N + Z.of_nat (length calls) < 2^63 ->
  forall n id,
    createdFor P (createClusters ext p calls).1 !! n = Some id ->
    id = P +:+ "-" +:+ pretty (lastOrdinal p P + Z.of_nat (S n)).
Proof.
  induction calls as [|[[[w cfg] factory] options] calls IH]; intros p N Hin HN0 HN n id.
  - done.
  - simpl in HN. simpl.
    pose proof (CreateCluster_cases w p cfg factory options N Hin ltac:(lia)) as Hc.
    destruct (CreateCluster ext w p cfg factory options) as [[oi err] p'].
    simpl in Hc.
    destruct (createClusters ext p' calls) as [rs p''] eqn:Hrs.
    assert (rs = (createClusters ext p' calls).1) as -> by by rewrite Hrs.
    simpl. destruct Hc as [[-> ->]|(pi & -> & Hcfg & Hid & Hp')].
    + simpl. apply (IH p N); [done|lia..].
    + assert (ordinalsWithin p' (N + 1)) as Hin'
        by (rewrite Hp'; apply getProviderID_within; [done|lia]).
      assert (forall Q, lastOrdinal p' Q
                        = if bool_decide (Q = ProviderName cfg)
                          then lastOrdinal p (ProviderName cfg) + 1
                          else lastOrdinal p Q) as Hlast
        by (intros Q; rewrite Hp'; apply (getProviderID_lastOrdinal _ _ N);
            [done|lia]).
      simpl. rewrite Hcfg. case_bool_decide as HP.
      * destruct n as [|n]; simpl.
        -- intros [= <-]. rewrite Hid, HP. do 3 f_equal; lia.
        -- intros Hn. apply (IH _ (N + 1)) in Hn; [|done|lia..].
           rewrite Hn, Hlast, bool_decide_eq_true_2 by done.
           rewrite HP. do 3 f_equal; lia.
      * intros Hn. apply (IH _ (N + 1)) in Hn; [|done|lia..].
        rewrite Hn, Hlast, bool_decide_eq_false_2 by done. done.
Qed.
Lemma createClusters_answered calls : forall p,
Forall2 (answered ext) calls (createClusters ext p calls).1.
Proof.
induction calls as [|[[[w cfg] factory] options] calls IH]; intros p; simpl.
- constructor.
- destruct (CreateCluster ext w p cfg factory options) as [r p'] eqn:Hr.
  specialize (IH p'). destruct (createClusters ext p' calls) as [rs p''].
  simpl in *. constructor; [|done].
  unfold answered, CreateCluster in *. simpl.
  destruct (packetProvider.ValidateConfig _ cfg) as [err|]; [by simplify_eq|].
  destruct (packetProvider.getProviderID p (ProviderName cfg)) as [ordinal p1].
  simplify_eq. by eexists.
Qed.

Lemma CreateCluster_validated w p cfg factory options N :
ordinalsWithin p N -> 0 <= N < 2^63 - 1 ->
match packetProvider.ValidateConfig (Environ W ext w) cfg with
| Some err => CreateCluster ext w p cfg factory options = ((None, Some err), p)
| None =>
  exists pi,
    CreateCluster ext w p cfg factory options
    = ((Some pi, None), (packetProvider.getProviderID p (ProviderName cfg)).2)
    /\ packetInstance.config pi = cfg
    /\ packetInstance.id pi
       = ProviderName cfg +:+ "-"
         +:+ pretty (lastOrdinal p (ProviderName cfg) + 1)
end.
Proof.
intros Hin HN. unfold CreateCluster.
destruct (packetProvider.ValidateConfig _ cfg); [done|].
pose proof (getProviderID_text p (ProviderName cfg) N Hin HN) as Ht.
destruct (packetProvider.getProviderID p (ProviderName cfg)) as [ordinal p'].
simpl in *. eexists. split; [done|]. simpl. by rewrite Ht.
Qed.

Lemma createClusters_list P calls : forall p N,
ordinalsWithin p N -> 0 <= N -> N + Z.of_nat (length calls) < 2^63 ->
createdFor P (createClusters ext p calls).1
= (fun n : nat => P +:+ "-" +:+ pretty (lastOrdinal p P + Z.of_nat n))
    <$> seq 1 (acceptedFor ext P calls).
Proof.
induction calls as [|[[[w cfg] factory] options] calls IH]; intros p N Hin HN0 HN.
- done.
- simpl in HN. simpl.
  pose proof (CreateCluster_validated w p cfg factory options N Hin ltac:(lia))
    as Hc.
  destruct (packetProvider.ValidateConfig _ cfg) as [err|] eqn:Hv.
  + rewrite Hc. simpl.
    destruct (createClusters ext p calls) as [rs p''] eqn:Hrs.
    assert (rs = (createClusters ext p calls).1) as -> by by rewrite Hrs.
    simpl. apply (IH p N); [done|lia..].
  + destruct Hc as (pi & -> & Hcfg & Hid).
    set (p' := (packetProvider.getProviderID p (ProviderName cfg)).2).
    assert (ordinalsWithin p' (N + 1)) as Hin'
        by (apply getProviderID_within; [done|lia]).
    assert (forall Q, lastOrdinal p' Q
                      = if bool_decide (Q = ProviderName cfg)
                        then lastOrdinal p (ProviderName cfg) + 1
                        else lastOrdinal p Q) as Hlast
        by (intros Q; apply (getProviderID_lastOrdinal _ _ N); [done|lia]).
    destruct (createClusters ext p' calls) as [rs p''] eqn:Hrs.
    assert (rs = (createClusters ext p' calls).1) as -> by by rewrite Hrs.
    simpl. rewrite Hcfg.
    rewrite (IH p' (N + 1)) by (done || lia). rewrite Hlast.
    case_bool_decide as HP; simpl.
    * subst P. rewrite bool_decide_eq_true_2 by done. rewrite Hid. f_equal.
      rewrite <- (fmap_S_seq 1), <- list_fmap_compose. apply list_fmap_ext.
      intros i n _. simpl. do 3 f_equal. lia.
    * by rewrite bool_decide_eq_false_2 by done.
Qed.
End CreateClusters.

Section CreateClusterIds.
Import config providers packet.
Context {W : Type} (ext : External W).

Lemma ordinalsWithin_new root :
  ordinalsWithin (packetProvider.NewPacketClusterProvider root) 0.
Proof. intros P v H. simpl in H. by rewrite lookup_empty in H. Qed.

(** C9.  In a run of fewer than 2^63 [CreateCluster] calls on a new
    provider, every call whose configuration [ValidateConfig] accepts
    yields an instance, and every other call the error and no instance;
    the instances made for the configurations named [P] are, in the
    order of the calls, [P-1], [P-2], ... up to the number of accepted
    calls for [P].  So the [n]-th instance made for [P] gets the ID
    [P-n], counting from 1, and the IDs made for one name are all
    different. *)
Theorem CreateCluster_ids (root : string)
        (calls : list (W * ClusterProviderConfig * ValidationFactory W
                       * InstanceOptions))
        (P : string) :
  Z.of_nat (length calls) < 2^63 ->
  Forall2 (answered ext) calls
          (createClusters ext (packetProvider.NewPacketClusterProvider root) calls).1
  /\ createdFor P (createClusters ext (packetProvider.NewPacketClusterProvider root)
                                  calls).1
     = (fun n : nat => P +:+ "-" +:+ pretty (Z.of_nat n))
         <$> seq 1 (acceptedFor ext P calls)
  /\ (forall (n : nat) (id : string),
         (1 <= n)%nat ->
         createdFor P (createClusters ext (packetProvider.NewPacketClusterProvider root)
                                      calls).1 !! (n - 1)%nat = Some id ->
         id = P +:+ "-" +:+ pretty (Z.of_nat n))
  /\ NoDup (createdFor P (createClusters ext
                            (packetProvider.NewPacketClusterProvider root) calls).1).
Proof.
  intros Hlen.
  assert (forall n id,
             createdFor P (createClusters ext
                             (packetProvider.NewPacketClusterProvider root) calls).1
             !! n = Some id ->
             id = P +:+ "-" +:+ pretty (Z.of_nat (S n))) as Hids.
  { intros n id Hn.
    apply (createClusters_ids ext P calls _ 0 (ordinalsWithin_new root)) in Hn;
      [|lia..].
    rewrite Hn. unfold lastOrdinal. simpl. rewrite lookup_empty. simpl.
    do 3 f_equal; lia. }
  split; [apply createClusters_answered|]. split; [|split].
  - rewrite (createClusters_list ext P calls _ 0 (ordinalsWithin_new root))
      by lia.
    apply list_fmap_ext. intros i n _. unfold lastOrdinal. simpl.
    by rewrite lookup_empty.
  - intros n id Hn Hid. apply Hids in Hid. rewrite Hid. do 3 f_equal; lia.
  - apply NoDup_alt. intros i j id Hi Hj.
    apply Hids in Hi. apply Hids in Hj. rewrite Hi in Hj.
    apply (inj (String.app P)), (inj (String.app "-")), (inj pretty) in Hj. lia.
Qed.

End CreateClusterIds.

(** Four calls: for the name [a], for [a] again in an environment
    without the Packet variables, which [ValidateConfig] rejects, for
    [b], and for [a] once more.  Two instances are made for [a]. *)
Lemma CreateCluster_ids_witness :
  let calls :=
      [ (sample.environment, sample.providerConfig "a" [],
         tests.TestValidationFactory, sample.options);
        (∅, sample.providerConfig "a" [],
         tests.TestValidationFactory, sample.options);
        (sample.environment, sample.providerConfig "b" [],
         tests.TestValidationFactory, sample.options);
        (sample.environment, sample.providerConfig "a" [],
         tests.TestValidationFactory, sample.options) ] in
  let results :=
      (packet.createClusters sample.calm
         (packet.packetProvider.NewPacketClusterProvider "/tmp/ct") calls).1 in
  acceptedFor sample.calm "a" calls = 2%nat
  /\ createdFor "a" results !! 1%nat = Some "a-2"
  /\ Forall2 (answered sample.calm) calls results
  /\ createdFor "a" results
     = (fun n : nat => "a" +:+ "-" +:+ pretty (Z.of_nat n))
         <$> seq 1 (acceptedFor sample.calm "a" calls)
  /\ (forall (n : nat) (id : string),
         (1 <= n)%nat ->
         createdFor "a" results !! (n - 1)%nat = Some id ->
         id = "a" +:+ "-" +:+ pretty (Z.of_nat n))
  /\ NoDup (createdFor "a" results).
Proof.
  intros calls results.
  split; [vm_compute; reflexivity|]. split; [vm_compute; reflexivity|].
  apply CreateCluster_ids. simpl. lia.
Defined.

Example createClusters_sample :
  createdFor "a"
    (packet.createClusters sample.calm
       (packet.packetProvider.NewPacketClusterProvider "/tmp/ct")
       [ (sample.environment, sample.providerConfig "a" [],
          tests.TestValidationFactory, sample.options);
         (∅, sample.providerConfig "a" [],
          tests.TestValidationFactory, sample.options);
         (sample.environment, sample.providerConfig "b" [],
          tests.TestValidationFactory, sample.options);
         (sample.environment, sample.providerConfig "a" [],
          tests.TestValidationFactory, sample.options) ]).1
  = ["a-1"; "a-2"].
Proof. vm_compute. reflexivity. Qed.

(** ** The methods of a packet instance *)
Section Hoare.
Import config providers packet.
Import packetInstance.
Context {W : Type} (ext : External W).
Variable R : string -> option error -> t W -> Prop.
Variable X : t W -> Prop.
Local Abbreviation triple := (hoare R X).

Lemma hoare_ret {A} (P : t W -> Prop) (a : A) (Q : A -> t W -> Prop) :
  (forall pi, P pi -> Q a pi) -> triple P (ret a) Q.
Proof. intros H s Hs. by apply H. Qed.

Lemma hoare_bind {A B} P (m : M W A) (k : A -> M W B) Q1 Q2 :
  triple P m Q1 -> (forall a, triple (Q1 a) (k a) Q2) -> triple P (bind m k) Q2.
Proof.
  intros Hm Hk s Hs. specialize (Hm s Hs). unfold bind.
  destruct (m s) as [[a|f e|msg] s']; [|done..]. by apply Hk.
Qed.

Lemma hoare_returns {A} P fileName err (Q : A -> t W -> Prop) :
  (forall pi, P pi -> R fileName err pi) -> triple P (returns fileName err) Q.
Proof. intros H s Hs. by apply H. Qed.

Lemma hoare_panic {A} P msg (Q : A -> t W -> Prop) :
  (forall pi, P pi -> X pi) -> triple P (panic msg) Q.
Proof. intros H s Hs. by apply H. Qed.

Lemma hoare_this P : triple P this (fun a pi => a = pi /\ P pi).
Proof. intros s Hs. by split. Qed.

Lemma hoare_assign P f (Q : unit -> t W -> Prop) :
  (forall pi, P pi -> Q tt (f pi)) -> triple P (assign f) Q.
Proof. intros H s Hs. by apply H. Qed.

Lemma hoare_call {A} P (op : W -> A * W) : triple P (call op) (fun _ => P).
Proof. intros s Hs. unfold call. by destruct (op (world s)). Qed.

Lemma hoare_request {A} P (op : W -> A * W) :
  (forall pi, P pi -> X pi) -> triple P (request op) (fun _ => P).
Proof.
  intros H s Hs. unfold request. destruct (client W (self s)); [|by apply H].
  unfold call. by destruct (op (world s)).
Qed.

Lemma hoare_effect P (op : W -> W) : triple P (effect op) (fun _ => P).
Proof. by intros s Hs. Qed.

Lemma hoare_look {A} P (op : W -> A) : triple P (look op) (fun _ => P).
Proof. by intros s Hs. Qed.

Lemma hoare_weaken {A} (P P' : t W -> Prop) (m : M W A) (Q Q' : A -> t W -> Prop) :
  triple P' m Q' -> (forall pi, P pi -> P' pi) -> (forall a pi, Q' a pi -> Q a pi) ->
  triple P m Q.
Proof.
  intros Hm HP HQ s Hs. specialize (Hm s (HP _ Hs)).
  destruct (m s) as [[a|f e|msg] s']; [by apply HQ|done..].
Qed.

(** With an invariant [P] that every error return keeps. *)
Section Invariant.
Variable P : t W -> Prop.
Hypothesis Herr : forall fileName e pi, P pi -> R fileName (Some e) pi.
Hypothesis Hpanic : forall pi, P pi -> X pi.

Lemma inv_bind {A B} (m : M W A) (k : A -> M W B) Q :
  triple P m (fun _ => P) -> (forall a, triple P (k a) Q) -> triple P (bind m k) Q.
Proof. intros Hm Hk. by eapply hoare_bind. Qed.

Lemma inv_this {B} (k : t W -> M W B) Q :
  (forall a, triple P (k a) Q) -> triple P (bind this k) Q.
Proof.
  intros Hk. eapply hoare_bind; [apply hoare_this|].
  intros a. eapply hoare_weaken; [apply Hk| |done]. by intros pi [_ ?].
Qed.

Lemma inv_orFail (c : M W (option error)) :
  triple P c (fun _ => P) -> triple P (orFail c) (fun _ => P).
Proof.
  intros Hc. unfold orFail. eapply hoare_bind; [done|].
  intros [e|]; [apply hoare_returns; eauto | by apply hoare_ret].
Qed.

Lemma inv_orFailWith (c : M W (string * option error)) :
  triple P c (fun _ => P) -> triple P (orFailWith c) (fun _ => P).
Proof.
  intros Hc. unfold orFailWith. eapply hoare_bind; [done|].
  intros [f [e|]]; [apply hoare_returns; eauto | by apply hoare_ret].
Qed.

Lemma inv_doInstall : triple P (doInstall ext) (fun _ => P).
Proof.
  intros s Hs. unfold doInstall.
  destruct (_ && _); [|done]. unfold call. simpl.
  by destruct (RunCmd _ _ _ _ _ _).
Qed.
End Invariant.
End Hoare.

Section StartInvariant.
Import config providers packet.
Import packetInstance.
Context {W : Type} (ext : External W).
Variable R : string -> option error -> t W -> Prop.
Variable X : t W -> Prop.
Variable P : t W -> Prop.
Local Abbreviation triple := (hoare R X).

Hypothesis Herr : forall fileName e pi, P pi -> R fileName (Some e) pi.
Hypothesis Hpanic : forall pi, P pi -> X pi.
Hypothesis Hkeeps : keeps P.

Local Lemma keeps_client v pi : P pi -> P (set_client v pi).
Proof. apply Hkeeps. Qed.
Local Lemma keeps_project v pi : P pi -> P (set_project v pi).
Proof. apply Hkeeps. Qed.
Local Lemma keeps_keyID v pi : P pi -> P (set_keyID v pi).
Proof. apply Hkeeps. Qed.
Local Lemma keeps_sshKey v pi : P pi -> P (set_sshKey v pi).
Proof. apply Hkeeps. Qed.
Local Lemma keeps_keyIds v pi : P pi -> P (set_keyIds v pi).
Proof. apply Hkeeps. Qed.
Local Lemma keeps_virtualNetworkList v pi : P pi -> P (set_virtualNetworkList v pi).
Proof. apply Hkeeps. Qed.
Local Lemma keeps_hardwareReservationsList v pi : P pi -> P (set_hardwareReservationsList v pi).
Proof. apply Hkeeps. Qed.
Local Lemma keeps_facilitiesList v pi : P pi -> P (set_facilitiesList v pi).
Proof. apply Hkeeps. Qed.
Local Lemma keeps_devices v pi : P pi -> P (set_devices v pi).
Proof. apply Hkeeps. Qed.
Local Lemma keeps_validator v pi : P pi -> P (set_validator v pi).
Proof. apply Hkeeps. Qed.
Local Hint Resolve keeps_client keeps_project keeps_keyID keeps_sshKey keeps_keyIds keeps_virtualNetworkList
      keeps_hardwareReservationsList keeps_facilitiesList keeps_devices keeps_validator : core.
Hypothesis Hkube : triple P (updateKUBEConfig ext) (fun _ => P).
Hypothesis Hfinal :
  forall v pi, P pi -> R "" None (set_started true (set_validator (Some v) pi)).

Ltac inv_step :=
  lazymatch goal with
  | |- hoare _ _ _ (request _) _ => apply hoare_request; by eauto
  | |- hoare _ _ _ (bind this _) _ => apply inv_this; intros ?
  | |- hoare _ _ _ (bind _ _) _ => apply (inv_bind R X P); [| intros ?]
  | |- hoare _ _ _ (orFail _) _ => apply (inv_orFail R X P); [by eauto|]
  | |- hoare _ _ _ (orFailWith _) _ => apply (inv_orFailWith R X P); [by eauto|]
  | |- hoare _ _ _ (call _) _ => apply hoare_call
  | |- hoare _ _ _ (effect _) _ => apply hoare_effect
  | |- hoare _ _ _ (look _) _ => apply hoare_look
  | |- hoare _ _ _ (assign _) _ => apply hoare_assign; by eauto
  | |- hoare _ _ _ (ret _) _ => apply hoare_ret; by eauto
  | |- hoare _ _ _ (returns _ _) _ => apply hoare_returns; by eauto
  | |- hoare _ _ _ (panic _) _ => apply hoare_panic; by eauto
  | |- hoare _ _ _ (doInstall _) _ => apply (inv_doInstall ext R X P)
  end.

Lemma inv_updateProject : triple P (updateProject ext) (fun _ => P).
Proof.
  unfold updateProject.
  apply (inv_bind R X P); [inv_step|]. intros [[ps response] err].
  repeat inv_step. destruct (project _); repeat inv_step.
Qed.

Lemma inv_findKeys : triple P (findKeys ext) (fun _ => P).
Proof.
  unfold findKeys.
  apply (inv_bind R X P); [inv_step|]. intros [sshKeys ?].
  repeat inv_step.
Qed.

Lemma inv_createKey keyFile : triple P (createKey ext keyFile) (fun _ => P).
Proof.
  unfold createKey. repeat inv_step.
  match goal with |- context [match ?o with Some _ => _ | None => _ end] =>
                  destruct o end; repeat inv_step.
  match goal with a : (_ * _)%type |- _ => destruct a as [content [e|]] end;
    repeat inv_step.
  destruct (project _); repeat inv_step.
  match goal with a : (_ * _)%type |- _ => destruct a as [created err] end.
  apply (inv_bind R X P).
  { destruct created; [repeat inv_step | apply inv_findKeys]. }
  intros [sshKey ids]. repeat inv_step. destruct sshKey; repeat inv_step.
Qed.

Lemma inv_createRequest devCfg : triple P (createRequest ext devCfg) (fun _ => P).
Proof.
  unfold createRequest. apply (inv_bind R X P); [apply hoare_look|]. intros finalEnv.
  destruct (environmentLoop ext finalEnv ∅); [|repeat inv_step].
  apply (inv_bind R X P); [apply hoare_look|]. intros arguments.
  destruct (SubstituteVariable _ _ _ _ _) as [hostName [e|]]; repeat inv_step.
Qed.

Lemma inv_reservationsLoop name devReq reservations :
  triple P (reservationsLoop ext name devReq reservations) (fun _ => P).
Proof.
  revert devReq. induction reservations as [|hr rest IH]; intros devReq; simpl.
  - repeat inv_step.
  - apply (inv_bind R X P); [inv_step|]. intros [device [e|]].
    + apply inv_this. intros pi.
      apply (inv_bind R X P); [apply hoare_effect|]. intros _.
      repeat case_match; first [apply IH | solve [repeat inv_step]].
    + repeat inv_step.
Qed.

Lemma inv_createHardwareDevice devCfg :
  triple P (createHardwareDevice ext devCfg) (fun _ => P).
Proof.
  unfold createHardwareDevice.
  apply (inv_bind R X P); [apply inv_createRequest|]. intros [[devReq|] [e|]].
  - repeat inv_step.
  - apply inv_this. intros pi. apply inv_reservationsLoop.
  - repeat inv_step.
  - repeat inv_step.
Qed.

Lemma inv_facilitiesLoop name devReq facilities :
  triple P (facilitiesLoop ext name devReq facilities) (fun _ => P).
Proof.
  revert devReq. induction facilities as [|facility rest IH]; intros devReq; simpl.
  - repeat inv_step.
  - apply (inv_bind R X P); [inv_step|]. intros [device [e|]].
    + apply inv_this. intros pi.
      apply (inv_bind R X P); [apply hoare_effect|]. intros _.
      repeat case_match; first [apply IH | solve [repeat inv_step]].
    + repeat inv_step.
Qed.

Lemma inv_createFacilityDevice devCfg :
  triple P (createFacilityDevice ext devCfg) (fun _ => P).
Proof.
  unfold createFacilityDevice.
  apply (inv_bind R X P); [apply inv_createRequest|]. intros [[devReq|] [e|]].
  - repeat inv_step.
  - apply inv_this. intros pi. apply inv_facilitiesLoop.
  - repeat inv_step.
  - repeat inv_step.
Qed.

Lemma inv_findHardwareReservations :
  triple P (findHardwareReservations ext) (fun _ => P).
Proof.
  unfold findHardwareReservations. apply inv_this. intros pi.
  apply (inv_bind R X P); [inv_step|].
  intros [[hardwareReservations response] [e|]]; [repeat inv_step|].
  repeat case_match; solve [repeat inv_step].
Qed.

Lemma inv_findFacilities : triple P (findFacilities ext) (fun _ => P).
Proof.
  unfold findFacilities. apply inv_this. intros pi.
  apply (inv_bind R X P); [inv_step|]. intros [e|]; [repeat inv_step|].
  apply (inv_bind R X P); [inv_step|].
  intros [[facilities response] [e|]]; [repeat inv_step|].
  repeat case_match; solve [repeat inv_step].
Qed.

Lemma inv_portsLoop key portVLANs :
  triple P (portsLoop ext key portVLANs) (fun _ => P).
Proof.
  induction portVLANs as [|[portName vlanTag] rest IH]; simpl.
  - repeat inv_step.
  - apply inv_this. intros pi.
    apply (inv_bind R X P); [inv_step|]. intros [device [e|]];
      [repeat inv_step|].
    destruct (GetPortByName device portName) as [[port|] [e|]];
      try solve [repeat inv_step].
    apply (inv_bind R X P); [destruct (portBonded port); repeat inv_step|].
    intros [e|]; [repeat inv_step|].
    destruct (findVlan pi vlanTag) as [[vlan|] [e|]]; try solve [repeat inv_step].
    apply (inv_bind R X P); [inv_step|]. intros [e|]; [repeat inv_step|].
    apply IH.
Qed.

Lemma inv_setupDevicePorts key portVLANs :
  triple P (setupDevicePorts ext key portVLANs) (fun _ => P).
Proof.
  unfold setupDevicePorts. apply inv_this. intros pi.
  apply (inv_bind R X P); [inv_step|]. intros [e|]; [repeat inv_step|].
  apply inv_portsLoop.
Qed.

Lemma inv_networkLoop key network :
  triple P (networkLoop ext key network) (fun _ => P).
Proof.
  induction network as [|n rest IH]; simpl; [repeat inv_step|].
  do 3 (apply (inv_bind R X P); [apply hoare_effect|]; intros _). apply IH.
Qed.

Lemma inv_devicesLoop entries : triple P (devicesLoop ext entries) (fun _ => P).
Proof.
  induction entries as [|[key devID] rest IH]; simpl; [repeat inv_step|].
  apply (inv_bind R X P); [inv_step|]. intros [dev [e|]];
    [repeat inv_step|].
  apply (inv_bind R X P); [apply inv_networkLoop|]. intros _. apply IH.
Qed.

Lemma inv_addDeviceContextArguments :
  triple P (addDeviceContextArguments ext) (fun _ => P).
Proof.
  unfold addDeviceContextArguments. apply inv_this. intros pi. apply inv_devicesLoop.
Qed.

Lemma inv_hardwareDevicesLoop devs portsVLANs :
  triple P (hardwareDevicesLoop ext devs portsVLANs) (fun _ => P).
Proof.
  revert portsVLANs. induction devs as [|devCfg devs IH]; intros portsVLANs; simpl.
  - repeat inv_step.
  - apply (inv_bind R X P); [apply inv_createHardwareDevice|]. intros [devID [e|]].
    + repeat inv_step.
    + apply (inv_bind R X P); [repeat inv_step|]. intros _. apply IH.
Qed.

Lemma inv_facilityDevicesLoop devs portsVLANs :
  triple P (facilityDevicesLoop ext devs portsVLANs) (fun _ => P).
Proof.
  revert portsVLANs. induction devs as [|devCfg devs IH]; intros portsVLANs; simpl.
  - repeat inv_step.
  - apply (inv_bind R X P); [apply inv_createFacilityDevice|]. intros [devID [e|]].
    + repeat inv_step.
    + apply (inv_bind R X P); [repeat inv_step|]. intros _. apply IH.
Qed.

Lemma inv_setupPortsLoop entries :
  triple P (setupPortsLoop ext entries) (fun _ => P).
Proof.
  induction entries as [|[key portVLANs] entries IH]; simpl.
  - repeat inv_step.
  - apply (inv_bind R X P);
      [apply inv_orFail; [by eauto | apply inv_setupDevicePorts]|].
    intros _. apply IH.
Qed.

(** [Start] keeps [P] up to each of its error returns and ends, when it
    succeeds, on an instance that got its validator and was then marked
    started. *)
Lemma Start_hoare timeout : triple P (Start ext timeout) (fun _ _ => False).
Proof.
  unfold Start.
  apply inv_this; [done..|]. intros pi.
  do 2 (apply (inv_bind R X P); [done.. | repeat inv_step |]; intros ?).
  apply (inv_bind R X P); [done..| |intros ?].
  { destruct (negb _); repeat inv_step. }
  apply (inv_bind R X P); [done.. | repeat inv_step |]; intros ?.
  destruct (Packet (config pi)) as [pk|]; [|repeat inv_step].
  apply (inv_bind R X P); [done.. | repeat inv_step |]; intros found1.
  apply (inv_bind R X P); [done.. | |intros keyFile].
  { destruct found1; [repeat inv_step|].
    apply (inv_bind R X P); [done.. | repeat inv_step |]; intros found2.
    destruct found2; repeat inv_step. }
  do 3 (apply (inv_bind R X P); [done.. | repeat inv_step |]; intros ?).
  apply (inv_bind R X P); [done.. | apply inv_orFail, inv_updateProject; done |].
  intros _.
  apply (inv_bind R X P); [done.. | apply inv_createKey |]. intros [ids kerr].
  do 2 (apply (inv_bind R X P); [done.. | repeat inv_step |]; intros ?).
  apply (inv_bind R X P); [done.. | repeat inv_step |]. intros [networks verr].
  do 2 (apply (inv_bind R X P); [done.. | repeat inv_step |]; intros ?).
  apply (inv_bind R X P); [done.. | apply inv_findHardwareReservations |].
  intros [reservations herr].
  do 2 (apply (inv_bind R X P); [done.. | repeat inv_step |]; intros ?).
  apply (inv_bind R X P); [done.. | apply inv_hardwareDevicesLoop |].
  intros portsVLANs.
  apply (inv_bind R X P); [done.. | apply inv_findFacilities |].
  intros [facilities ferr].
  do 2 (apply (inv_bind R X P); [done.. | repeat inv_step |]; intros ?).
  apply (inv_bind R X P); [done.. | apply inv_facilityDevicesLoop |].
  intros portsVLANs'.
  apply inv_this; [done..|]. intros pi1.
  apply (inv_bind R X P); [done.. | repeat inv_step |]; intros ?.
  apply (inv_bind R X P); [done.. | apply inv_setupPortsLoop |]; intros ?.
  apply (inv_bind R X P);
    [done.. | apply inv_orFail; [by eauto | apply inv_addDeviceContextArguments] |].
  intros _.
  do 3 (apply (inv_bind R X P); [done.. | repeat inv_step |]; intros ?).
  apply (inv_bind R X P); [done.. | apply inv_orFail; done |]; intros ?.
  apply inv_this; [done..|]. intros pi3.
  apply (inv_bind R X P); [done.. | repeat inv_step |]. intros [created cverr].
  (* from here on the instance is a [P] instance with [created] as validator *)
  set (P' := fun pi => exists pi0, P pi0 /\ pi = set_validator created pi0).
  eapply (hoare_bind R X P _ _ (fun _ => P')).
  { apply hoare_assign. intros pi' Hpi'. by exists pi'. }
  intros _.
  assert (forall f e pi, P' pi -> R f (Some e) pi) as Herr'
    by (intros f e pi' (pi0 & H0 & ->); eauto).
  assert (forall pi, P' pi -> X pi) as Hpanic'
    by (intros pi' (pi0 & H0 & ->); eauto).
  apply (inv_bind R X P'); [apply inv_orFail; [done | by apply hoare_ret] |].
  intros _.
  apply (inv_bind R X P'); [apply inv_orFailWith; [done | apply hoare_call] |].
  intros fileName.
  destruct created as [v|]; [|by apply hoare_panic].
  apply (inv_bind R X P'); [apply hoare_call|]. intros [e|].
  - apply hoare_returns. eauto.
  - eapply (hoare_bind R X P' _ _
              (fun _ pi => exists pi0, P pi0
                           /\ pi = set_started true (set_validator (Some v) pi0))).
    + apply hoare_assign. intros pi' (pi0 & H0 & ->). by exists pi0.
    + intros _. apply hoare_returns. intros pi' (pi0 & H0 & ->). by apply Hfinal.
Qed.
End StartInvariant.

Section Instance.
Import config providers packet.
Import packetInstance.
Context {W : Type} (ext : External W).

Lemma keeps_started (b : bool) : keeps (fun pi : t W => started pi = b).
Proof. unfold keeps. repeat split; intros v pi H; exact H. Qed.

Lemma keeps_configLocation (c : string) :
  keeps (fun pi : t W => configLocation pi = c).
Proof. unfold keeps. repeat split; intros v pi H; exact H. Qed.

Lemma updateKUBEConfig_started R b :
  hoare R (fun pi => started pi = b)
        (fun pi => started pi = b) (updateKUBEConfig ext)
        (fun _ pi => started pi = b).
Proof.
  set (P := fun pi : t W => started pi = b).
  unfold updateKUBEConfig.
  apply inv_this. intros pi.
  eapply (hoare_bind _ _ P _ _ (fun _ => P)).
  { case_bool_decide; [|by apply hoare_ret].
    eapply hoare_bind; [apply hoare_look|]. intros loc. by apply hoare_assign. }
  intros _. apply inv_this. intros pi'.
  case_bool_decide; [|by apply hoare_ret].
  eapply hoare_bind; [apply hoare_call|]. intros [[|location output] err].
  - by apply hoare_panic.
  - eapply (hoare_bind _ _ P _ _ (fun _ => P)); [by apply hoare_assign|].
    intros _. by apply hoare_ret.
Qed.

(** [updateKUBEConfig] does nothing to an instance that has its location. *)
Lemma updateKUBEConfig_set s :
  configLocation (self s) <> "" -> updateKUBEConfig ext s = (Next None, s).
Proof.
  intros Hne. unfold updateKUBEConfig, bind, this, ret. simpl.
  rewrite bool_decide_eq_false_2 by done. simpl.
  by rewrite bool_decide_eq_false_2 by done.
Qed.

Lemma updateKUBEConfig_location R c :
  c <> "" ->
  hoare R (fun pi => configLocation pi = c)
        (fun pi => configLocation pi = c) (updateKUBEConfig ext)
        (fun _ pi => configLocation pi = c).
Proof.
  intros Hc s Hs. rewrite updateKUBEConfig_set; [done|]. by rewrite Hs.
Qed.

(** What [Start] does to the [started] flag and the validator. *)
Lemma Start_started timeout s :
  match run (Start ext timeout) s with
  | (Returned (_, None), s') =>
    started (self s') = true /\ is_Some (validator (self s'))
  | (Returned (_, Some _), s') | (Panicked _, s') =>
    started (self s') = started (self s)
  end.
Proof.
  pose proof (Start_hoare ext
    (fun _ err pi => match err with
                     | None => started pi = true /\ is_Some (validator pi)
                     | Some _ => started pi = started (self s)
                     end)
    (fun pi => started pi = started (self s))
    (fun pi => started pi = started (self s))) as H.
  specialize (H ltac:(done) ltac:(done) (keeps_started _)
                (updateKUBEConfig_started _ _)
                ltac:(by intros; split; [|eexists]) timeout s eq_refl).
  unfold run. destruct (Start ext timeout s) as [[[]|f [e|]|msg] s']; done.
Qed.

(** What [Start] does to a location that is set. *)
Lemma Start_location timeout s :
  configLocation (self s) <> "" ->
  configLocation (self (run (Start ext timeout) s).2) = configLocation (self s).
Proof.
  intros Hne.
  pose proof (Start_hoare ext
    (fun _ _ pi => configLocation pi = configLocation (self s))
    (fun pi => configLocation pi = configLocation (self s))
    (fun pi => configLocation pi = configLocation (self s))) as H.
  specialize (H ltac:(done) ltac:(done) (keeps_configLocation _)
                (updateKUBEConfig_location _ _ Hne) ltac:(done) timeout s eq_refl).
  unfold run. destruct (Start ext timeout s) as [[[]|f e|msg] s']; done.
Qed.
End Instance.

Section InstanceProperties.
Import config providers packet.
Import packetInstance.
Context {W : Type} (ext : External W).

Lemma CheckIsAlive_self (s : state W) : self (CheckIsAlive s).2 = self s.
Proof.
  unfold CheckIsAlive. destruct (started (self s)); [|done].
  destruct (validator (self s)) as [v|]; [|done]. by destruct (Validate v (world s)).
Qed.

(** C5, as amended.  When [Start] returns a nil error the instance is
    running, [GetClusterConfig] returns its location with a nil error, and
    [CheckIsAlive] returns what the validator's [Validate] returns; on an
    error return and on a panic the instance is running exactly if it was
    running before the call. *)
Theorem Start_then_running (timeout : Z) (s : state W) :
  match run (Start ext timeout) s with
  | (Returned (_, None), s') =>
    IsRunning (self s') = true
    /\ GetClusterConfig (self s') = (configLocation (self s'), None)
    /\ exists v, validator (self s') = Some v
                 /\ (CheckIsAlive s').1 = Returned (Validate v (world s')).1
  | (Returned (_, Some _), s') | (Panicked _, s') =>
    IsRunning (self s') = IsRunning (self s)
  end.
Proof.
  pose proof (Start_started ext timeout s) as H.
  destruct (run (Start ext timeout) s) as [[[fileName [e|]]|msg] s']; [done| |done].
  destruct H as [Hs [v Hv]]. unfold IsRunning, GetClusterConfig, CheckIsAlive.
  rewrite Hs, Hv. split; [done|]. split; [done|]. exists v. split; [done|].
  by destruct (Validate v (world s')).
Qed.

(** A call changes [started] only when it is a [Start] that returns nil. *)
Lemma invoke_started (m : method) (s : state W) :
  started (self (invoke ext m s)) = started (self s)
  \/ (started (self (invoke ext m s)) = true
      /\ exists timeout, m = mStart timeout /\ startsFrom ext timeout s).
Proof.
  destruct m as [timeout|timeout| | | | |]; simpl; try by left.
  - pose proof (Start_started ext timeout s) as H. unfold startsFrom.
    destruct (run (Start ext timeout) s) as [[[fileName [e|]]|msg] s'] eqn:Hrun;
      simpl; [by left| |by left].
    right. split; [apply H|]. exists timeout. split; [done|].
    exists fileName. by rewrite Hrun.
  - left. by rewrite CheckIsAlive_self.
Qed.

Lemma invokeAll_snoc (ms : list method) (m : method) (s : state W) :
  invokeAll ext (ms ++ [m]) s = invoke ext m (invokeAll ext ms s).
Proof. unfold invokeAll. by rewrite foldl_snoc. Qed.

Lemma GetClusterConfig_nil (pi : t W) :
  (GetClusterConfig pi).2 = None <-> started pi = true.
Proof. unfold GetClusterConfig. by destruct (started pi). Qed.

(** A call assigns the location only when it is a [Start]. *)
Lemma invoke_assigns_location (m : method) (s : state W) :
  configLocation (self (invoke ext m s)) = configLocation (self s)
  \/ exists timeout, m = mStart timeout.
Proof.
  destruct m as [timeout|timeout| | | | |]; simpl; try by left.
  - right. by exists timeout.
  - left. by rewrite CheckIsAlive_self.
Qed.

(** C7, as amended.  [GetClusterConfig] returns the location and a nil
    error on a started instance, an empty path and an error otherwise;
    after any calls on an instance that was not started it returns a nil
    error only if one of the calls was a [Start] that returned nil.  The
    field itself is assigned by [Start] and by no other method: when it
    was empty and is not after some calls, one of them was a [Start],
    begun with the field empty and ended with the field assigned,
    whether that [Start] returned nil or not. *)
Theorem GetClusterConfig_after_start (s : state W) (ms : list method) :
  started (self s) = false ->
  (GetClusterConfig (self (invokeAll ext ms s))
   = if started (self (invokeAll ext ms s))
     then (configLocation (self (invokeAll ext ms s)), None)
     else ("", Some "cluster is not started yet"))
  /\ ((GetClusterConfig (self (invokeAll ext ms s))).2 = None ->
      exists ms1 timeout ms2,
        ms = ms1 ++ mStart timeout :: ms2
        /\ startsFrom ext timeout (invokeAll ext ms1 s))
  /\ (configLocation (self s) = "" ->
      configLocation (self (invokeAll ext ms s)) <> "" ->
      exists ms1 timeout ms2,
        ms = ms1 ++ mStart timeout :: ms2
        /\ configLocation (self (invokeAll ext ms1 s)) = ""
        /\ configLocation (self (invoke ext (mStart timeout) (invokeAll ext ms1 s)))
           <> "").
Proof.
  intros Hs. split; [done|]. split.
  - induction ms as [|m ms IH] using rev_ind.
    + rewrite GetClusterConfig_nil. simpl. by rewrite Hs.
    + rewrite invokeAll_snoc.
      destruct (invoke_started m (invokeAll ext ms s))
        as [Heq|[_ (timeout & -> & Hstart)]].
      * rewrite GetClusterConfig_nil in *. rewrite Heq. intros H.
        destruct (IH H) as (ms1 & timeout & ms2 & -> & Hstart).
        exists ms1, timeout, (ms2 ++ [m]). by rewrite <- app_assoc.
      * intros _. by exists ms, timeout, [].
  - intros Hempty. induction ms as [|m ms IH] using rev_ind; [done|].
    rewrite invokeAll_snoc. intros Hset.
    destruct (decide (configLocation (self (invokeAll ext ms s)) = "")) as [He|Hne].
    + destruct (invoke_assigns_location m (invokeAll ext ms s))
        as [Heq|[timeout ->]].
      * by rewrite Heq in Hset.
      * by exists ms, timeout, [].
    + destruct (IH Hne) as (ms1 & timeout & ms2 & -> & H1 & H2).
      exists ms1, timeout, (ms2 ++ [m]). by rewrite <- app_assoc.
Qed.

Lemma invoke_configLocation (m : method) (s : state W) :
  configLocation (self s) <> "" ->
  configLocation (self (invoke ext m s)) = configLocation (self s).
Proof.
  intros Hne. destruct m as [timeout|timeout| | | | |]; simpl; try done.
  - by apply Start_location.
  - by rewrite CheckIsAlive_self.
Qed.

(** C8.  On an instance whose [configLocation] is not empty,
    [updateKUBEConfig] changes nothing, and no sequence of calls of the
    instance's methods changes [configLocation]. *)
Theorem configLocation_stable (s : state W) (ms : list method) :
  configLocation (self s) <> "" ->
  updateKUBEConfig ext s = (Next None, s)
  /\ configLocation (self (invokeAll ext ms s)) = configLocation (self s).
Proof.
  intros Hne. split; [by apply updateKUBEConfig_set|].
  induction ms as [|m ms IH] using rev_ind; [done|].
  rewrite invokeAll_snoc, invoke_configLocation; [done|]. by rewrite IH.
Qed.

End InstanceProperties.

Section InstanceExamples.
Import config providers packet.
Import packetInstance.

(** In the calm world a new instance starts, and a second [Start] finds the
    location in place. *)
Lemma configLocation_stable_witness :
  updateKUBEConfig sample.calm
    (invoke sample.calm (mStart 1800) (sample.fresh tests.TestValidationFactory))
  = (Next None,
     invoke sample.calm (mStart 1800) (sample.fresh tests.TestValidationFactory))
  /\ configLocation
       (self (invokeAll sample.calm [mCheckIsAlive; mStart 1800; mDestroy 60]
                (invoke sample.calm (mStart 1800)
                        (sample.fresh tests.TestValidationFactory))))
     = configLocation
         (self (invoke sample.calm (mStart 1800)
                       (sample.fresh tests.TestValidationFactory))).
Proof. apply configLocation_stable. vm_compute. discriminate. Defined.

(** A new instance, asked for its configuration, then started. *)
Lemma GetClusterConfig_after_start_witness :
  (GetClusterConfig
     (self (invokeAll sample.calm [mGetClusterConfig; mStart 1800]
                      (sample.fresh tests.TestValidationFactory)))
   = if started (self (invokeAll sample.calm [mGetClusterConfig; mStart 1800]
                                 (sample.fresh tests.TestValidationFactory)))
     then (configLocation
             (self (invokeAll sample.calm [mGetClusterConfig; mStart 1800]
                              (sample.fresh tests.TestValidationFactory))), None)
     else ("", Some "cluster is not started yet"))
  /\ ((GetClusterConfig
         (self (invokeAll sample.calm [mGetClusterConfig; mStart 1800]
                          (sample.fresh tests.TestValidationFactory)))).2 = None ->
      exists ms1 timeout ms2,
        [mGetClusterConfig; mStart 1800] = ms1 ++ mStart timeout :: ms2
        /\ startsFrom sample.calm timeout
                      (invokeAll sample.calm ms1
                                 (sample.fresh tests.TestValidationFactory)))
  /\ (configLocation (self (sample.fresh tests.TestValidationFactory)) = "" ->
      configLocation
        (self (invokeAll sample.calm [mGetClusterConfig; mStart 1800]
                         (sample.fresh tests.TestValidationFactory))) <> "" ->
      exists ms1 timeout ms2,
        [mGetClusterConfig; mStart 1800] = ms1 ++ mStart timeout :: ms2
        /\ configLocation
             (self (invokeAll sample.calm ms1
                              (sample.fresh tests.TestValidationFactory))) = ""
        /\ configLocation
             (self (invoke sample.calm (mStart timeout)
                           (invokeAll sample.calm ms1
                                      (sample.fresh tests.TestValidationFactory))))
           <> "").
Proof. apply GetClusterConfig_after_start. vm_compute. reflexivity. Defined.

Example GetClusterConfig_fresh :
  GetClusterConfig (self (sample.fresh tests.TestValidationFactory))
  = ("", Some "cluster is not started yet").
Proof. reflexivity. Qed.

(** C7, as stated, fails in its last part: the field is assigned inside
    [Start], before the instance is marked started.  When the prepare
    script fails, the only [Start] of a new instance has returned an
    error and the instance is not running, yet the field holds the
    location; [GetClusterConfig] still returns the empty path and an
    error. *)
Lemma configLocation_before_ready :
  (run (Start (sample.world "prepare") 1800)
       (sample.fresh tests.TestValidationFactory)).1
  = Returned ("prepare.log", Some "exit status 1")
  /\ IsRunning
       (self (run (Start (sample.world "prepare") 1800)
                  (sample.fresh tests.TestValidationFactory)).2)
     = false
  /\ configLocation (self (sample.fresh tests.TestValidationFactory)) = ""
  /\ configLocation
       (self (run (Start (sample.world "prepare") 1800)
                  (sample.fresh tests.TestValidationFactory)).2)
     = "/tmp/kubeconfig"
  /\ GetClusterConfig
       (self (run (Start (sample.world "prepare") 1800)
                  (sample.fresh tests.TestValidationFactory)).2)
     = ("", Some "cluster is not started yet").
Proof. vm_compute. repeat split; reflexivity. Qed.

Example GetClusterConfig_started :
  GetClusterConfig
    (self (invoke sample.calm (mStart 1800) (sample.fresh tests.TestValidationFactory)))
  = ("/tmp/kubeconfig", None).
Proof. vm_compute. reflexivity. Qed.

(** C5, as stated, fails twice.  With a validator that sees the cluster
    come up and later finds it down, [Start] returns nil and the
    [CheckIsAlive] that follows returns an error; and a second [Start] of
    that running instance, made once [PACKET_AUTH_TOKEN] is gone from the
    environment, returns an error and leaves the instance running. *)
Lemma Start_nil_CheckIsAlive_error :
  (run (Start sample.calm 1800) (sample.fresh sample.failingFactory)).1
  = Returned ("", None)
  /\ (CheckIsAlive (run (Start sample.calm 1800)
                        (sample.fresh sample.failingFactory)).2).1
     = Returned (Some "cluster nodes are not ready")
  /\ (run (Start sample.calm 1800)
          (sample.unset (run (Start sample.calm 1800)
                             (sample.fresh sample.failingFactory)).2)).1
     = Returned ("", Some "you must export PACKET_AUTH_TOKEN")
  /\ IsRunning
       (self (run (Start sample.calm 1800)
                  (sample.unset (run (Start sample.calm 1800)
                                     (sample.fresh sample.failingFactory)).2)).2)
     = true.
Proof. vm_compute. repeat split; reflexivity. Qed.

Example Start_sample :
  (run (Start sample.calm 1800) (sample.fresh tests.TestValidationFactory)).1
  = Returned ("", None)
  /\ (CheckIsAlive (run (Start sample.calm 1800)
                        (sample.fresh tests.TestValidationFactory)).2).1
     = Returned None.
Proof. vm_compute. split; reflexivity. Qed.

End InstanceExamples.

(** ** The engine *)
Section EngineFacts.
Import commands.

(** What the assertions of lines 88-98 ask of the [destroyCluster] they
    call: an instance stored as [Starting] stays [Starting], and one
    stored as [Stopping] ends [Crashed], both without an error. *)
Lemma TestClusterInstanceStates_destroy_passes (destroyCluster : destroyer)
      (inst : clusterInstance) :
  TestClusterInstanceStates_destroy destroyCluster inst = true ->
  (destroyCluster (store clusterStarting inst) false false).1 = None
  /\ load (destroyCluster (store clusterStarting inst) false false).2
     = clusterStarting
  /\ (destroyCluster
        (store clusterStopping
               (destroyCluster (store clusterStarting inst) false false).2)
        false false).1 = None
  /\ load (destroyCluster
             (store clusterStopping
                    (destroyCluster (store clusterStarting inst) false false).2)
             false false).2 = clusterCrashed.
Proof.
  unfold TestClusterInstanceStates_destroy.
  destruct (destroyCluster (store clusterStarting inst) false false) as [err1 inst1].
  simpl.
  destruct (destroyCluster (store clusterStopping inst1) false false) as [err2 inst2].
  simpl. rewrite !andb_true_iff, !bool_decide_eq_true. tauto.
Qed.

(** So the test and the specification's wording of [destroyCluster] do
    not go together: no function passes the test and leaves every
    instance in [Stopping] as it is, none passes it and sets every
    instance in [Starting] to [Crashed], and the function worded as in
    section 4.1 fails the test.  The function itself is not among the
    sources. *)
Lemma TestClusterInstanceStates_not_stopping_kept :
  ~ exists (destroyCluster : destroyer) (inst : clusterInstance),
      TestClusterInstanceStates_destroy destroyCluster inst = true
      /\ forall i sendCompletion recycle,
          state i = clusterStopping ->
          (destroyCluster i sendCompletion recycle).2 = i.
Proof.
  intros (d & inst & Htest & Hkeep).
  apply TestClusterInstanceStates_destroy_passes in Htest as (_ & _ & _ & Hcrashed).
  rewrite Hkeep in Hcrashed by done. done.
Qed.

Lemma TestClusterInstanceStates_not_starting_crashed :
  ~ exists (destroyCluster : destroyer) (inst : clusterInstance),
      TestClusterInstanceStates_destroy destroyCluster inst = true
      /\ forall i sendCompletion recycle,
          state i = clusterStarting ->
          state (destroyCluster i sendCompletion recycle).2 = clusterCrashed.
Proof.
  intros (d & inst & Htest & Hcrash).
  apply TestClusterInstanceStates_destroy_passes in Htest as (_ & Hkept & _).
  unfold load in Hkept. rewrite Hcrash in Hkept by done. done.
Qed.

Example destroyCluster_spec_fails_test (inst : clusterInstance) :
  TestClusterInstanceStates_destroy destroyCluster_spec_run inst = false.
Proof. reflexivity. Qed.

(** C4.  For an instance in [Starting]: when the start script exits with a
    status other than 0 the instance goes to [Crashed] and
    [ClusterCrashed] with cause [startup] is the event emitted; when it
    exits with 0 the instance goes to [Ready]. *)
Theorem provisioned_outcome (exit : Z) (location : string)
        (inst : clusterInstance) :
  state inst = clusterStarting ->
  (exit <> 0 ->
   state (provisioned exit location inst).1 = clusterCrashed
   /\ (provisioned exit location inst).2 = [ClusterCrashed (ID inst) startup])
  /\ (exit = 0 ->
      state (provisioned exit location inst).1 = clusterReady
      /\ ConfigLocation (provisioned exit location inst).1 = location
      /\ (provisioned exit location inst).2 = [ClusterReady (ID inst)]).
Proof.
  intros Hs. unfold provisioned. rewrite Hs. split; intros He.
  - by rewrite bool_decide_eq_false_2.
  - by rewrite bool_decide_eq_true_2.
Qed.

(** The instance of [b_provider] of the repository's test, whose start
    script ends in [exit 2]. *)
Lemma provisioned_outcome_witness :
  state (provisioned 2 "./.tests/config"
                     (schedulerDemand (newInstance "b_provider" 1 1))).1
  = clusterCrashed
  /\ (provisioned 2 "./.tests/config"
                  (schedulerDemand (newInstance "b_provider" 1 1))).2
     = [ClusterCrashed (ID (schedulerDemand (newInstance "b_provider" 1 1))) startup].
Proof.
  apply (provisioned_outcome 2 "./.tests/config"
                             (schedulerDemand (newInstance "b_provider" 1 1))).
  - reflexivity.
  - lia.
Defined.

Example TestClusterInstanceStates_start_passes :
  TestClusterInstanceStates_start startCluster = true.
Proof. reflexivity. Qed.

End EngineFacts.

(** * More facts *)

Arguments packet.packetInstance.installScript {W}.
Arguments packet.packetInstance.setupScript {W}.
Arguments packet.packetInstance.startScript {W}.
Arguments packet.packetInstance.prepareScript {W}.
Arguments packet.packetInstance.stopScript {W}.
Arguments packet.packetInstance.keyID {W}.
Arguments packet.packetInstance.client {W}.
Arguments packet.packetInstance.project {W}.
Arguments packet.packetInstance.sshKey {W}.
Arguments packet.packetInstance.keyIds {W}.
Arguments packet.packetInstance.virtualNetworkList {W}.
Arguments packet.packetInstance.hardwareReservationsList {W}.
Arguments packet.packetInstance.facilitiesList {W}.

(** ** What the printers do to a value *)
Section PrinterValues.
Import GoStrings config providers shell.

(** A replacement of a text that does not occur changes nothing. *)
Lemma replaceB_absent s old new n :
  old <> [] -> ~ infix old s -> replaceB s old new n = s.
Proof.
  intros Ho Hs. unfold replaceB.
  destruct (bool_decide (old = new) || bool_decide (n = 0)); [done|].
  assert (countB s old = 0%nat) as ->; [|done].
  unfold countB. destruct old as [|o old'] eqn:Hold; [done|]. simpl.
  destruct (indexB s (o :: old')) as [i|] eqn:Hi; [|done].
  exfalso. apply Hs. apply indexB_Some in Hi as [Heq _]. rewrite Heq.
  by eexists _, _.
Qed.

Lemma Replace_absent s old new n :
  old <> "" -> ~ occurs old s -> Replace s old new n = s.
Proof.
  intros Ho Hs. unfold Replace. rewrite replaceB_absent.
  - apply str_bytes.
  - by rewrite bytes_nil.
  - by rewrite <- occurs_infix.
Qed.

(** A replacement that takes place brings in the new text. *)
Lemma replaceB_cases s old new n :
  replaceB s old new n = s \/ infix new (replaceB s old new n).
Proof.
  unfold replaceB.
  destruct (bool_decide (old = new) || bool_decide (n = 0)) eqn:H0; [by left|].
  apply orb_false_iff in H0 as [_ H0]. apply bool_decide_eq_false in H0.
  case_bool_decide as Hm; [by left|]. right.
  destruct (bool_decide (n < 0) || bool_decide (Z.of_nat (countB s old) < n)) eqn:Hc.
  - destruct (countB s old); [done|]. simpl. by eexists _, _.
  - apply orb_false_iff in Hc as [Hc _]. apply bool_decide_eq_false in Hc.
    destruct (Z.to_nat n) eqn:Hn; [lia|]. simpl. by eexists _, _.
Qed.

Lemma replaceB_keeps_new s old new n :
  infix new s -> infix new (replaceB s old new n).
Proof. intros Hs. by destruct (replaceB_cases s old new n) as [->|?]. Qed.

(** Replacing the empty text puts the new text in, whatever the string. *)
Lemma replaceB_empty s new : new <> [] -> infix new (replaceB s [] new (-1)).
Proof.
  intros Hn. unfold replaceB.
  rewrite (bool_decide_eq_false_2 ([] = new)) by done. simpl.
  unfold countB. rewrite Nat.add_1_r. simpl. by eexists [], _.
Qed.

Section Values.
Variable si : shellInterface.

Lemma maskLoop_fold_absent (vars : list string) (v : string) :
  (forall ce, ce ∈ vars ->
              Getenv (environ si) ce <> "" /\ ~ occurs (Getenv (environ si) ce) v) ->
  foldl (fun v ce => Replace v (Getenv (environ si) ce) "****" (-1)) v vars = v.
Proof.
  induction vars as [|ce vars IH]; intros Hall; simpl; [done|].
  destruct (Hall ce) as [Hne Hv]; [left|].
  rewrite Replace_absent by done. apply IH. intros ce' Hce'. apply Hall. by right.
Qed.

Lemma maskLoop_fold_stars (vars : list string) (v : string) :
  occurs "****" v \/ (exists ce, ce ∈ vars /\ Getenv (environ si) ce = "") ->
  occurs "****" (foldl (fun v ce => Replace v (Getenv (environ si) ce) "****" (-1)) v vars).
Proof.
  revert v. induction vars as [|ce vars IH]; intros v Hv; simpl.
  - destruct Hv as [Hv|(ce & Hce & _)]; [done | by apply elem_of_nil in Hce].
  - apply IH. destruct Hv as [Hv|(ce' & Hce' & He)].
    + left. rewrite occurs_infix in *. unfold Replace. rewrite bytes_str.
      by apply replaceB_keeps_new.
    + apply elem_of_cons in Hce' as [->|Hce']; [|by right; exists ce'].
      left. rewrite He. rewrite occurs_infix. unfold Replace. rewrite bytes_str.
      by apply replaceB_empty.
Qed.
End Values.

Variable ParseVariable : string -> string * string * option error.

Lemma PrintEnv_congr (si si' : shellInterface) (processedEnv : list string) :
  (forall e, e ∈ processedEnv ->
     printedValue si (ParseVariable e).1.2 = printedValue si' (ParseVariable e).1.2) ->
  PrintEnv ParseVariable si processedEnv = PrintEnv ParseVariable si' processedEnv.
Proof.
  induction processedEnv as [|e rest IH]; intros Hall; simpl; [done|].
  pose proof (Hall e (list_elem_of_here _ _)) as He.
  destruct (ParseVariable e) as [[name value] err]. simpl in He. rewrite He.
  f_equal. apply IH. intros e' He'. apply Hall. by right.
Qed.

Lemma printArgsLines_congr (si si' : shellInterface) (visit : list (string * string)) :
  (forall e, e ∈ visit -> printedValue si e.2 = printedValue si' e.2) ->
  printArgsLines si visit = printArgsLines si' visit.
Proof.
  induction visit as [|[name value] rest IH]; intros Hall; simpl; [done|].
  pose proof (Hall (name, value) (list_elem_of_here _ _)) as He. simpl in He.
  rewrite He. f_equal. apply IH. intros e' He'.
  apply Hall. by right.
Qed.

(** X1.  A value in which no checked variable's value occurs is printed
    as it is: when every variable of [EnvCheck] has a value, and none of
    these values occurs in a value to print, [PrintEnv] and [PrintArgs]
    return what they return with [NoMaskParameters] set. *)
Theorem printers_verbatim (si : shellInterface)
        (processedEnv : list string) (visit : list (string * string)) :
  (forall ce, ce ∈ EnvCheck (config si) -> Getenv (environ si) ce <> "") ->
  (forall ce e, ce ∈ EnvCheck (config si) -> e ∈ processedEnv ->
                ~ occurs (Getenv (environ si) ce) (ParseVariable e).1.2) ->
  (forall ce e, ce ∈ EnvCheck (config si) -> e ∈ visit ->
                ~ occurs (Getenv (environ si) ce) e.2) ->
  PrintEnv ParseVariable si processedEnv
  = PrintEnv ParseVariable (unmasked si) processedEnv
  /\ PrintArgs si visit = PrintArgs (unmasked si) visit.
Proof.
  intros Hne Henv Hargs.
  assert (forall v, (forall ce, ce ∈ EnvCheck (config si) ->
                                ~ occurs (Getenv (environ si) ce) v) ->
                    printedValue si v = printedValue (unmasked si) v) as Hv.
  { intros v Hv. unfold printedValue at 2. simpl. unfold printedValue.
    destruct (negb _); [|done]. apply maskLoop_fold_absent. intros ce Hce.
    split; [by apply Hne | by apply Hv]. }
  split.
  - apply PrintEnv_congr. intros e He. apply Hv. intros ce Hce. by apply Henv.
  - unfold PrintArgs. do 2 f_equal. apply printArgsLines_congr. intros e He.
    apply Hv. intros ce Hce. by apply Hargs.
Qed.

(** X2.  An unset variable in [EnvCheck] garbles every value: its value,
    the empty string, is replaced by the mask wherever it occurs, that is
    around every character, so each printed value contains the mask, the
    empty value too. *)
Theorem printers_unset_variable (si : shellInterface) (ce : string)
        (processedEnv : list string) (visit : list (string * string)) :
  NoMaskParameters (params si) = false ->
  ce ∈ EnvCheck (config si) -> Getenv (environ si) ce = "" ->
  (forall varValue, occurs "****" (printedValue si varValue))
  /\ (processedEnv <> [] -> occurs "****" (PrintEnv ParseVariable si processedEnv))
  /\ (visit <> [] -> occurs "****" (PrintArgs si visit)).
Proof.
  intros Hmask Hce Hv.
  assert (forall varValue, occurs "****" (printedValue si varValue)) as Hall.
  { intros varValue. unfold printedValue. rewrite Hmask. simpl.
    apply maskLoop_fold_stars. right. by exists ce. }
  split; [done|]. split.
  - destruct processedEnv as [|e rest]; [done|]. intros _. simpl.
    destruct (ParseVariable e) as [[name value] err].
    destruct (Hall value) as (a & b & Hab). unfold printLine. rewrite Hab.
    exists (name +:+ "=" +:+ a), (b +:+ nl +:+ PrintEnv ParseVariable si rest).
    by rewrite !string_app_assoc.
  - destruct visit as [|[name value] rest]; [done|]. intros _.
    unfold PrintArgs. simpl.
    destruct (Hall value) as (a & b & Hab). unfold printLine. rewrite Hab.
    exists ("Arguments:" +:+ nl +:+ name +:+ "=" +:+ a),
           (b +:+ nl +:+ printArgsLines si rest).
    by rewrite !string_app_assoc.
Qed.

(** X3.  The printers write the entries one after the other: the text for
    a list of entries is the text for its first part followed by the
    lines for the rest. *)
Theorem printers_app (si : shellInterface)
        (env1 env2 : list string) (visit1 visit2 : list (string * string)) :
  PrintEnv ParseVariable si (env1 ++ env2)
  = PrintEnv ParseVariable si env1 +:+ PrintEnv ParseVariable si env2
  /\ PrintArgs si (visit1 ++ visit2)
     = PrintArgs si visit1 +:+ printArgsLines si visit2.
Proof.
  split.
  - induction env1 as [|e rest IH]; simpl; [done|].
    destruct (ParseVariable e) as [[name value] err].
    by rewrite IH, !string_app_assoc.
  - unfold PrintArgs. rewrite !string_app_assoc. do 2 f_equal.
    induction visit1 as [|[name value] rest IH]; simpl; [done|].
    by rewrite IH, !string_app_assoc.
Qed.

End PrinterValues.

(** With the token [t0k3n], two entries and an argument that do not hold
    it are printed as they are. *)
Lemma printers_verbatim_witness :
  shell.PrintEnv shell.parseAtEquals (sample.manager "t0k3n")
                 ["HOME=/root"; "CLUSTER=ci"]
  = shell.PrintEnv shell.parseAtEquals (unmasked (sample.manager "t0k3n"))
                   ["HOME=/root"; "CLUSTER=ci"]
  /\ shell.PrintArgs (sample.manager "t0k3n") [("region", "ewr1")]
     = shell.PrintArgs (unmasked (sample.manager "t0k3n")) [("region", "ewr1")].
Proof.
  apply (printers_verbatim shell.parseAtEquals (sample.manager "t0k3n")
           ["HOME=/root"; "CLUSTER=ci"] [("region", "ewr1")]).
  - intros ce Hce. apply list_elem_of_singleton in Hce as ->. vm_compute. discriminate.
  - intros ce e Hce He. apply list_elem_of_singleton in Hce as ->.
    apply token_not_in.
    apply elem_of_cons in He as [->|He]; [reflexivity|].
    apply list_elem_of_singleton in He as ->. reflexivity.
  - intros ce e Hce He. apply list_elem_of_singleton in Hce as ->.
    apply list_elem_of_singleton in He as ->. apply token_not_in. reflexivity.
Defined.

(** With [PACKET_AUTH_TOKEN] unset, the value [/root] is printed with the
    mask before, between and after its characters. *)
Lemma printers_unset_variable_witness :
  (forall varValue,
      GoStrings.occurs "****" (shell.printedValue (sample.manager "") varValue))
  /\ (["HOME=/root"] <> [] ->
      GoStrings.occurs "****"
        (shell.PrintEnv shell.parseAtEquals (sample.manager "") ["HOME=/root"]))
  /\ ([("region", "ewr1")] <> [] ->
      GoStrings.occurs "****" (shell.PrintArgs (sample.manager "") [("region", "ewr1")])).
Proof.
  apply (printers_unset_variable shell.parseAtEquals (sample.manager "")
           "PACKET_AUTH_TOKEN" ["HOME=/root"] [("region", "ewr1")]).
  - reflexivity.
  - apply list_elem_of_here.
  - reflexivity.
Defined.

Example printedValue_unset :
  shell.printedValue (sample.manager "") "/root" = "****/****r****o****o****t****".
Proof. reflexivity. Qed.

(** ** Running the scripts *)
Section RunFacts.
Import config providers shellManager.
Context {W File : Type} (host : Host W File).

Lemma runLoop_blank si file operation script env returnResult fileName finalOut w :
  runLoop host si file operation script env returnResult fileName finalOut w
  = runLoop host si file operation
            (filter (fun cmd => TrimSpace W File host cmd <> "") script)
            env returnResult fileName finalOut w.
Proof.
  revert finalOut w. induction script as [|cmd rest IH]; intros finalOut w; [done|].
  rewrite filter_cons. simpl. case_bool_decide as Hb.
  - rewrite decide_False by (by intros ?). apply IH.
  - rewrite decide_True by done. simpl. rewrite bool_decide_eq_false_2 by done.
    destruct (RunCommand _ _ _ _ _ _ _ _ _) as [[stdOut [e|]] w1]; [done|]. apply IH.
Qed.

(** X4.  [runCmd] passes over the commands that are blank: a script and
    the script without its blank commands give the same results and
    leave the same world. *)
Theorem runCmd_blank (si : t) (operation : string) (script env : list string)
        (returnResult : bool) (w : W) :
  runCmd host si operation script env returnResult w
  = runCmd host si operation
           (filter (fun cmd => TrimSpace W File host cmd <> "") script)
           env returnResult w.
Proof.
  unfold runCmd. destruct (OpenFile _ _ _ _ _ _) as [[[fileName file] [e|]] w1]; [done|].
  by rewrite runLoop_blank.
Qed.

Lemma runLoop_result si file operation script env returnResult fileName finalOut w :
  match runLoop host si file operation script env returnResult fileName finalOut w with
  | ((fileName', out, err), _) =>
    fileName' = fileName /\ (err <> None -> out = "")
  end.
Proof.
  revert finalOut w. induction script as [|cmd rest IH]; intros finalOut w; simpl; [done|].
  case_bool_decide; [apply IH|].
  destruct (RunCommand _ _ _ _ _ _ _ _ _) as [[stdOut [e|]] w1]; [done|]. apply IH.
Qed.

Lemma runLoop_app si file operation script1 script2 env returnResult fileName finalOut w :
  runLoop host si file operation (script1 ++ script2) env returnResult fileName finalOut w
  = match runLoop host si file operation script1 env returnResult fileName finalOut w with
    | ((fileName', out, None), w') =>
      runLoop host si file operation script2 env returnResult fileName' out w'
    | failed => failed
    end.
Proof.
  revert finalOut w. induction script1 as [|cmd rest IH]; intros finalOut w; simpl; [done|].
  case_bool_decide; [apply IH|].
  destruct (RunCommand _ _ _ _ _ _ _ _ _) as [[stdOut [e|]] w1]; [done|]. apply IH.
Qed.

(** X5.  A script that fails is not continued: when [runCmd] returns an
    error for a script, it returns the same, and leaves the same world,
    for the script with any commands after it. *)
Theorem runCmd_stops (si : t) (operation : string)
        (script more env : list string) (returnResult : bool) (w : W) :
  (runCmd host si operation script env returnResult w).1.2 <> None ->
  runCmd host si operation (script ++ more) env returnResult w
  = runCmd host si operation script env returnResult w.
Proof.
  unfold runCmd.
  destruct (OpenFile _ _ _ _ _ _) as [[[fileName file] [e|]] w1]; [done|].
  rewrite runLoop_app.
  destruct (runLoop host si file operation script _ _ _ _ _) as [[[fileName' out] [e|]] w2];
    done.
Qed.

(** X6.  What [RunCmd] and [RunRead] return: the file name [RunCmd]
    returns is the one [OpenFile] gave, with or without an error; and
    [RunRead] returns the empty response with every error, so the output
    of the commands that ran before a failing one is dropped. *)
Theorem RunCmd_RunRead_results (si : t) (operation : string)
        (script env : list string) (w : W) :
  (RunCmd host si operation script env w).1.1
  = (OpenFile W File host (id si) operation w).1.1.1
  /\ match RunRead host si operation script env w with
     | ((response, Some _), _) => response = ""
     | _ => True
     end.
Proof.
  unfold RunCmd, RunRead, runCmd.
  destruct (OpenFile _ _ _ _ _ _) as [[[fileName file] [e|]] w1]; simpl; [done|].
  split.
  - pose proof (runLoop_result si file operation script env false fileName "" w1) as H.
    destruct (runLoop _ _ _ _ _ _ _ _ _ _) as [[[fileName' out] err] w2].
    by destruct H as [-> _].
  - pose proof (runLoop_result si file operation script env true fileName "" w1) as H.
    destruct (runLoop _ _ _ _ _ _ _ _ _ _) as [[[fileName' out] [e|]] w2]; [|done].
    destruct H as (_ & H). by apply H.
Qed.

End RunFacts.

(** The script fails at its second command; a third one changes nothing. *)
Lemma runCmd_stops_witness :
  shellManager.runCmd (lab.host "false")
    (shellManager.NewManager "lab-1" (lab.providerConfig "lab") sample.options)
    "setup" (["make a"; "false"] ++ ["make b"]) [] true sample.environment
  = shellManager.runCmd (lab.host "false")
      (shellManager.NewManager "lab-1" (lab.providerConfig "lab") sample.options)
      "setup" ["make a"; "false"] [] true sample.environment.
Proof.
  apply (runCmd_stops (lab.host "false")
           (shellManager.NewManager "lab-1" (lab.providerConfig "lab") sample.options)
           "setup" ["make a"; "false"] ["make b"] [] true sample.environment).
  vm_compute. discriminate.
Defined.

Example RunRead_sample :
  (shellManager.RunRead (lab.host "false")
     (shellManager.NewManager "lab-1" (lab.providerConfig "lab") sample.options)
     "config" ["echo a"; "  "; "echo b"] [] sample.environment).1
  = ("echo a" +:+ nl +:+ "echo b" +:+ nl, None)
  /\ (shellManager.RunRead (lab.host "false")
        (shellManager.NewManager "lab-1" (lab.providerConfig "lab") sample.options)
        "config" ["echo a"; "false"; "echo b"] [] sample.environment).1
     = ("", Some "exit status 1")
  /\ (shellManager.RunCmd (lab.host "false")
        (shellManager.NewManager "lab-1" (lab.providerConfig "lab") sample.options)
        "setup" ["false"] [] sample.environment).1
     = ("lab-1-setup.log", Some "exit status 1").
Proof. vm_compute. repeat split; reflexivity. Qed.

(** ** More on the packet provider *)
Section ProviderErrors.
Import config providers packet.

Lemma envCheckLoop_Some environ all vars envVar :
  envVar ∈ vars -> Getenv environ envVar = "" ->
  packetProvider.envCheckLoop environ all vars
  = Some ("environment variable are not specified  Required variables: "
          +:+ formatList all).
Proof.
  intros Hin Hv. induction vars as [|v vars IH]; [by apply elem_of_nil in Hin|].
  simpl. case_bool_decide as Hc; [by rewrite Hc|].
  apply elem_of_cons in Hin as [->|Hin]; [done | by apply IH].
Qed.

(** X7.  The error for a variable of [EnvCheck] does not name it: for a
    configuration that is valid in some environment, [ValidateConfig]
    returns the same text whichever variable of [EnvCheck] is unset or
    empty, with a gap where the name should be and the whole list after
    it. *)
Theorem ValidateConfig_EnvCheck_message (environ environ' : gmap string string)
        (cfg : ClusterProviderConfig) (envVar : string) :
  packetProvider.ValidateConfig environ' cfg = None ->
  envVar ∈ EnvCheck cfg -> Getenv environ envVar = "" ->
  packetProvider.ValidateConfig environ cfg
  = Some ("environment variable are not specified  Required variables: "
          +:+ formatList (EnvCheck cfg)).
Proof.
  intros Hok Hin Hv. unfold packetProvider.ValidateConfig in *.
  destruct (Packet cfg) as [pk|]; [|done].
  repeat match type of Hok with
         | (if ?b then _ else _) = _ => destruct b; [done|]
         end.
  by rewrite (envCheckLoop_Some _ _ _ envVar).
Qed.

End ProviderErrors.

(** The sample configuration, valid when both variables are set, in the
    empty environment. *)
Lemma ValidateConfig_EnvCheck_message_witness :
  packet.packetProvider.ValidateConfig
    ∅ (sample.providerConfig "packet" ["PACKET_AUTH_TOKEN"; "PACKET_PROJECT_ID"])
  = Some "environment variable are not specified  Required variables: [PACKET_AUTH_TOKEN PACKET_PROJECT_ID]".
Proof.
  apply (ValidateConfig_EnvCheck_message
           ∅ sample.environment
           (sample.providerConfig "packet" ["PACKET_AUTH_TOKEN"; "PACKET_PROJECT_ID"])
           "PACKET_PROJECT_ID").
  - reflexivity.
  - right. left.
  - reflexivity.
Defined.

Section CreateClusterFacts.
Import config providers packet.
Import packetInstance.
Context {W : Type} (ext : External W).

(** X8.  [CreateCluster] returns the error of [ValidateConfig], when
    there is one, and then leaves the provider as it was: a rejected
    configuration uses up no ordinal.  Otherwise it returns an instance,
    and of the provider only the ordinal of the configuration's name has
    changed. *)
Theorem CreateCluster_rejects (w : W) (p : packetProvider.t)
        (cfg : ClusterProviderConfig) (factory : ValidationFactory W)
        (instanceOptions : InstanceOptions) :
  match packetProvider.ValidateConfig (Environ W ext w) cfg with
  | Some err =>
    CreateCluster ext w p cfg factory instanceOptions = ((None, Some err), p)
  | None =>
    exists pi p',
      CreateCluster ext w p cfg factory instanceOptions = ((Some pi, None), p')
      /\ packetProvider.root p' = packetProvider.root p
      /\ packetProvider.installDone p' = packetProvider.installDone p
      /\ forall P, P <> ProviderName cfg ->
                   packetProvider.indexes p' !! P = packetProvider.indexes p !! P
  end.
Proof.
  unfold CreateCluster.
  destruct (packetProvider.ValidateConfig _ cfg) as [err|]; [done|].
  simpl. eexists _, _. split; [done|]. split; [done|]. split; [done|].
  intros P HP. simpl. by rewrite lookup_insert_ne.
Qed.

(** X9.  An instance that [CreateCluster] has just made is not running:
    [IsRunning] is false, [GetClusterConfig] and [CheckIsAlive] return
    their errors; its ID is the configuration's name, a dash and the
    ordinal the provider now holds for that name, its root is this ID
    under the provider's root, and the project ID and the token it took
    from the environment are not empty. *)
Theorem CreateCluster_fresh (w : W) (p : packetProvider.t)
        (cfg : ClusterProviderConfig) (factory : ValidationFactory W)
        (instanceOptions : InstanceOptions) :
  match CreateCluster ext w p cfg factory instanceOptions with
  | ((Some pi, _), p') =>
    GetID pi = ProviderName cfg +:+ "-" +:+ pretty (lastOrdinal p' (ProviderName cfg))
    /\ GetRoot pi = Join W ext (packetProvider.root p) (GetID pi)
    /\ IsRunning pi = false
    /\ GetClusterConfig pi = ("", Some "cluster is not started yet")
    /\ (forall w' p'',
           CheckIsAlive {| world := w'; provider := p''; self := pi |}
           = (Returned (Some "cluster is not running"),
              {| world := w'; provider := p''; self := pi |}))
    /\ projectID pi = Getenv (Environ W ext w) "PACKET_PROJECT_ID"
    /\ projectID pi <> ""
    /\ packetAuthKey pi = Getenv (Environ W ext w) "PACKET_AUTH_TOKEN"
    /\ packetAuthKey pi <> ""
  | ((None, _), p') => True
  end.
Proof.
  unfold CreateCluster.
  destruct (packetProvider.ValidateConfig _ cfg) as [err|] eqn:Hv; [done|].
  apply ValidateConfig_accepted in Hv
    as (pk & _ & _ & _ & _ & _ & _ & _ & Htok & Hproj).
  simpl. unfold lastOrdinal. simpl. rewrite lookup_insert_eq. simpl.
  by repeat split.
Qed.
End CreateClusterFacts.

Example CreateCluster_fresh_sample :
  packet.packetInstance.GetID (packet.packetInstance.self lab.fresh) = "lab-1"
  /\ packet.packetInstance.GetRoot (packet.packetInstance.self lab.fresh)
     = "/tmp/ct/lab-1".
Proof. split; reflexivity. Qed.

(** ** The helpers of [Start] *)

(** The first element a [filter] keeps. *)
Lemma filter_cons_first {A} (P : A -> Prop) `{!forall x, Decision (P x)}
      (l : list A) (x : A) (r : list A) :
  filter P l = x :: r ->
  exists before after,
    l = before ++ x :: after /\ P x /\ Forall (fun y => ~ P y) before.
Proof.
  induction l as [|y l IH]; [done|]. rewrite filter_cons.
  destruct (decide (P y)) as [Hy|Hy].
  - intros [= -> <-]. by exists [], l.
  - intros (before & after & -> & Hx & Hb)%IH.
    exists (y :: before), after. split; [done|]. split; [done|]. by constructor.
Qed.

Lemma filter_nil_none {A} (P : A -> Prop) `{!forall x, Decision (P x)} (l : list A) :
  filter P l = [] -> Forall (fun y => ~ P y) l.
Proof.
  induction l as [|y l IH]; [done|]. rewrite filter_cons.
  destruct (decide (P y)) as [Hy|Hy]; [done|]. intros Hf. constructor; auto.
Qed.

Lemma filter_eq_notin {A} `{EqDecision A} (x : A) (l : list A) :
  x ∉ l -> filter (fun y => y = x) l = [].
Proof.
  induction l as [|y l IH]; [done|]. intros Hx. rewrite filter_cons.
  apply not_elem_of_cons in Hx as [Hne Hx].
  destruct (decide (y = x)); [done | by apply IH].
Qed.

Lemma filter_eq_NoDup {A} `{EqDecision A} (x : A) (l : list A) :
  NoDup l -> x ∈ l -> filter (fun y => y = x) l = [x].
Proof.
  induction l as [|y l IH]; [by intros _ ?%elem_of_nil|].
  intros [Hy Hnd]%NoDup_cons Hx. rewrite filter_cons.
  destruct (decide (y = x)) as [->|Hne].
  - by rewrite filter_eq_notin.
  - apply elem_of_cons in Hx as [->|Hx]; [done | by apply IH].
Qed.

(** Exchanging the element at [i] with the first one. *)
Lemma swap_head_Permutation {A} (l : list A) (i : nat) (x y : A) :
  l !! i = Some x -> l !! 0%nat = Some y ->
  <[0%nat := x]> (<[i := y]> l) ≡ₚ l
  /\ head (<[0%nat := x]> (<[i := y]> l)) = Some x.
Proof.
  destruct l as [|y' l]; [done|]. intros Hi [= ->].
  destruct i as [|i]; simpl in *; [by simplify_eq|].
  split; [|done].
  rewrite <- (take_drop_middle l i x) at 2 by done.
  rewrite insert_take_drop by (by eapply lookup_lt_Some).
  rewrite <- !Permutation_middle. apply Permutation_swap.
Qed.

(** The places of a list after such an exchange. *)
Lemma swap_head_lookup {A} (l : list A) (i : nat) (x y : A) :
  l !! i = Some x -> l !! 0%nat = Some y ->
  <[0%nat := x]> (<[i := y]> l) !! i = l !! 0%nat
  /\ forall k : nat,
      k <> 0%nat -> k <> i -> <[0%nat := x]> (<[i := y]> l) !! k = l !! k.
Proof.
  intros Hi H0. split.
  - destruct i as [|i].
    + rewrite Hi in H0. simplify_eq. destruct l; by simplify_eq/=.
    + rewrite list_lookup_insert_ne by done.
      rewrite list_lookup_insert_eq by (by eapply lookup_lt_Some). done.
  - intros k Hk0 Hki. by rewrite !list_lookup_insert_ne.
Qed.

Section HelperFacts.
Import config providers packet.
Import packetInstance.
Context {W : Type} (ext : External W).

Ltac run_monad :=
  unfold bind, request, this, call, assign, effect, look, ret, returns, panic;
  simpl.

(** X10.  [findVlan] returns the first virtual network of the list whose
    VXLAN is the tag, and its error exactly when the list has none. *)
Theorem findVlan_first (pi : t W) (vlanTag : Z) :
  match findVlan pi vlanTag with
  | (Some vlan, None) =>
    exists before after,
      virtualNetworkList pi = before ++ vlan :: after
      /\ vlan.2 = vlanTag
      /\ Forall (fun v => v.2 <> vlanTag) before
  | (None, Some err) =>
    err = "vlan not found: " +:+ pretty vlanTag
    /\ Forall (fun v => v.2 <> vlanTag) (virtualNetworkList pi)
  | _ => False
  end.
Proof.
  unfold findVlan.
  destruct (filter _ (virtualNetworkList pi)) as [|vlan r] eqn:Hf.
  - split; [done|]. by apply filter_nil_none in Hf.
  - by apply filter_cons_first in Hf.
Qed.

(** X11.  [findFacilities] on an instance that has its client, when the
    log file opens and the service answers: the codes it returns are
    those of the facilities with every feature the configuration asks
    for.  The preferred facility, when it is among them, changes places
    with the one that was first: it comes first, the one that was first
    stands where the preferred one first stood, and every other code
    stands where it stood in the service's list.  Otherwise the order is
    that of the service's list.  The instance is left as it was. *)
Theorem findFacilities_preferred (s : state W) (pk : PacketConfig)
        (w1 w2 : W) (facilities : list Facility) (response : string) :
  client (self s) = true ->
  Packet (config (self s)) = Some pk ->
  OpenFile W ext (id (self s)) "list-facilities" (world s) = (None, w1) ->
  FacilitiesList W ext w1 = ((facilities, response, None), w2) ->
  exists facilitiesList,
    findFacilities ext s
    = (Next (facilitiesList, None),
       {| world := w2; provider := provider s; self := self s |})
    /\ facilitiesList ≡ₚ qualifying pk facilities
    /\ (PreferredFacility pk <> "" ->
        PreferredFacility pk ∈ qualifying pk facilities ->
        head facilitiesList = Some (PreferredFacility pk))
    /\ (PreferredFacility pk = "" \/ PreferredFacility pk ∉ qualifying pk facilities ->
        facilitiesList = qualifying pk facilities)
    /\ (PreferredFacility pk <> "" ->
        forall ind : nat,
          qualifying pk facilities !! ind = Some (PreferredFacility pk) ->
          (forall j : nat,
              (j < ind)%nat ->
              qualifying pk facilities !! j <> Some (PreferredFacility pk)) ->
          facilitiesList !! ind = qualifying pk facilities !! 0%nat
          /\ forall i : nat,
              i <> 0%nat -> i <> ind ->
              facilitiesList !! i = qualifying pk facilities !! i).
Proof.
  intros Hclient Hpk Hopen Hlist. unfold findFacilities. run_monad.
  rewrite Hopen. simpl. rewrite Hclient, Hlist. simpl. rewrite Hpk.
  fold (qualifying pk facilities).
  case_bool_decide as Hpref; simpl.
  - destruct (list_find _ (qualifying pk facilities)) as [[ind f]|] eqn:Hfind; simpl.
    + apply list_find_Some in Hfind as (Hind & -> & Hfirst).
      rewrite Hind.
      destruct (qualifying pk facilities !! 0%nat) as [head0|] eqn:H0.
      * destruct (swap_head_Permutation _ _ _ _ Hind H0) as [Hperm Hhead].
        eexists. split; [done|]. split; [done|]. split; [done|]. split.
        { intros [?|Hnot]; [done|]. exfalso. apply Hnot.
          by eapply list_elem_of_lookup_2. }
        intros _ ind' Hind' Hfirst'.
        assert (ind' = ind) as ->.
        { destruct (Nat.lt_trichotomy ind' ind) as [Hlt|[Heq|Hgt]]; [|done|].
          - exfalso. by apply (Hfirst ind' _ Hind' Hlt).
          - exfalso. by apply (Hfirst' ind Hgt). }
        rewrite <- H0. by apply swap_head_lookup.
      * destruct (qualifying pk facilities); simplify_eq/=.
    + eexists. split; [done|]. split; [done|].
      apply list_find_None in Hfind. split; [|split; [done|]].
      * intros _ Hin. exfalso.
        by apply (proj1 (Forall_forall _ _) Hfind _ Hin).
      * intros _ ind' Hind' _. exfalso.
        apply (proj1 (Forall_forall _ _) Hfind (PreferredFacility pk)); [|done].
        by eapply list_elem_of_lookup_2.
  - eexists. split; [done|]. split; [done|]. split; [|split; [done|]]; by intros H.
Qed.

(** X12.  [findHardwareReservations], when the service answers: the
    reservations it returns are those of the service's list whose ID the
    configuration names, in the order of that list when the
    configuration names no ID twice.  The instance is left as it was.
    The call goes through the client: on an instance without one it
    panics, and has done nothing. *)
Theorem findHardwareReservations_listed (s : state W) (pk : PacketConfig)
        (hardwareReservations : list HardwareReservation) (response : string)
        (w1 : W) :
  Packet (config (self s)) = Some pk ->
  HardwareReservationsList W ext (projectID (self s)) (world s)
  = ((hardwareReservations, response, None), w1) ->
  if client (self s) then
    exists l,
      findHardwareReservations ext s
      = (Next (l, None), {| world := w1; provider := provider s; self := self s |})
      /\ (forall hr, hr ∈ l <->
                     hr ∈ hardwareReservations /\ hrID hr ∈ HardwareReservations pk)
      /\ (NoDup (HardwareReservations pk) ->
          l = filter (fun hr => hrID hr ∈ HardwareReservations pk) hardwareReservations)
  else
    findHardwareReservations ext s
    = (Panic "invalid memory address or nil pointer dereference", s).
Proof.
  intros Hpk Hlist. unfold findHardwareReservations. run_monad.
  destruct (client (self s)) eqn:Hclient; [|done].
  rewrite Hlist. simpl. rewrite Hpk.
  exists (hr ← hardwareReservations;
          (fun _ => hr) <$> filter (fun hrr => hrr = hrID hr) (HardwareReservations pk)).
  split; [by destruct hardwareReservations|]. split.
  - intros hr. rewrite list_elem_of_bind. split.
    + intros (hr' & Hin & Hhr'). apply list_elem_of_fmap in Hin as (hrr & -> & Hin).
      by apply list_elem_of_filter in Hin as [-> Hin].
    + intros [Hin Hid]. exists hr. split; [|done].
      apply list_elem_of_fmap. exists (hrID hr). split; [done|].
      by apply list_elem_of_filter.
  - intros Hnd. clear Hlist.
    induction hardwareReservations as [|hr hrs IH]; [done|].
    rewrite bind_cons, filter_cons, IH.
    destruct (decide (hrID hr ∈ HardwareReservations pk)) as [Hin|Hin].
    + by rewrite filter_eq_NoDup.
    + by rewrite filter_eq_notin.
Qed.

Lemma foldl_project (X : string) (init : option string) (ps : list (string * string)) :
  foldl (fun found p => if bool_decide (p.1 = X) then Some p.1 else found) init ps
  = if decide (X ∈ ps.*1) then Some X else init.
Proof.
  revert init. induction ps as [|p ps IH]; intros init; simpl; [done|].
  rewrite IH. destruct (decide (X ∈ ps.*1)) as [Hin|Hin].
  - rewrite decide_True; [done | by right].
  - case_bool_decide as Hp.
    + rewrite decide_True; [by rewrite Hp | rewrite <- Hp; by left].
    + rewrite decide_False; [done|]. intros [?|?]%elem_of_cons; by simplify_eq/=.
Qed.

(** X13.  [updateProject] looks for the project in the service's list and
    nowhere else: whatever error the listing reports, the instance's
    project is the listed project with the instance's project ID, when
    there is one, and stays what it was otherwise; the call returns nil
    exactly when the instance then has a project.  It goes through the
    client: on an instance without one it panics, and has done nothing. *)
Theorem updateProject_found (s : state W) :
  match updateProject ext s with
  | (Next err, s') =>
    client (self s) = true
    /\ project (self s')
    = (if decide (projectID (self s) ∈ (ProjectsList W ext (world s)).1.1.1.*1)
       then Some (projectID (self s)) else project (self s))
    /\ (err = None <-> is_Some (project (self s')))
    /\ (forall e, err = Some e ->
                  e = id (self s) +:+ " - specified project are not found on Packet "
                      +:+ projectID (self s))
  | (Panic _, s') => client (self s) = false /\ s' = s
  | (Return _ _, _) => False
  end.
Proof.
  unfold updateProject. run_monad.
  destruct (client (self s)) eqn:Hclient; simpl; [|done].
  destruct (ProjectsList W ext (world s)) as [[[ps response] err] w1]. simpl.
  rewrite foldl_project.
  destruct (decide (projectID (self s) ∈ ps.*1)); simpl.
  - split; [done|]. split; [done|]. split; [|done]. split; [by eexists | done].
  - destruct (project (self s)) eqn:Hp; simpl.
    + split; [done|]. split; [done|]. split; [|done]. split; [by eexists | done].
    + split; [done|]. split; [done|]. split; [|by intros e [= <-]].
      split; [done | by intros []].
Qed.

Lemma foldl_label (X : string) (init : option (string * string))
      (sshKeys : list (string * string)) (kk : string * string) :
  foldl (fun found kk => if bool_decide (kk.2 = X) then Some kk else found)
        init sshKeys = Some kk ->
  (kk ∈ sshKeys /\ kk.2 = X) \/ init = Some kk.
Proof.
  revert init. induction sshKeys as [|k ks IH]; intros init; simpl; [by right|].
  intros [[Hin Hl]|Hi]%IH.
  - left. split; [by right | done].
  - case_bool_decide as Hk; [|by right]. simplify_eq. left. split; [by left | done].
Qed.

Lemma foldl_label_None (X : string) (init : option (string * string))
      (sshKeys : list (string * string)) :
  foldl (fun found kk => if bool_decide (kk.2 = X) then Some kk else found)
        init sshKeys = None ->
  init = None /\ forall kk, kk ∈ sshKeys -> kk.2 <> X.
Proof.
  revert init. induction sshKeys as [|k ks IH]; intros init; simpl.
  - intros ->. split; [done|]. by intros kk ?%elem_of_nil.
  - intros [Hi Hks]%IH. case_bool_decide as Hk; [done|]. split; [done|].
    intros kk [->|Hin]%elem_of_cons; [done | by apply Hks].
Qed.

(** X14.  [findKeys] returns the IDs of all the keys the service lists,
    in the order of the list, and as the key a listed key labelled with
    the instance's [keyID], when there is one.  It goes through the
    client: on an instance without one it panics, and has done nothing. *)
Theorem findKeys_listed (s : state W) :
  match findKeys ext s with
  | (Next (sshKey, keyIDs), s') =>
    client (self s) = true
    /\ self s' = self s
    /\ keyIDs = (SSHKeysList W ext (world s)).1.1.*1
    /\ (forall kk, sshKey = Some kk ->
                   kk ∈ (SSHKeysList W ext (world s)).1.1 /\ kk.2 = keyID (self s))
    /\ (sshKey = None ->
        forall kk, kk ∈ (SSHKeysList W ext (world s)).1.1 -> kk.2 <> keyID (self s))
  | (Panic _, s') => client (self s) = false /\ s' = s
  | (Return _ _, _) => False
  end.
Proof.
  unfold findKeys. run_monad.
  destruct (client (self s)) eqn:Hclient; simpl; [|done].
  destruct (SSHKeysList W ext (world s)) as [[sshKeys err] w1]. simpl.
  split; [done|]. split; [done|]. split; [done|]. split.
  - intros kk [H|H]%foldl_label; done.
  - by intros [_ H]%foldl_label_None.
Qed.

(** X15.  [createKey] gives the instance a new [keyID] that starts with
    [dev-ci-cloud-].  When it returns a nil error the instance has its
    client and a project, the ID of the instance's key, if it has one,
    is among the IDs returned, and without a key it returns no IDs; with
    an error it returns no IDs either.  It panics only on an instance
    without a project or without a client, and then after the log file
    was opened and the key file read. *)
Theorem createKey_ids (keyFile : string) (s : state W) :
  match createKey ext keyFile s with
  | (Next (ids, None), s') =>
    client (self s) = true
    /\ is_Some (project (self s))
    /\ (exists genID, keyID (self s') = "dev-ci-cloud-" +:+ genID)
    /\ match sshKey (self s') with
       | Some k => k.1 ∈ ids
       | None => ids = []
       end
  | (Next (ids, Some _), s') => ids = []
  | (Return _ _, _) => False
  | (Panic _, s') =>
    (project (self s) = None \/ client (self s) = false)
    /\ (OpenFile W ext (id (self s)) "create-key" (world s)).1 = None
    /\ exists genID, keyID (self s') = "dev-ci-cloud-" +:+ genID
  end.
Proof.
  unfold createKey. run_monad.
  destruct (OpenFile _ _ _ _ _) as [[e|] w1]; simpl; [done|].
  destruct (NewRandomKeyID W ext w1) as [genID w2]. simpl.
  destruct (ReadFile W ext keyFile w2) as [[keyFileContent [e|]] w3]; simpl; [done|].
  destruct (project (self s)) as [projID|] eqn:Hproj; simpl;
    [|split; [by left | split; [done | by eexists]]].
  destruct (client (self s)) eqn:Hclient; simpl;
    [|split; [by right | split; [done | by eexists]]].
  destruct (SSHKeysCreate _ _ _ _ _ _) as [[[k|] err] w4]; simpl.
  - split; [done|]. split; [done|]. split; [by eexists | by left].
  - unfold findKeys. run_monad. rewrite Hclient. simpl.
    destruct (SSHKeysList W ext w4) as [[sshKeys lerr] w5]. simpl.
    destruct (foldl _ None sshKeys) as [kk|] eqn:Hfold; simpl.
    + split; [done|]. split; [done|]. split; [by eexists|].
      apply foldl_label in Hfold as [[Hin _]|?]; [|done].
      by apply list_elem_of_fmap_2.
    + destruct err; [done|]. split; [done|]. split; [done|].
      split; [by eexists | done].
Qed.

(** [createRequest] reads and changes nothing, and it never returns a
    nil request with a nil error. *)
Lemma createRequest_cases (devCfg : HardwareDeviceConfig) (s : state W) :
  match createRequest ext devCfg s with
  | (Next (Some req, None), s') => s' = s
  | (Next (None, Some _), s') => s' = s
  | _ => False
  end.
Proof.
  unfold createRequest. run_monad.
  destruct (environmentLoop ext _ ∅); [|done].
  by destruct (SubstituteVariable _ _ _ _ _) as [hostName [e|]].
Qed.




Lemma reservationsLoop_exhausted name devReq reservations (s : state W) :
  client (self s) = true ->
  (forall req w, exists e,
        (DevicesCreate W ext req w).1.2 = Some e /\ notProvisionable e) ->
  reservationsLoop ext name devReq reservations s
  = (Next ("", Some "empty hardware reservations list"),
     {| world := attempted ext (id (self s)) name (reserved devReq <$> reservations)
                           (world s);
        provider := provider s; self := self s |}).
Proof.
  intros Hclient Href. revert devReq s Hclient.
  induction reservations as [|hr rest IH]; intros devReq s Hclient; simpl;
    [by destruct s|].
  run_monad. rewrite Hclient. simpl. fold (reserved devReq hr).
  destruct (Href (reserved devReq hr) (world s)) as (e & He & Hr).
  destruct (DevicesCreate W ext (reserved devReq hr) (world s))
    as [[device err] w1] eqn:Hcreate.
  simpl in *. subst err.
  destruct Hr as [Hr|Hr]; rewrite Hr;
    [|destruct (GoStrings.Contains e "is not provisionable")];
    by rewrite IH.
Qed.

Lemma facilitiesLoop_exhausted name plan devReq facilities (s : state W) :
  client (self s) = true ->
  reqPlan devReq = plan ->
  (forall req w, exists e,
        (DevicesCreate W ext req w).1.2 = Some e /\ noProvisionable e) ->
  facilitiesLoop ext name devReq facilities s
  = (Next ("", Some "empty facilities list"),
     {| world := attempted ext (id (self s)) name (placed plan devReq <$> facilities)
                           (world s);
        provider := provider s; self := self s |}).
Proof.
  intros Hclient Hplan Href. revert devReq s Hclient Hplan.
  induction facilities as [|f rest IH]; intros devReq s Hclient Hplan; simpl;
    [by destruct s|].
  run_monad. rewrite Hclient. simpl. rewrite Hplan. fold (placed plan devReq f).
  destruct (Href (placed plan devReq f) (world s)) as (e & He & Hr).
  destruct (DevicesCreate W ext (placed plan devReq f) (world s))
    as [[device err] w1] eqn:Hcreate.
  simpl in *. subst err.
  destruct Hr as [Hr|Hr]; rewrite Hr;
    [|destruct (GoStrings.Contains e "has no provisionable")];
    by rewrite (IH (placed plan devReq f)).
Qed.

(** X17.  When the service refuses every device as not provisionable,
    [createHardwareDevice] on an instance that has its client tries
    every reservation of the instance's list: it asks the service once
    for each, in the order of the list, with the plan, the facility and
    the ID of that reservation, logs each answer, and then reports
    [empty hardware reservations list], whatever the list held, and not
    the service's error. *)
Theorem createHardwareDevice_exhausted (devCfg : HardwareDeviceConfig)
        (s : state W) (devReq : DeviceCreateRequest) :
  client (self s) = true ->
  (forall req w, exists e,
        (DevicesCreate W ext req w).1.2 = Some e /\ notProvisionable e) ->
  (createRequest ext devCfg s).1 = Next (Some devReq, None) ->
  createHardwareDevice ext devCfg s
  = (Next ("", Some "empty hardware reservations list"),
     {| world := attempted ext (id (self s)) (Name devCfg)
                           (reserved devReq <$> hardwareReservationsList (self s))
                           (world s);
        provider := provider s; self := self s |}).
Proof.
  intros Hclient Href Hreq. unfold createHardwareDevice. unfold bind at 1.
  pose proof (createRequest_cases devCfg s) as Hcases.
  destruct (createRequest ext devCfg s) as [r s1]. simpl in Hreq. subst r.
  subst s1. run_monad. by apply reservationsLoop_exhausted.
Qed.

(** X18.  When the service refuses every device for want of a
    provisionable device, [createFacilityDevice] on an instance that has
    its client tries every facility of the instance's list: it asks the
    service once for each, in the order of the list, with the plan of
    the device, logs each answer, and then reports [empty facilities
    list], whatever the list held, and not the service's error. *)
Theorem createFacilityDevice_exhausted (devCfg : FacilityDeviceConfig)
        (s : state W) (devReq : DeviceCreateRequest) :
  client (self s) = true ->
  (forall req w, exists e,
        (DevicesCreate W ext req w).1.2 = Some e /\ noProvisionable e) ->
  (createRequest ext (HardwareDevice devCfg) s).1 = Next (Some devReq, None) ->
  createFacilityDevice ext devCfg s
  = (Next ("", Some "empty facilities list"),
     {| world := attempted ext (id (self s)) (Name (HardwareDevice devCfg))
                           (placed (Plan devCfg) devReq <$> facilitiesList (self s))
                           (world s);
        provider := provider s; self := self s |}).
Proof.
  intros Hclient Href Hreq. unfold createFacilityDevice. unfold bind at 1.
  pose proof (createRequest_cases (HardwareDevice devCfg) s) as Hcases.
  destruct (createRequest ext _ s) as [r s1]. simpl in Hreq. subst r.
  subst s1. run_monad.
  by rewrite (facilitiesLoop_exhausted _ (Plan devCfg)).
Qed.

(** X19.  [updateKUBEConfig] never returns an error.  It leaves alone an
    instance that has its location; otherwise the location the shell
    manager took from [KUBECONFIG] comes first, and only when that is
    empty too the config script is run and the first line of its output
    kept, whatever error the run reports; the call panics exactly when
    there is no such line. *)
Theorem updateKUBEConfig_sources (s : state W) :
  match updateKUBEConfig ext s with
  | (Next err, s') =>
    err = None
    /\ (configLocation (self s) <> "" -> s' = s)
    /\ (configLocation (self s) = "" -> GetConfigLocation W ext (world s) <> "" ->
        s' = {| world := world s; provider := provider s;
                self := set_configLocation (GetConfigLocation W ext (world s)) (self s) |})
    /\ (configLocation (self s) = "" -> GetConfigLocation W ext (world s) = "" ->
        head (ExecRead W ext (GoStrings.Split (configScript (self s)) " ") (world s)).1.1
        = Some (configLocation (self s')))
  | (Return _ _, _) => False
  | (Panic _, _) =>
    configLocation (self s) = "" /\ GetConfigLocation W ext (world s) = ""
    /\ (ExecRead W ext (GoStrings.Split (configScript (self s)) " ") (world s)).1.1 = []
  end.
Proof.
  unfold updateKUBEConfig. run_monad.
  case_bool_decide as Hloc; simpl.
  - case_bool_decide as Hget; simpl.
    + destruct (ExecRead _ _ _ _) as [[[|location output] err] w1]; simpl; [done|].
      split; [done|]. split; [done|]. split; [done|]. by intros _ _.
    + split; [done|]. split; [done|]. split; [done|]. by intros _ ?.
  - rewrite bool_decide_eq_false_2 by done. destruct s. by repeat split.
Qed.

(** [doInstall] of an instance with an install script leaves the install
    of its configuration's name marked done. *)
Lemma doInstall_marks (s : state W) :
  installScript (self s) <> None ->
  packetProvider.installDone (provider (doInstall ext s).2)
  !! ProviderName (config (self s)) = Some true.
Proof.
  intros Hscript. unfold doInstall.
  rewrite bool_decide_eq_true_2 by done. simpl.
  destruct (packetProvider.installDone (provider s) !! _) as [[|]|] eqn:Hd; simpl; [done|..].
  - unfold call. simpl. destruct (RunCmd _ _ _ _ _ _). simpl. by rewrite lookup_insert_eq.
  - unfold call. simpl. destruct (RunCmd _ _ _ _ _ _). simpl. by rewrite lookup_insert_eq.
Qed.

(** X20.  [doInstall] runs the install script once for a provider name:
    when an instance with an install script has gone through it, whether
    the script succeeded or not, the call does nothing any more for the
    instances of that name on the same provider, and returns no file and
    a nil error. *)
Theorem doInstall_once (s s2 : state W) :
  installScript (self s) <> None ->
  provider s2 = provider (doInstall ext s).2 ->
  ProviderName (config (self s2)) = ProviderName (config (self s)) ->
  doInstall ext s2 = (Next ("", None), s2).
Proof.
  intros Hscript Hprov Hname.
  unfold doInstall. rewrite Hprov, Hname, doInstall_marks by done. simpl.
  by rewrite andb_false_r.
Qed.

End HelperFacts.
(** In the laboratory world three of the four facilities qualify,
    [ewr1], [sjc1] and [ams1] in the order of the service's list, and
    [ams1] is preferred: it changes places with [ewr1], and [sjc1] stays
    in the middle. *)
Lemma findFacilities_preferred_witness :
  exists facilitiesList,
    packet.packetInstance.findFacilities (lab.world None) lab.started
    = (packet.Next (facilitiesList, None),
       {| packet.packetInstance.world := packet.packetInstance.world lab.started;
          packet.packetInstance.provider := packet.packetInstance.provider lab.started;
          packet.packetInstance.self := packet.packetInstance.self lab.started |})
    /\ facilitiesList ≡ₚ qualifying lab.packetConfig lab.facilities
    /\ (config.PreferredFacility lab.packetConfig <> "" ->
        config.PreferredFacility lab.packetConfig
          ∈ qualifying lab.packetConfig lab.facilities ->
        head facilitiesList = Some (config.PreferredFacility lab.packetConfig))
    /\ (config.PreferredFacility lab.packetConfig = ""
        \/ config.PreferredFacility lab.packetConfig
             ∉ qualifying lab.packetConfig lab.facilities ->
        facilitiesList = qualifying lab.packetConfig lab.facilities)
    /\ (config.PreferredFacility lab.packetConfig <> "" ->
        forall ind : nat,
          qualifying lab.packetConfig lab.facilities !! ind
          = Some (config.PreferredFacility lab.packetConfig) ->
          (forall j : nat,
              (j < ind)%nat ->
              qualifying lab.packetConfig lab.facilities !! j
              <> Some (config.PreferredFacility lab.packetConfig)) ->
          facilitiesList !! ind = qualifying lab.packetConfig lab.facilities !! 0%nat
          /\ forall i : nat,
              i <> 0%nat -> i <> ind ->
              facilitiesList !! i = qualifying lab.packetConfig lab.facilities !! i).
Proof.
  apply (findFacilities_preferred (lab.world None) lab.started lab.packetConfig
           (packet.packetInstance.world lab.started)
           (packet.packetInstance.world lab.started) lab.facilities "");
    vm_compute; reflexivity.
Defined.

Example findFacilities_sample :
  qualifying lab.packetConfig lab.facilities = ["ewr1"; "sjc1"; "ams1"]
  /\ (packet.packetInstance.findFacilities (lab.world None) lab.started).1
     = packet.Next (["ams1"; "sjc1"; "ewr1"], None).
Proof. vm_compute. split; reflexivity. Qed.

(** Of the three reservations the service lists the configuration names
    the first and the third; the started instance has its client. *)
Lemma findHardwareReservations_listed_witness :
  if packet.packetInstance.client (packet.packetInstance.self lab.started) then
    exists l,
      packet.packetInstance.findHardwareReservations (lab.world None) lab.started
      = (packet.Next (l, None),
         {| packet.packetInstance.world := packet.packetInstance.world lab.started;
            packet.packetInstance.provider := packet.packetInstance.provider lab.started;
            packet.packetInstance.self := packet.packetInstance.self lab.started |})
      /\ (forall hr, hr ∈ l <->
                     hr ∈ lab.reservations
                     /\ packet.hrID hr ∈ config.HardwareReservations lab.packetConfig)
      /\ (NoDup (config.HardwareReservations lab.packetConfig) ->
          l = filter (fun hr => packet.hrID hr
                                  ∈ config.HardwareReservations lab.packetConfig)
                     lab.reservations)
  else
    packet.packetInstance.findHardwareReservations (lab.world None) lab.started
    = (packet.Panic "invalid memory address or nil pointer dereference", lab.started).
Proof.
  apply (findHardwareReservations_listed (lab.world None) lab.started lab.packetConfig
           lab.reservations "" (packet.packetInstance.world lab.started));
    vm_compute; reflexivity.
Defined.

Example findHardwareReservations_sample :
  packet.hrID <$>
    (match (packet.packetInstance.findHardwareReservations (lab.world None)
                                                           lab.started).1 with
     | packet.Next (l, _) => l
     | _ => []
     end)
  = ["res-1"; "res-3"].
Proof. vm_compute. reflexivity. Qed.

(** A new instance has no client yet, and neither has one whose second
    [Start] was refused the client: the helpers that go through it
    panic. *)
Example helpers_without_client :
  (packet.packetInstance.updateProject (lab.world None) lab.fresh).1
  = packet.Panic "invalid memory address or nil pointer dereference"
  /\ (packet.packetInstance.findKeys (lab.world None) lab.restarted).1
     = packet.Panic "invalid memory address or nil pointer dereference"
  /\ (packet.packetInstance.createKey (lab.world None) "id_rsa.pub" lab.restarted).1
     = packet.Panic "invalid memory address or nil pointer dereference"
  /\ (packet.packetInstance.createHardwareDevice (lab.world None) lab.worker
                                                 lab.restarted).1
     = packet.Panic "invalid memory address or nil pointer dereference"
  /\ (packet.packetInstance.createFacilityDevice
        (lab.world None)
        {| config.HardwareDevice := sample.device; config.Plan := "t1.small.x86" |}
        lab.restarted).1
     = packet.Panic "invalid memory address or nil pointer dereference"
  /\ (packet.packetInstance.findHardwareReservations (lab.world None)
                                                     lab.restarted).1
     = packet.Panic "invalid memory address or nil pointer dereference"
  /\ (packet.packetInstance.createHardwareDevice (lab.world None) lab.worker
                                                 lab.fresh).1
     = packet.Next ("", Some "empty hardware reservations list").
Proof. vm_compute. repeat split; reflexivity. Qed.

(** A service that answers every request with [Oh snap, something went
    wrong], on the started instance, which holds two reservations: both
    were asked for, and the error speaks of an empty list. *)
Lemma createHardwareDevice_exhausted_witness :
  exists devReq,
    (packet.packetInstance.createRequest
       (lab.journal (Some "Oh snap, something went wrong")) lab.worker lab.started).1
    = packet.Next (Some devReq, None)
    /\ packet.packetInstance.createHardwareDevice
         (lab.journal (Some "Oh snap, something went wrong")) lab.worker lab.started
       = (packet.Next ("", Some "empty hardware reservations list"),
          {| packet.packetInstance.world :=
               attempted (lab.journal (Some "Oh snap, something went wrong"))
                         (packet.packetInstance.id (packet.packetInstance.self lab.started))
                         (config.Name lab.worker)
                         (reserved devReq <$>
                            packet.packetInstance.hardwareReservationsList
                              (packet.packetInstance.self lab.started))
                         (packet.packetInstance.world lab.started);
             packet.packetInstance.provider := packet.packetInstance.provider lab.started;
             packet.packetInstance.self := packet.packetInstance.self lab.started |}).
Proof.
  eexists. split; [vm_compute; reflexivity|].
  apply (createHardwareDevice_exhausted
           (lab.journal (Some "Oh snap, something went wrong")) lab.worker lab.started).
  - vm_compute. reflexivity.
  - intros req w. eexists. split; [reflexivity|]. right. reflexivity.
  - vm_compute. reflexivity.
Defined.

(** The journal of that call: the two reservations in the order of the
    instance's list, each with its facility, and the two answers in the
    log of the device. *)
Example createHardwareDevice_journal :
  let w := packet.packetInstance.world
             (packet.packetInstance.createHardwareDevice
                (lab.journal (Some "Oh snap, something went wrong"))
                lab.worker lab.started).2 in
  w !! "packet/devices" = Some "res-1@ewr1;res-3@sjc1;"
  /\ w !! "log/lab-1/create-device-worker"
     = Some ("HostName=ci-worker" +:+ nl +:+ "Oh snap, something went wrong"
             +:+ "HostName=ci-worker" +:+ nl +:+ "Oh snap, something went wrong").
Proof. vm_compute. split; reflexivity. Qed.

Lemma createFacilityDevice_exhausted_witness :
  exists devReq,
    (packet.packetInstance.createRequest
       (lab.journal (Some "Oh snap, something went wrong")) sample.device
       lab.started).1
    = packet.Next (Some devReq, None)
    /\ packet.packetInstance.createFacilityDevice
         (lab.journal (Some "Oh snap, something went wrong"))
         {| config.HardwareDevice := sample.device; config.Plan := "t1.small.x86" |}
         lab.started
       = (packet.Next ("", Some "empty facilities list"),
          {| packet.packetInstance.world :=
               attempted (lab.journal (Some "Oh snap, something went wrong"))
                         (packet.packetInstance.id (packet.packetInstance.self lab.started))
                         (config.Name sample.device)
                         (placed "t1.small.x86" devReq <$>
                            packet.packetInstance.facilitiesList
                              (packet.packetInstance.self lab.started))
                         (packet.packetInstance.world lab.started);
             packet.packetInstance.provider := packet.packetInstance.provider lab.started;
             packet.packetInstance.self := packet.packetInstance.self lab.started |}).
Proof.
  eexists. split; [vm_compute; reflexivity|].
  apply (createFacilityDevice_exhausted
           (lab.journal (Some "Oh snap, something went wrong"))
           {| config.HardwareDevice := sample.device; config.Plan := "t1.small.x86" |}
           lab.started).
  - vm_compute. reflexivity.
  - intros req w. eexists. split; [reflexivity|]. right. reflexivity.
  - vm_compute. reflexivity.
Defined.

Example createFacilityDevice_journal :
  packet.packetInstance.world
    (packet.packetInstance.createFacilityDevice
       (lab.journal (Some "Oh snap, something went wrong"))
       {| config.HardwareDevice := sample.device; config.Plan := "t1.small.x86" |}
       lab.started).2
  !! "packet/devices" = Some "@ams1;@sjc1;@ewr1;".
Proof. vm_compute. reflexivity. Qed.

(** The instance has gone through [doInstall]; the second call does
    nothing. *)
Lemma doInstall_once_witness :
  packet.packetInstance.doInstall (lab.world None)
    (packet.packetInstance.doInstall (lab.world None) lab.fresh).2
  = (packet.Next ("", None),
     (packet.packetInstance.doInstall (lab.world None) lab.fresh).2).
Proof.
  apply (doInstall_once (lab.world None) lab.fresh
           (packet.packetInstance.doInstall (lab.world None) lab.fresh).2).
  - vm_compute. discriminate.
  - reflexivity.
  - reflexivity.
Defined.

(** ** Cleaning up *)
Section CleanupFacts.
Import config providers packet.
Import packetInstance.
Context {W File : Type} (ext : External W) (host : shellManager.Host W File).

Lemma CleanupClusters_cases (p : packetProvider.t)
      (cfg : ClusterProviderConfig) (instanceOptions : InstanceOptions) (w : W) :
  let p' := (cleanup.CleanupClusters ext host p cfg instanceOptions w).1 in
  packetProvider.root p' = packetProvider.root p
  /\ packetProvider.indexes p' = packetProvider.indexes p
  /\ (packetProvider.installDone p' = packetProvider.installDone p
      \/ (packetProvider.installDone p'
          = <[ProviderName cfg := true]> (packetProvider.installDone p)
          /\ NoInstall instanceOptions = false
          /\ packetProvider.installDone p !! ProviderName cfg <> Some true
          /\ exists iScript,
              Scripts cfg !! packet.installScript = Some iScript
              /\ (shellManager.RunCmd host
                    (shellManager.NewManager (ProviderName cfg +:+ "-cleanup")
                                             cfg instanceOptions)
                    "install" (default [] (ParseScript W ext iScript))
                    (Env cfg) w).1.2 = None)).
Proof.
  unfold cleanup.CleanupClusters.
  destruct (Scripts cfg !! cleanupScript) as [cScript|]; [|by repeat split; left].
  destruct (NoInstall instanceOptions) eqn:Hno; simpl.
  { destruct (shellManager.RunCmd _ _ _ _ _ _). simpl. by repeat split; left. }
  destruct (packetProvider.installDone p !! ProviderName cfg) as [[|]|] eqn:Hdone; simpl.
  { destruct (shellManager.RunCmd _ _ _ _ _ _). simpl. by repeat split; left. }
  all: destruct (Scripts cfg !! packet.installScript) as [iScript|] eqn:Hi;
    [|destruct (shellManager.RunCmd _ _ _ _ _ _); simpl; by repeat split; left].
  all: destruct (shellManager.RunCmd host _ "install" _ _ _) as [[f [e|]] w1] eqn:Hrun;
    simpl; destruct (shellManager.RunCmd host _ "cleanup" _ _ _); simpl;
    [by repeat split; left|].
  all: split; [done|]; split; [done|]; right; split; [done|]; split; [done|];
    split; [by rewrite ?Hdone|]; exists iScript; by rewrite ?Hrun.
Qed.

(** X21.  [CleanupClusters] does nothing for a configuration without a
    cleanup script.  In every case it leaves the provider's root and
    ordinals as they were and marks no install but that of the
    configuration's name, and this one only when installs are not
    switched off, the install was not yet marked, the configuration has
    an install script, and the script ran without error. *)
Theorem CleanupClusters_provider (p : packetProvider.t)
        (cfg : ClusterProviderConfig) (instanceOptions : InstanceOptions) (w : W) :
  (Scripts cfg !! cleanupScript = None ->
   cleanup.CleanupClusters ext host p cfg instanceOptions w = (p, w))
  /\ (let p' := (cleanup.CleanupClusters ext host p cfg instanceOptions w).1 in
      packetProvider.root p' = packetProvider.root p
      /\ packetProvider.indexes p' = packetProvider.indexes p
      /\ (packetProvider.installDone p' = packetProvider.installDone p
          \/ (packetProvider.installDone p'
              = <[ProviderName cfg := true]> (packetProvider.installDone p)
              /\ NoInstall instanceOptions = false
              /\ packetProvider.installDone p !! ProviderName cfg <> Some true
              /\ exists iScript,
                  Scripts cfg !! packet.installScript = Some iScript
                  /\ (shellManager.RunCmd host
                        (shellManager.NewManager (ProviderName cfg +:+ "-cleanup")
                                                 cfg instanceOptions)
                        "install" (default [] (ParseScript W ext iScript))
                        (Env cfg) w).1.2 = None))).
Proof.
  split; [|apply CleanupClusters_cases].
  unfold cleanup.CleanupClusters. by intros ->.
Qed.

(** X22.  An install that an instance has gone through is not run again
    by [CleanupClusters]: after [doInstall] of an instance with an
    install script, whether the script succeeded or not,
    [CleanupClusters] for a configuration of the same name leaves the
    provider as it is and runs the cleanup script only, in a manager of
    its own named after the configuration, with the configuration's
    [Env]. *)
Theorem CleanupClusters_after_doInstall (s : state W)
        (cfg : ClusterProviderConfig) (instanceOptions : InstanceOptions) (w : W) :
  installScript (self s) <> None ->
  ProviderName cfg = ProviderName (config (self s)) ->
  cleanup.CleanupClusters ext host (provider (doInstall ext s).2) cfg instanceOptions w
  = (provider (doInstall ext s).2,
     match Scripts cfg !! cleanupScript with
     | None => w
     | Some _ =>
       (shellManager.RunCmd host
          (shellManager.NewManager (ProviderName cfg +:+ "-cleanup") cfg instanceOptions)
          "cleanup" (default [] (ParseScript W ext (script cfg cleanupScript)))
          (Env cfg) w).2
     end).
Proof.
  intros Hscript Hname.
  unfold cleanup.CleanupClusters. destruct (Scripts cfg !! cleanupScript); [|done].
  rewrite Hname, doInstall_marks by done. simpl. rewrite orb_true_r. simpl.
  by destruct (shellManager.RunCmd _ _ _ _ _ _).
Qed.

(** X23.  An install that [CleanupClusters] has run and marked is not
    run again by the instances: when the call has changed the provider's
    [installDone], [doInstall] does nothing for an instance of that
    provider whose configuration has the same name. *)
Theorem doInstall_after_CleanupClusters (p : packetProvider.t)
        (cfg : ClusterProviderConfig) (instanceOptions : InstanceOptions) (w : W)
        (s : state W) :
  packetProvider.installDone (cleanup.CleanupClusters ext host p cfg instanceOptions w).1
  <> packetProvider.installDone p ->
  provider s = (cleanup.CleanupClusters ext host p cfg instanceOptions w).1 ->
  ProviderName (config (self s)) = ProviderName cfg ->
  doInstall ext s = (Next ("", None), s).
Proof.
  intros Hchanged Hprov Hname.
  destruct (CleanupClusters_cases p cfg instanceOptions w)
    as (_ & _ & [Hsame|(Hmarked & _)]); [done|].
  unfold doInstall. rewrite Hprov, Hname, Hmarked, lookup_insert_eq. simpl.
  by rewrite andb_false_r.
Qed.

End CleanupFacts.

(** After the instance's install, the cleanup of its configuration
    installs nothing. *)
Lemma CleanupClusters_after_doInstall_witness :
  cleanup.CleanupClusters (lab.world None) (lab.host "")
    (packet.packetInstance.provider
       (packet.packetInstance.doInstall (lab.world None) lab.fresh).2)
    (lab.providerConfig "lab") sample.options sample.environment
  = (packet.packetInstance.provider
       (packet.packetInstance.doInstall (lab.world None) lab.fresh).2,
     match config.Scripts (lab.providerConfig "lab") !! packet.cleanupScript with
     | None => sample.environment
     | Some _ =>
       (shellManager.RunCmd (lab.host "")
          (shellManager.NewManager
             (config.ProviderName (lab.providerConfig "lab") +:+ "-cleanup")
             (lab.providerConfig "lab") sample.options)
          "cleanup"
          (default [] (packet.ParseScript _ (lab.world None)
                         (packet.script (lab.providerConfig "lab") packet.cleanupScript)))
          (config.Env (lab.providerConfig "lab")) sample.environment).2
     end).
Proof.
  apply (CleanupClusters_after_doInstall (lab.world None) (lab.host "") lab.fresh
           (lab.providerConfig "lab") sample.options sample.environment).
  - vm_compute. discriminate.
  - reflexivity.
Defined.

(** On a new provider the cleanup of the configuration runs its install
    script; the instance made afterwards installs nothing. *)
Lemma doInstall_after_CleanupClusters_witness :
  packet.packetInstance.doInstall (lab.world None)
    {| packet.packetInstance.world := sample.environment;
       packet.packetInstance.provider :=
         (cleanup.CleanupClusters (lab.world None) (lab.host "")
            (packet.packetProvider.NewPacketClusterProvider "/tmp/ct")
            (lab.providerConfig "lab") sample.options sample.environment).1;
       packet.packetInstance.self := packet.packetInstance.self lab.fresh |}
  = (packet.Next ("", None),
     {| packet.packetInstance.world := sample.environment;
        packet.packetInstance.provider :=
          (cleanup.CleanupClusters (lab.world None) (lab.host "")
             (packet.packetProvider.NewPacketClusterProvider "/tmp/ct")
             (lab.providerConfig "lab") sample.options sample.environment).1;
        packet.packetInstance.self := packet.packetInstance.self lab.fresh |}).
Proof.
  apply (doInstall_after_CleanupClusters (lab.world None) (lab.host "")
           (packet.packetProvider.NewPacketClusterProvider "/tmp/ct")
           (lab.providerConfig "lab") sample.options sample.environment).
  - vm_compute. discriminate.
  - reflexivity.
  - reflexivity.
Defined.

Example CleanupClusters_failed_install :
  packet.packetProvider.installDone
    (cleanup.CleanupClusters (lab.world None) (lab.host "make packet-install")
       (packet.packetProvider.NewPacketClusterProvider "/tmp/ct")
       (lab.providerConfig "lab") sample.options sample.environment).1
  = ∅.
Proof. vm_compute. reflexivity. Qed.

(** ** What the methods leave alone *)
Section InstanceFrame.
Import config providers packet.
Import packetInstance.
Context {W : Type} (ext : External W).

(** [updateKUBEConfig] keeps what does not depend on the location. *)
Lemma updateKUBEConfig_keeps R (X P : t W -> Prop) :
  (forall pi, P pi -> X pi) ->
  (forall v pi, P pi -> P (set_configLocation v pi)) ->
  hoare R X P (updateKUBEConfig ext) (fun _ => P).
Proof.
  intros HX HP. unfold updateKUBEConfig.
  apply inv_this. intros pi.
  eapply (hoare_bind _ _ P _ _ (fun _ => P)).
  { case_bool_decide; [|by apply hoare_ret].
    eapply hoare_bind; [apply hoare_look|]. intros loc.
    apply hoare_assign. intros. by apply HP. }
  intros _. apply inv_this. intros pi'.
  case_bool_decide; [|by apply hoare_ret].
  eapply hoare_bind; [apply hoare_call|]. intros [[|location output] err].
  - by apply hoare_panic.
  - eapply (hoare_bind _ _ P _ _ (fun _ => P));
      [apply hoare_assign; intros; by apply HP|].
    intros _. by apply hoare_ret.
Qed.

Lemma keeps_constants (c : _) : keeps (fun pi : t W => constants pi = c).
Proof. unfold keeps. repeat split; intros v pi H; exact H. Qed.

Lemma Start_constants timeout (s : state W) :
  constants (self (run (Start ext timeout) s).2) = constants (self s).
Proof.
  pose proof (Start_hoare ext
    (fun _ _ pi => constants pi = constants (self s))
    (fun pi => constants pi = constants (self s))
    (fun pi => constants pi = constants (self s))) as H.
  specialize (H ltac:(done) ltac:(done) (keeps_constants _)
                (updateKUBEConfig_keeps _ (fun pi => constants pi = constants (self s))
                                        (fun pi => constants pi = constants (self s))
                                        ltac:(done) ltac:(intros v pi Hpi; exact Hpi))
                ltac:(intros v pi Hpi; exact Hpi) timeout s eq_refl).
  unfold run. destruct (Start ext timeout s) as [[[]|fn e|msg] s']; done.
Qed.

(** X24.  No method changes what [CreateCluster] gave the instance: after
    any sequence of calls [GetID] and [GetRoot] return what they returned
    before, and the configuration, the options, the factory, the scripts,
    the project ID and the token are the same. *)
Theorem instance_constants (s : state W) (ms : list method) :
  GetID (self (invokeAll ext ms s)) = GetID (self s)
  /\ GetRoot (self (invokeAll ext ms s)) = GetRoot (self s)
  /\ constants (self (invokeAll ext ms s)) = constants (self s).
Proof.
  assert (constants (self (invokeAll ext ms s)) = constants (self s)) as H.
  { induction ms as [|m ms IH] using rev_ind; [done|].
    rewrite invokeAll_snoc, <- IH.
    destruct m as [timeout|timeout| | | | |]; simpl; try done.
    - apply Start_constants.
    - by rewrite CheckIsAlive_self. }
  split; [|split; [|done]].
  - unfold GetID. by injection H.
  - unfold GetRoot. by injection H.
Qed.

(** X25.  A running instance stays running: once [IsRunning] is true no
    call makes it false, neither [Destroy], which only logs, nor a
    [Start] that fails; and [GetClusterConfig] goes on returning a nil
    error. *)
Theorem IsRunning_stays (s : state W) (ms : list method) :
  IsRunning (self s) = true ->
  IsRunning (self (invokeAll ext ms s)) = true
  /\ (GetClusterConfig (self (invokeAll ext ms s))).2 = None.
Proof.
  intros Hs.
  assert (started (self (invokeAll ext ms s)) = true) as H.
  { induction ms as [|m ms IH] using rev_ind; [done|].
    rewrite invokeAll_snoc.
    destruct (invoke_started ext m (invokeAll ext ms s)) as [->|[-> _]]; done. }
  split; [done|]. by apply GetClusterConfig_nil.
Qed.

(** X26.  [Start] names a log file only with an error: when it returns a
    nil error the file name it returns is empty. *)
Theorem Start_nil_no_file (timeout : Z) (s : state W) :
  match run (Start ext timeout) s with
  | (Returned (fileName, None), _) => fileName = ""
  | _ => True
  end.
Proof.
  pose proof (Start_hoare ext
    (fun fileName err _ => err = None -> fileName = "")
    (fun _ => True) (fun _ => True)) as H.
  specialize (H ltac:(done) ltac:(done)).
  specialize (H ltac:(by unfold keeps)).
  specialize (H (updateKUBEConfig_keeps _ (fun _ => True) (fun _ => True)
                                        ltac:(done) ltac:(done))
                ltac:(done) timeout s I).
  unfold run. destruct (Start ext timeout s) as [[[]|fn [e|]|msg] s']; try done.
  by apply H.
Qed.

End InstanceFrame.

(** The instance started in the laboratory is destroyed and started again
    in a world whose setup script fails: it is still running. *)
Lemma IsRunning_stays_witness :
  packet.packetInstance.IsRunning
    (packet.packetInstance.self
       (packet.packetInstance.invokeAll (sample.world "setup")
          [packet.packetInstance.mDestroy 60; packet.packetInstance.mStart 1800]
          (packet.packetInstance.invoke (lab.world None)
             (packet.packetInstance.mStart 1800) lab.fresh)))
  = true
  /\ (packet.packetInstance.GetClusterConfig
        (packet.packetInstance.self
           (packet.packetInstance.invokeAll (sample.world "setup")
              [packet.packetInstance.mDestroy 60; packet.packetInstance.mStart 1800]
              (packet.packetInstance.invoke (lab.world None)
                 (packet.packetInstance.mStart 1800) lab.fresh)))).2
     = None.
Proof.
  apply (IsRunning_stays (sample.world "setup")
           (packet.packetInstance.invoke (lab.world None)
              (packet.packetInstance.mStart 1800) lab.fresh)
           [packet.packetInstance.mDestroy 60; packet.packetInstance.mStart 1800]).
  vm_compute. reflexivity.
Defined.

Example Start_again_fails :
  (packet.packetInstance.run
     (packet.packetInstance.Start (sample.world "setup") 1800)
     (packet.packetInstance.invoke (lab.world None)
        (packet.packetInstance.mStart 1800) lab.fresh)).1
  = packet.Returned ("setup.log", Some "exit status 1").
Proof. vm_compute. reflexivity. Qed.

(** ** What the methods do to the provider *)
Section ProviderFrame.
Import config providers packet.
Import packetInstance.
Context {W : Type} (ext : External W).

Lemma marksInstalls_refl p : marksInstalls p p.
Proof. split; [done|]. split; [done|]. by left. Qed.

Lemma marksInstalls_trans p1 p2 p3 :
  marksInstalls p1 p2 -> marksInstalls p2 p3 -> marksInstalls p1 p3.
Proof.
  intros (Hr1 & Hi1 & Hd1) (Hr2 & Hi2 & Hd2).
  split; [congruence|]. split; [congruence|]. intros name.
  destruct (Hd2 name) as [->|?]; [apply Hd1 | by right].
Qed.

Lemma installsOnly_same {A} (m : M W A) :
  (forall s, provider (m s).2 = provider s) -> installsOnly m.
Proof. intros H s. rewrite H. apply marksInstalls_refl. Qed.

Lemma installsOnly_bind {A B} (m : M W A) (k : A -> M W B) :
  installsOnly m -> (forall a, installsOnly (k a)) -> installsOnly (bind m k).
Proof.
  intros Hm Hk s. unfold bind. specialize (Hm s).
  destruct (m s) as [[a|f e|msg] s']; [|done..].
  eapply marksInstalls_trans; [done | apply Hk].
Qed.

Lemma installsOnly_doInstall : installsOnly (doInstall ext).
Proof.
  intros s. unfold doInstall. destruct (_ && _); [|apply marksInstalls_refl].
  unfold call. simpl. destruct (RunCmd _ _ _ _ _ _). simpl.
  split; [done|]. split; [done|]. intros name. simpl.
  destruct (decide (name = ProviderName (config (self s)))) as [->|Hne].
  - right. by rewrite lookup_insert_eq.
  - left. by rewrite lookup_insert_ne.
Qed.

Ltac frame_prim :=
  apply installsOnly_same; intros ?;
  unfold request, this, assign, call, effect, look, ret, returns, panic; simpl;
  repeat case_match; done.

Ltac frame_step :=
  lazymatch goal with
  | |- installsOnly (bind _ _) => apply installsOnly_bind; [|intros ?]
  | |- installsOnly (orFail _) => unfold orFail
  | |- installsOnly (orFailWith _) => unfold orFailWith
  | |- installsOnly (doInstall _) => apply installsOnly_doInstall
  | |- installsOnly (this) => frame_prim
  | |- installsOnly (assign _) => frame_prim
  | |- installsOnly (call _) => frame_prim
  | |- installsOnly (request _) => frame_prim
  | |- installsOnly (effect _) => frame_prim
  | |- installsOnly (look _) => frame_prim
  | |- installsOnly (ret _) => frame_prim
  | |- installsOnly (returns _ _) => frame_prim
  | |- installsOnly (panic _) => frame_prim
  | |- installsOnly (match ?x with _ => _ end) => destruct x
  end.

Lemma frame_updateProject : installsOnly (updateProject ext).
Proof. unfold updateProject. repeat frame_step. Qed.

Lemma frame_findKeys : installsOnly (findKeys ext).
Proof. unfold findKeys. repeat frame_step. Qed.

Lemma frame_createKey keyFile : installsOnly (createKey ext keyFile).
Proof. unfold createKey. repeat first [apply frame_findKeys | frame_step]. Qed.

Lemma frame_updateKUBEConfig : installsOnly (updateKUBEConfig ext).
Proof. unfold updateKUBEConfig. repeat frame_step. Qed.

Lemma frame_createRequest devCfg : installsOnly (createRequest ext devCfg).
Proof. unfold createRequest. repeat frame_step. Qed.

Lemma frame_reservationsLoop name devReq reservations :
  installsOnly (reservationsLoop ext name devReq reservations).
Proof.
  revert devReq. induction reservations as [|hr rest IH]; intros devReq; simpl.
  - frame_step.
  - repeat first [apply IH | frame_step].
Qed.

Lemma frame_facilitiesLoop name devReq facilities :
  installsOnly (facilitiesLoop ext name devReq facilities).
Proof.
  revert devReq. induction facilities as [|f rest IH]; intros devReq; simpl.
  - frame_step.
  - repeat first [apply IH | frame_step].
Qed.

Lemma frame_createHardwareDevice devCfg :
  installsOnly (createHardwareDevice ext devCfg).
Proof.
  unfold createHardwareDevice.
  repeat first [apply frame_createRequest | apply frame_reservationsLoop | frame_step].
Qed.

Lemma frame_createFacilityDevice devCfg :
  installsOnly (createFacilityDevice ext devCfg).
Proof.
  unfold createFacilityDevice.
  repeat first [apply frame_createRequest | apply frame_facilitiesLoop | frame_step].
Qed.

Lemma frame_findHardwareReservations : installsOnly (findHardwareReservations ext).
Proof. unfold findHardwareReservations. repeat frame_step. Qed.

Lemma frame_findFacilities : installsOnly (findFacilities ext).
Proof. unfold findFacilities. repeat frame_step. Qed.

Lemma frame_portsLoop key portVLANs : installsOnly (portsLoop ext key portVLANs).
Proof.
  induction portVLANs as [|[portName vlanTag] rest IH]; simpl.
  - frame_step.
  - repeat first [apply IH | frame_step].
Qed.

Lemma frame_setupDevicePorts key portVLANs :
  installsOnly (setupDevicePorts ext key portVLANs).
Proof. unfold setupDevicePorts. repeat first [apply frame_portsLoop | frame_step]. Qed.

Lemma frame_networkLoop key network : installsOnly (networkLoop ext key network).
Proof.
  induction network as [|n rest IH]; simpl; [frame_step|].
  repeat first [apply IH | frame_step].
Qed.

Lemma frame_devicesLoop entries : installsOnly (devicesLoop ext entries).
Proof.
  induction entries as [|[key devID] rest IH]; simpl; [frame_step|].
  repeat first [apply IH | apply frame_networkLoop | frame_step].
Qed.

Lemma frame_hardwareDevicesLoop devs portsVLANs :
  installsOnly (hardwareDevicesLoop ext devs portsVLANs).
Proof.
  revert portsVLANs. induction devs as [|devCfg devs IH]; intros portsVLANs; simpl.
  - frame_step.
  - repeat first [apply IH | apply frame_createHardwareDevice | frame_step].
Qed.

Lemma frame_facilityDevicesLoop devs portsVLANs :
  installsOnly (facilityDevicesLoop ext devs portsVLANs).
Proof.
  revert portsVLANs. induction devs as [|devCfg devs IH]; intros portsVLANs; simpl.
  - frame_step.
  - repeat first [apply IH | apply frame_createFacilityDevice | frame_step].
Qed.

Lemma frame_setupPortsLoop entries : installsOnly (setupPortsLoop ext entries).
Proof.
  induction entries as [|[key portVLANs] entries IH]; simpl; [frame_step|].
  repeat first [apply IH | apply frame_setupDevicePorts | frame_step].
Qed.

Lemma frame_Start timeout : installsOnly (Start ext timeout).
Proof.
  unfold Start, addDeviceContextArguments.
  repeat first [ apply frame_updateProject | apply frame_createKey
               | apply frame_findHardwareReservations | apply frame_findFacilities
               | apply frame_hardwareDevicesLoop | apply frame_facilityDevicesLoop
               | apply frame_setupPortsLoop | apply frame_devicesLoop
               | apply frame_updateKUBEConfig | frame_step ].
Qed.

Lemma CheckIsAlive_provider (s : state W) : provider (CheckIsAlive s).2 = provider s.
Proof.
  unfold CheckIsAlive. destruct (started (self s)); [|done].
  destruct (validator (self s)) as [v|]; [|done]. by destruct (Validate v (world s)).
Qed.

(** X27.  No method of an instance touches the ordinals of its provider:
    after any sequence of calls the provider has the root and the
    ordinals it had, and at most more installs marked done; so
    [getProviderID] gives the ordinal it would have given before. *)
Theorem methods_keep_ordinals (s : state W) (ms : list method) (name : string) :
  marksInstalls (provider s) (provider (invokeAll ext ms s))
  /\ (packetProvider.getProviderID (provider (invokeAll ext ms s)) name).1
     = (packetProvider.getProviderID (provider s) name).1.
Proof.
  assert (marksInstalls (provider s) (provider (invokeAll ext ms s))) as H.
  { induction ms as [|m ms IH] using rev_ind; [apply marksInstalls_refl|].
    rewrite invokeAll_snoc. eapply marksInstalls_trans; [exact IH|].
    destruct m as [timeout|timeout| | | | |]; simpl; try apply marksInstalls_refl.
    - unfold run. pose proof (frame_Start timeout (invokeAll ext ms s)) as Hf.
      by destruct (Start ext timeout _) as [[[]|fn e|msg] s'].
    - rewrite CheckIsAlive_provider. apply marksInstalls_refl. }
  split; [done|]. destruct H as (_ & Hi & _).
  unfold packetProvider.getProviderID. by rewrite Hi.
Qed.

End ProviderFrame.

Example methods_keep_ordinals_sample :
  (packet.packetProvider.getProviderID
     (packet.packetInstance.provider
        (packet.packetInstance.invokeAll (lab.world None)
           [packet.packetInstance.mStart 1800; packet.packetInstance.mDestroy 60]
           lab.fresh)) "lab").1
  = "2".
Proof. vm_compute. reflexivity. Qed.

(** ** The validator of a started instance *)
Section StartValidator.
Import config providers packet.
Import packetInstance.
Context {W : Type} (ext : External W).
Variable R : string -> option error -> t W -> Prop.
Variable X : t W -> Prop.
Variable P : t W -> Prop.

Hypothesis Herr : forall fileName e pi, P pi -> R fileName (Some e) pi.
Hypothesis Hpanic : forall pi, P pi -> X pi.
Hypothesis Hkeeps : keeps P.
Hypothesis Hkube : hoare R X P (updateKUBEConfig ext) (fun _ => P).
Hypothesis Hmade :
  forall v pi w,
    P pi ->
    (CreateValidator (factory pi) (config pi) (configLocation pi) w).1 = (Some v, None) ->
    R "" None (set_started true (set_validator (Some v) pi)).

Let keep_client v pi : P pi -> P (set_client v pi).
Proof. apply Hkeeps. Qed.
Let keep_keyIds v pi : P pi -> P (set_keyIds v pi).
Proof. apply Hkeeps. Qed.
Let keep_virtualNetworkList v pi : P pi -> P (set_virtualNetworkList v pi).
Proof. apply Hkeeps. Qed.
Let keep_hardwareReservationsList v pi : P pi -> P (set_hardwareReservationsList v pi).
Proof. apply Hkeeps. Qed.
Let keep_facilitiesList v pi : P pi -> P (set_facilitiesList v pi).
Proof. apply Hkeeps. Qed.
Let keep_validator v pi : P pi -> P (set_validator v pi).
Proof. apply Hkeeps. Qed.
Local Hint Resolve keep_client keep_keyIds keep_virtualNetworkList
      keep_hardwareReservationsList keep_facilitiesList keep_validator : core.

Ltac inv_step :=
  lazymatch goal with
  | |- hoare _ _ _ (request _) _ => apply hoare_request; by eauto
  | |- hoare _ _ _ (bind this _) _ => apply inv_this; intros ?
  | |- hoare _ _ _ (bind _ _) _ => apply (inv_bind R X P); [| intros ?]
  | |- hoare _ _ _ (orFail _) _ => apply (inv_orFail R X P); [by eauto|]
  | |- hoare _ _ _ (orFailWith _) _ => apply (inv_orFailWith R X P); [by eauto|]
  | |- hoare _ _ _ (call _) _ => apply hoare_call
  | |- hoare _ _ _ (effect _) _ => apply hoare_effect
  | |- hoare _ _ _ (look _) _ => apply hoare_look
  | |- hoare _ _ _ (assign _) _ => apply hoare_assign; by eauto
  | |- hoare _ _ _ (ret _) _ => apply hoare_ret; by eauto
  | |- hoare _ _ _ (returns _ _) _ => apply hoare_returns; by eauto
  | |- hoare _ _ _ (panic _) _ => apply hoare_panic; by eauto
  | |- hoare _ _ _ (doInstall _) _ => apply (inv_doInstall ext R X P)
  end.

(** [Start] as in [Start_hoare], with what is known of the validator the
    instance ends with: its factory made it, for its configuration and
    its location. *)
Lemma Start_hoare_validator timeout :
  hoare R X P (Start ext timeout) (fun _ _ => False).
Proof.
  unfold Start.
  apply inv_this; [done..|]. intros pi.
  do 2 (apply (inv_bind R X P); [done.. | repeat inv_step |]; intros ?).
  apply (inv_bind R X P); [done..| |intros ?].
  { destruct (negb _); repeat inv_step. }
  apply (inv_bind R X P); [done.. | repeat inv_step |]; intros ?.
  destruct (Packet (config pi)) as [pk|]; [|repeat inv_step].
  apply (inv_bind R X P); [done.. | repeat inv_step |]; intros found1.
  apply (inv_bind R X P); [done.. | |intros keyFile].
  { destruct found1; [repeat inv_step|].
    apply (inv_bind R X P); [done.. | repeat inv_step |]; intros found2.
    destruct found2; repeat inv_step. }
  do 3 (apply (inv_bind R X P); [done.. | repeat inv_step |]; intros ?).
  apply (inv_bind R X P);
    [done.. | apply inv_orFail, (inv_updateProject ext R X P); done |].
  intros _.
  apply (inv_bind R X P); [done.. | by apply (inv_createKey ext R X P) |].
  intros [ids kerr].
  do 2 (apply (inv_bind R X P); [done.. | repeat inv_step |]; intros ?).
  apply (inv_bind R X P); [done.. | repeat inv_step |]. intros [networks verr].
  do 2 (apply (inv_bind R X P); [done.. | repeat inv_step |]; intros ?).
  apply (inv_bind R X P);
    [done.. | by apply (inv_findHardwareReservations ext R X P) |].
  intros [reservations herr].
  do 2 (apply (inv_bind R X P); [done.. | repeat inv_step |]; intros ?).
  apply (inv_bind R X P); [done.. | by apply (inv_hardwareDevicesLoop ext R X P) |].
  intros portsVLANs.
  apply (inv_bind R X P); [done.. | by apply (inv_findFacilities ext R X P) |].
  intros [facilities ferr].
  do 2 (apply (inv_bind R X P); [done.. | repeat inv_step |]; intros ?).
  apply (inv_bind R X P); [done.. | by apply (inv_facilityDevicesLoop ext R X P) |].
  intros portsVLANs'.
  apply inv_this; [done..|]. intros pi1.
  apply (inv_bind R X P); [done.. | repeat inv_step |]; intros ?.
  apply (inv_bind R X P); [done.. | by apply (inv_setupPortsLoop ext R X P) |]; intros ?.
  apply (inv_bind R X P);
    [done.. | apply inv_orFail;
              [by eauto | by apply (inv_addDeviceContextArguments ext R X P)] |].
  intros _.
  do 3 (apply (inv_bind R X P); [done.. | repeat inv_step |]; intros ?).
  apply (inv_bind R X P); [done.. | apply inv_orFail; done |]; intros ?.
  (* the instance read next is the instance the validator is made for *)
  intros s Hs. unfold bind at 1, this at 1. unfold bind at 1, call at 1.
  destruct (CreateValidator _ _ _ _) as [[created cverr] w1] eqn:Hcreate.
  unfold bind at 1, assign at 1. simpl.
  unfold bind at 1, orFail, bind at 1, ret at 1.
  destruct cverr as [e|]; [apply Herr; by apply keep_validator|].
  unfold ret at 1, bind at 1, orFailWith, bind at 1, call at 1. simpl.
  destruct (RunCmd _ _ _ _ _ _) as [[fileName [e|]] w2];
    [apply Herr; by apply keep_validator|].
  unfold ret at 1. destruct created as [v|]; [|apply Hpanic; by apply keep_validator].
  unfold bind at 1, call at 1. simpl.
  destruct (WaitValid v w2) as [[e|] w3]; [apply Herr; by apply keep_validator|].
  simpl. unfold bind, assign, returns. simpl.
  apply (Hmade v (self s) (world s) Hs). by rewrite Hcreate.
Qed.
End StartValidator.

Section ValidatorFacts.
Import config providers packet.
Import packetInstance.
Context {W : Type} (ext : External W).

(** X28.  The validator of a started instance comes from its factory:
    when [Start] returns a nil error, the instance's validator is one
    that its factory made, without error, for the instance's
    configuration and location. *)
Theorem Start_validator_made (timeout : Z) (s : state W) :
  match run (Start ext timeout) s with
  | (Returned (_, None), s') =>
    exists v w,
      validator (self s') = Some v
      /\ (CreateValidator (factory (self s')) (config (self s'))
                          (configLocation (self s')) w).1 = (Some v, None)
  | _ => True
  end.
Proof.
  pose proof (Start_hoare_validator ext
    (fun _ err pi =>
       err = None ->
       exists v w, validator pi = Some v
                   /\ (CreateValidator (factory pi) (config pi)
                                       (configLocation pi) w).1 = (Some v, None))
    (fun _ => True) (fun _ => True)) as H.
  specialize (H ltac:(done) ltac:(done) ltac:(by unfold keeps)
                (updateKUBEConfig_keeps ext _ (fun _ => True) (fun _ => True)
                                        ltac:(done) ltac:(done))).
  specialize (H ltac:(by intros v pi w _ Hv _; exists v, w) timeout s I).
  unfold run. destruct (Start ext timeout s) as [[[]|fn [e|]|msg] s']; try done.
  by apply H.
Qed.

(** X29.  With the validation factory of the tests, whose validators
    find the cluster valid at once and ever after: when [Start] returns a
    nil error, [CheckIsAlive] returns nil and changes nothing. *)
Theorem Start_test_validator (timeout : Z) (s : state W) :
  factory (self s) = tests.TestValidationFactory ->
  match run (Start ext timeout) s with
  | (Returned (_, None), s') => CheckIsAlive s' = (Returned None, s')
  | _ => True
  end.
Proof.
  intros Hf.
  pose proof (Start_hoare_validator ext
    (fun _ err pi =>
       err = None ->
       started pi = true
       /\ exists location cfg, validator pi = Some (tests.testValidator location cfg))
    (fun _ => True)
    (fun pi => factory pi = tests.TestValidationFactory)) as H.
  specialize (H ltac:(done) ltac:(done)).
  specialize (H ltac:(unfold keeps; repeat split; intros v pi Hpi; exact Hpi)).
  specialize (H (updateKUBEConfig_keeps ext _ (fun _ => True)
                   (fun pi => factory pi = tests.TestValidationFactory)
                   ltac:(done) ltac:(intros v pi Hpi; exact Hpi))).
  assert (forall (v : KubernetesValidator W) (pi : t W) (w : W),
             factory pi = tests.TestValidationFactory ->
             (CreateValidator (factory pi) (config pi) (configLocation pi) w).1
             = (Some v, None) ->
             @None error = None ->
             started (set_started true (set_validator (Some v) pi)) = true
             /\ exists location cfg,
                 validator (set_started true (set_validator (Some v) pi))
                 = Some (tests.testValidator location cfg)) as Hmade.
  { intros v pi w Hpi Hv _. split; [done|]. rewrite Hpi in Hv. simpl in Hv.
    simplify_eq. by exists (configLocation pi), (config pi). }
  specialize (H Hmade timeout s Hf).
  unfold run. destruct (Start ext timeout s) as [[[]|fn [e|]|msg] s']; try done.
  destruct (H eq_refl) as (Hs & location & cfg & Hv).
  unfold CheckIsAlive. rewrite Hs, Hv. simpl. by destruct s'.
Qed.

End ValidatorFacts.

(** The instance of the laboratory, made with the factory of the tests,
    starts and is then found alive. *)
Lemma Start_test_validator_witness :
  match packet.packetInstance.run
          (packet.packetInstance.Start (lab.world None) 1800) lab.fresh with
  | (packet.Returned (_, None), s') =>
    packet.packetInstance.CheckIsAlive s' = (packet.Returned None, s')
  | _ => True
  end.
Proof.
  apply (Start_test_validator (lab.world None) 1800 lab.fresh). reflexivity.
Defined.

Example Start_lab :
  (packet.packetInstance.run
     (packet.packetInstance.Start (lab.world None) 1800) lab.fresh).1
  = packet.Returned ("", None).
Proof. vm_compute. reflexivity. Qed.

(** ** The IDs of a provider, across the names *)
Section AllIds.
Import config providers packet.
Context {W : Type} (ext : External W).

(** The decimal digits of a number hold no dash. *)
Lemma pretty_N_go_no_dash (x : N) (s : string) :
  "-"%char ∉ GoStrings.bytes s -> "-"%char ∉ GoStrings.bytes (pretty_N_go x s).
Proof.
  revert s. induction (N.lt_wf_0 x) as [x _ IH]; intros s Hs.
  assert (x = 0 \/ 0 < x)%N as [->|Hx] by lia.
  - by rewrite pretty_N_go_0.
  - rewrite pretty_N_go_step by done. apply IH; [by apply N.div_lt|].
    unfold GoStrings.bytes in *. simpl. apply not_elem_of_cons. split; [|done].
    unfold pretty_N_char. by repeat case_match.
Qed.

Lemma pretty_no_dash (n : Z) : 0 <= n -> "-"%char ∉ GoStrings.bytes (pretty n).
Proof.
  intros Hn. destruct n as [|n|n]; [| |lia].
  - unfold GoStrings.bytes. simpl. by intros [?|?%elem_of_nil]%elem_of_cons.
  - unfold pretty, pretty_Z, pretty, pretty_positive, pretty, pretty_N.
    rewrite decide_False by done. apply pretty_N_go_no_dash.
    unfold GoStrings.bytes. simpl. apply not_elem_of_nil.
Qed.

(** A list is cut in one way at the first instance of an element. *)
Lemma first_cut {A} (c : A) (l1 l2 r1 r2 : list A) :
  c ∉ l1 -> c ∉ l2 -> l1 ++ c :: r1 = l2 ++ c :: r2 -> l1 = l2 /\ r1 = r2.
Proof.
  revert l2. induction l1 as [|x l1 IH]; intros [|y l2] H1 H2 Heq; simplify_eq/=.
  - done.
  - exfalso. apply H2. left.
  - exfalso. apply H1. left.
  - apply not_elem_of_cons in H1 as [_ H1]. apply not_elem_of_cons in H2 as [_ H2].
    destruct (IH l2 H1 H2 ltac:(done)) as [-> ->]. done.
Qed.

(** An ID tells the name and the ordinal it was made of. *)
Lemma id_inj (P Q : string) (n m : Z) :
  0 <= n -> 0 <= m ->
  P +:+ "-" +:+ pretty n = Q +:+ "-" +:+ pretty m -> P = Q /\ n = m.
Proof.
  intros Hn Hm Heq. apply (f_equal GoStrings.bytes) in Heq.
  rewrite !bytes_app in Heq. apply (f_equal reverse) in Heq.
  rewrite !reverse_app in Heq.
  change (GoStrings.bytes "-") with ["-"%char] in Heq.
  rewrite !reverse_singleton in Heq. rewrite <- !app_assoc in Heq. simpl in Heq.
  apply first_cut in Heq as [Hd HP].
  - apply (inj reverse) in Hd. apply (inj reverse) in HP.
    apply bytes_inj in Hd. apply bytes_inj in HP.
    split; [done|]. by apply (inj pretty).
  - rewrite elem_of_reverse. by apply pretty_no_dash.
  - rewrite elem_of_reverse. by apply pretty_no_dash.
Qed.

Lemma lastOrdinal_nonneg p N Q : ordinalsWithin p N -> 0 <= lastOrdinal p Q.
Proof.
  intros Hin. unfold lastOrdinal.
  destruct (packetProvider.indexes p !! Q) as [v|] eqn:Hv; simpl; [|lia].
  specialize (Hin Q v Hv). lia.
Qed.

Lemma createClusters_created calls : forall p N,
  ordinalsWithin p N -> 0 <= N -> N + Z.of_nat (length calls) < 2^63 ->
  NoDup (created (createClusters ext p calls).1)
  /\ forall id, id ∈ created (createClusters ext p calls).1 ->
                exists Q m, id = Q +:+ "-" +:+ pretty m /\ lastOrdinal p Q < m.
Proof.
  induction calls as [|[[[w cfg] factory] options] calls IH]; intros p N Hin HN0 HN.
  - split; [constructor | by intros id ?%elem_of_nil].
  - simpl in HN. simpl.
    pose proof (CreateCluster_cases ext w p cfg factory options N Hin ltac:(lia)) as Hc.
    destruct (CreateCluster ext w p cfg factory options) as [[oi err] p'].
    simpl in Hc.
    destruct (createClusters ext p' calls) as [rs p''] eqn:Hrs.
    assert (rs = (createClusters ext p' calls).1) as -> by by rewrite Hrs.
    simpl. destruct Hc as [[-> ->]|(pi & -> & Hcfg & Hid & Hp')].
    + simpl. apply (IH p N); [done|lia..].
    + assert (ordinalsWithin p' (N + 1)) as Hin'
        by (rewrite Hp'; apply getProviderID_within; [done|lia]).
      assert (forall Q, lastOrdinal p' Q
                        = if bool_decide (Q = ProviderName cfg)
                          then lastOrdinal p (ProviderName cfg) + 1
                          else lastOrdinal p Q) as Hlast
        by (intros Q; rewrite Hp'; apply (getProviderID_lastOrdinal _ _ N);
            [done|lia]).
      destruct (IH p' (N + 1) Hin' ltac:(lia) ltac:(lia)) as [Hnd Hall].
      unfold created in *. simpl. split.
      * apply NoDup_cons. split; [|done]. intros Hdup.
        apply Hall in Hdup as (Q & m & Hqm & Hlt). rewrite Hid in Hqm.
        pose proof (lastOrdinal_nonneg p N (ProviderName cfg) Hin).
        pose proof (lastOrdinal_nonneg p' (N + 1) Q Hin').
        apply id_inj in Hqm as [<- <-]; [|lia..].
        rewrite Hlast, bool_decide_eq_true_2 in Hlt by done. lia.
      * intros id [->|Hin'']%elem_of_cons.
        -- exists (ProviderName cfg), (lastOrdinal p (ProviderName cfg) + 1).
           split; [done | lia].
        -- apply Hall in Hin'' as (Q & m & -> & Hlt). exists Q, m. split; [done|].
           rewrite Hlast in Hlt. case_bool_decide; [subst; lia | done].
Qed.

(** X30.  The IDs of a provider are all different, across the names: in
    a run of fewer than 2^63 [CreateCluster] calls on a new provider no
    two instances get the same ID, since an ID, a name followed by a dash
    and decimal digits, tells its name and its ordinal. *)
Theorem CreateCluster_ids_distinct (root : string)
        (calls : list (W * ClusterProviderConfig * ValidationFactory W
                       * InstanceOptions)) :
  Z.of_nat (length calls) < 2^63 ->
  NoDup (created (createClusters ext (packetProvider.NewPacketClusterProvider root)
                                 calls).1)
  /\ forall (P Q : string) (n m : Z),
      0 <= n -> 0 <= m ->
      P +:+ "-" +:+ pretty n = Q +:+ "-" +:+ pretty m -> P = Q /\ n = m.
Proof.
  intros Hlen. split; [|apply id_inj].
  apply (createClusters_created calls _ 0); [apply ordinalsWithin_new | lia..].
Qed.

End AllIds.

(** Calls for the names [a], [a-1] and [a] again. *)
Lemma CreateCluster_ids_distinct_witness :
  NoDup (created
           (packet.createClusters sample.calm
              (packet.packetProvider.NewPacketClusterProvider "/tmp/ct")
              [ (sample.environment, sample.providerConfig "a" [],
                 tests.TestValidationFactory, sample.options);
                (sample.environment, sample.providerConfig "a-1" [],
                 tests.TestValidationFactory, sample.options);
                (sample.environment, sample.providerConfig "a" [],
                 tests.TestValidationFactory, sample.options) ]).1)
  /\ forall (P Q : string) (n m : Z),
      0 <= n -> 0 <= m ->
      P +:+ "-" +:+ pretty n = Q +:+ "-" +:+ pretty m -> P = Q /\ n = m.
Proof. apply CreateCluster_ids_distinct. simpl. lia. Defined.

Example created_sample :
  created
    (packet.createClusters sample.calm
       (packet.packetProvider.NewPacketClusterProvider "/tmp/ct")
       [ (sample.environment, sample.providerConfig "a" [],
          tests.TestValidationFactory, sample.options);
         (sample.environment, sample.providerConfig "a-1" [],
          tests.TestValidationFactory, sample.options);
         (sample.environment, sample.providerConfig "a" [],
          tests.TestValidationFactory, sample.options) ]).1
  = ["a-1"; "a-1-1"; "a-2"].
Proof. vm_compute. reflexivity. Qed.
